(** * Kiali graph engine: identity scheme, options resolver, Cytoscape serializer

    A shallow embedding of [graph/graph.go], of the options package and of the
    Cytoscape vendor serializer, with the properties of the design document
    proved over it.

    Conventions.
    - Go strings are byte strings: [string] of the Standard Library, compared
      bytewise ([String.eqb], [String.ltb]).
    - A [panic] is the [Panic] constructor of [result]; a function that can
      panic returns a [result].
    - Pointers are addresses into an explicit [Store]; [None] is [nil].
    - [float64] is the kernel's binary64 [float].
    - Iterating over a Go map visits the entries in an unspecified order, and
      [sort.Slice] is not stable: both are modelled by taking the order as an
      argument, respectively by a relation. *)

From Stdlib Require Import ZArith Floats Ascii.
From stdpp Require Import gmap strings pretty list fin_maps sorting.

Local Open Scope string_scope.
Local Open Scope list_scope.

(** ** Results of code that may panic *)

Inductive result (A : Type) : Type :=
| Ok (a : A)
| Panic (msg : string).
Arguments Ok {A} a.
Arguments Panic {A} msg.

#[global] Instance result_ret : MRet result := fun A a => Ok a.
#[global] Instance result_bind : MBind result := fun A B k r =>
  match r with
  | Ok a => k a
  | Panic m => Panic m
  end.

Definition is_panic {A : Type} (r : result A) : bool :=
  match r with Ok _ => false | Panic _ => true end.

(** ** Package time (the part of the Go library the options package uses)

    A [Duration] is an int64 count of nanoseconds. A [Time] is a wall-clock
    instant: seconds since January 1, year 1 00:00:00 UTC, and nanoseconds
    within the second. The namespace creation timestamps and [time.Unix]
    carry no monotonic reading, so [Sub] is the wall-clock difference,
    saturated to the range of [Duration] as the library documents. *)

Module time.

Local Open Scope Z_scope.

Definition Duration : Type := Z.

Definition minDuration : Duration := - 2 ^ 63.
Definition maxDuration : Duration := 2 ^ 63 - 1.
Definition Nanosecond : Duration := 1.
Definition Second : Duration := 1000000000.
Definition Minute : Duration := 60 * Second.

Record Time : Type := mkTime {
  sec : Z;
  nsec : Z
}.

Definition unixToInternal : Z := 62135596800.

(** Two's complement wrap-around of int64 arithmetic. *)
Definition wrap64 (z : Z) : Z := (z + 2 ^ 63) mod 2 ^ 64 - 2 ^ 63.

(** [time.Unix(sec, nsec)]; Go's [/] truncates towards zero. *)
Definition Unix (s ns : Z) : Time :=
  let '(s, ns) :=
    if (ns <? 0) || (1000000000 <=? ns) then
      let n := Z.quot ns 1000000000 in
      let s := wrap64 (s + n) in
      let ns := ns - n * 1000000000 in
      if ns <? 0 then (wrap64 (s - 1), ns + 1000000000) else (s, ns)
    else (s, ns) in
  {| sec := wrap64 (s + unixToInternal); nsec := ns |}.

Definition IsZero (t : Time) : bool := (sec t =? 0) && (nsec t =? 0).

(** Nanoseconds since the zero time, as an unbounded integer. *)
Definition abs_nanos (t : Time) : Z := sec t * 1000000000 + nsec t.

(** [t.Sub(u)]: the duration t-u, or the maximum (minimum) duration when the
    difference is out of range. *)
Definition Sub (t u : Time) : Duration :=
  let d := abs_nanos t - abs_nanos u in
  if d <? minDuration then minDuration
  else if maxDuration <? d then maxDuration
  else d.

(** [t.Unix()]: the seconds since January 1, 1970 UTC. *)
Definition Time_Unix (t : Time) : Z := wrap64 (sec t - unixToInternal).

End time.

(** ** Package graph *)

Module graph.

Definition GraphTypeApp : string := "app".
Definition GraphTypeService : string := "service".
Definition GraphTypeVersionedApp : string := "versionedApp".
Definition GraphTypeWorkload : string := "workload".
Definition NodeTypeApp : string := "app".
Definition NodeTypeService : string := "service".
Definition NodeTypeUnknown : string := "unknown".
Definition NodeTypeWorkload : string := "workload".
Definition UnknownApp : string := "unknown".
Definition UnknownNamespace : string := "unknown".
Definition UnknownService : string := "unknown".
Definition UnknownVersion : string := "unknown".
Definition UnknownWorkload : string := "unknown".

(** Values of the metadata bag, [map[string]interface{}]: the dynamic types
    the appenders and the serializer agree on, the nil interface, and any
    other dynamic type. *)
Inductive value : Type :=
| VFloat (f : float)
| VBool (b : bool)
| VString (s : string)
| VBoolMap (m : gmap string bool)
| VNil
| VOther.

(** A pointer is an address of the store, or nil. *)
Definition ptr : Type := option nat.

Record Node : Type := mkNode {
  ID : string;
  NodeType : string;
  Namespace : string;
  Workload : string;
  App : string;
  Version : string;
  Service : string;
  Edges : list ptr;
  Metadata : gmap string value
}.

(** [EdgeMetadata] is the field [Metadata] of [Edge]. *)
Record Edge : Type := mkEdge {
  Source : ptr;
  Dest : ptr;
  EdgeMetadata : gmap string value
}.

Record NamespaceInfo : Type := mkNamespaceInfo {
  Name : string;
  Duration : time.Duration
}.

(** The heap of one request: the nodes and the edges, by address. *)
Record Store : Type := mkStore {
  nodes : list Node;
  edges : list Edge
}.

(** [TrafficMap] is [map[string]*Node]. *)
Definition TrafficMap : Type := gmap string ptr.

Definition nil_deref : string :=
  "runtime error: invalid memory address or nil pointer dereference".

Definition load_node (st : Store) (p : ptr) : result Node :=
  match p with
  | Some a => match nodes st !! a with
              | Some n => Ok n
              | None => Panic nil_deref
              end
  | None => Panic nil_deref
  end.

Definition load_edge (st : Store) (p : ptr) : result Edge :=
  match p with
  | Some a => match edges st !! a with
              | Some e => Ok e
              | None => Panic nil_deref
              end
  | None => Panic nil_deref
  end.

Definition NewNodeExplicit
    (id namespace workload app version service nodeType graphType : string) : Node :=
  let '(workload, app, version, service) :=
    if String.eqb nodeType NodeTypeWorkload then
      let app := if String.eqb app UnknownApp then "" else app in
      let version := if String.eqb version UnknownVersion then "" else version in
      (workload, app, version, "")
    else if String.eqb nodeType NodeTypeApp then
      if negb (String.eqb graphType GraphTypeVersionedApp)
      then ("", app, "", "")
      else (workload, app, version, "")
    else if String.eqb nodeType NodeTypeService then
      ("", "", "", service)
    else (workload, app, version, service) in
  {| ID := id;
     NodeType := nodeType;
     Namespace := namespace;
     Workload := workload;
     App := app;
     Version := version;
     Service := service;
     Edges := [];
     Metadata := ∅ |}.

Definition NewEdge (source dest : ptr) : Edge :=
  {| Source := source; Dest := dest; EdgeMetadata := ∅ |}.

Definition with_Edges (n : Node) (es : list ptr) : Node :=
  {| ID := ID n; NodeType := NodeType n; Namespace := Namespace n;
     Workload := Workload n; App := App n; Version := Version n;
     Service := Service n; Edges := es; Metadata := Metadata n |}.

(** [func (s *Node) AddEdge(dest *Node) *Edge]: the new edge is allocated
    at a fresh address, then [s.Edges] is read and written through [s]. *)
Definition AddEdge (s dest : ptr) (st : Store) : result (ptr * Store) :=
  let e := NewEdge s dest in
  let pe : ptr := Some (length (edges st)) in
  n ← load_node st s;
  match s with
  | Some a =>
      Ok (pe, {| nodes := <[a := with_Edges n (Edges n ++ [pe])]> (nodes st);
                 edges := edges st ++ [e] |})
  | None => Panic nil_deref
  end.

Definition NewTrafficMap : TrafficMap := ∅.

Definition failed_id_gen
    (namespace workload app version service graphType : string) : string :=
  "Failed ID gen: namespace=[" +:+ namespace +:+ "] workload=[" +:+ workload
  +:+ "] app=[" +:+ app +:+ "] version=[" +:+ version +:+ "] service=["
  +:+ service +:+ "] graphType=[" +:+ graphType +:+ "]".

Definition workloadOk (workload : string) : bool :=
  negb (String.eqb workload "") && negb (String.eqb workload UnknownWorkload).
Definition appOk (app : string) : bool :=
  negb (String.eqb app "") && negb (String.eqb app UnknownApp).
Definition serviceOk (service : string) : bool :=
  negb (String.eqb service "") && negb (String.eqb service UnknownService).

Definition Id (namespace workload app version service graphType : string)
    : result (string * string) :=
  if String.eqb UnknownNamespace namespace && String.eqb UnknownWorkload workload
     && String.eqb UnknownApp app && String.eqb "" service
  then Ok ("unknown_source", NodeTypeUnknown)
  else if String.eqb UnknownWorkload workload && String.eqb UnknownApp app
          && String.eqb UnknownService service
  then Ok ("svc_" +:+ namespace +:+ "_unknown", NodeTypeService)
  else if negb (workloadOk workload) && negb (appOk app) && negb (serviceOk service)
  then Panic (failed_id_gen namespace workload app version service graphType)
  else if String.eqb graphType GraphTypeWorkload || String.eqb graphType GraphTypeService
  then
    if negb (workloadOk workload) && negb (serviceOk service)
    then Panic (failed_id_gen namespace workload app version service graphType)
    else if negb (workloadOk workload)
    then Ok ("svc_" +:+ namespace +:+ "_" +:+ service, NodeTypeService)
    else Ok ("wl_" +:+ namespace +:+ "_" +:+ workload, NodeTypeWorkload)
  else if appOk app
  then
    if String.eqb graphType GraphTypeVersionedApp
    then Ok ("vapp_" +:+ namespace +:+ "_" +:+ workload, NodeTypeApp)
    else Ok ("app_" +:+ namespace +:+ "_" +:+ app, NodeTypeApp)
  else if workloadOk workload
  then Ok ("wl_" +:+ namespace +:+ "_" +:+ workload, NodeTypeWorkload)
  else Ok ("svc_" +:+ namespace +:+ "_" +:+ service, NodeTypeService).

Definition NewNode (namespace workload app version service graphType : string)
    : result Node :=
  '(id, nodeType) ← Id namespace workload app version service graphType;
  Ok (NewNodeExplicit id namespace workload app version service nodeType graphType).

End graph.

(** ** Package appender: the appenders the options resolver builds

    The appender package is outside the sources at hand; the resolver only
    builds values of its types, whose fields are the ones it sets. *)

Module appender.

Inductive Appender : Type :=
| DeadNodeAppender
| ResponseTimeAppender (Quantile : float) (GraphType : string)
    (InjectServiceNodes IncludeIstio : bool)
    (Namespaces : gmap string graph.NamespaceInfo) (QueryTime : Z)
| SecurityPolicyAppender (GraphType : string) (IncludeIstio : bool)
    (Namespaces : gmap string graph.NamespaceInfo) (QueryTime : Z)
| UnusedNodeAppender (GraphType : string) (IsNodeGraph : bool)
| IstioAppender
| SidecarsCheckAppender.

(** The stage of the pipeline an appender value belongs to. *)
Inductive Kind : Type :=
| DeadNode | ResponseTime | SecurityPolicy | UnusedNode | Istio | SidecarsCheck.

Definition kind (a : Appender) : Kind :=
  match a with
  | DeadNodeAppender => DeadNode
  | ResponseTimeAppender _ _ _ _ _ _ => ResponseTime
  | SecurityPolicyAppender _ _ _ _ => SecurityPolicy
  | UnusedNodeAppender _ _ => UnusedNode
  | IstioAppender => Istio
  | SidecarsCheckAppender => SidecarsCheck
  end.

(** The fixed order of the pipeline. *)
Definition pipeline_order : list Kind :=
  [DeadNode; ResponseTime; SecurityPolicy; UnusedNode; Istio; SidecarsCheck].

End appender.

(** ** Package models: the namespaces the business layer lists

    Of a namespace the options package reads the name and the creation
    timestamp. *)

Module models.

Record Namespace : Type := mkNamespace {
  Name : string;
  CreationTimestamp : time.Time
}.

End models.

(** ** Package options *)

Module options.

Definition AppenderAll : string := "_all_".
Definition GroupByVersion : string := "version".
Definition NamespaceAll : string := "all".
Definition NamespaceIstioSystem : string := "istio-system".

Record NodeOptions : Type := mkNodeOptions {
  App : string;
  Service : string;
  Version : string;
  Workload : string
}.

Record VendorOptions : Type := mkVendorOptions {
  GraphType : string;
  GroupBy : string;
  Timestamp : Z
}.

Record Options : Type := mkOptions {
  AccessibleNamespaces : gmap string bool;
  Appenders : list appender.Appender;
  Duration : time.Duration;
  IncludeIstio : bool;
  InjectServiceNodes : bool;
  Namespaces : gmap string graph.NamespaceInfo;
  QueryTime : Z;
  Vendor : string;
  nodeOptions : NodeOptions;
  vendorOptions : VendorOptions
}.

(** [url.Values] is [map[string][]string]; [Get] returns the first value of
    the key, or the empty string. *)
Definition Values : Type := gmap string (list string).

Definition Get (params : Values) (key : string) : string :=
  match params !! key with
  | Some (v :: _) => v
  | _ => ""
  end.

(** [strings.Contains]. *)
Fixpoint Contains (s substr : string) : bool :=
  String.prefix substr s ||
  match s with
  | EmptyString => false
  | String _ s' => Contains s' substr
  end.

Section parseAppenders.

(** The names of the appenders and the default quantile are constants of the
    appender package; [strings.ToLower] and [strconv.ParseFloat] are the
    library's. The resolver is parametric in all of them. *)
Variables DeadNodeAppenderName ResponseTimeAppenderName
  SecurityPolicyAppenderName UnusedNodeAppenderName IstioAppenderName
  SidecarsCheckAppenderName : string.
Variable DefaultQuantile : float.
Variable ToLower : string -> string.
Variable ParseFloat : string -> option float.

Definition parseAppenders (params : Values) (o : Options) : list appender.Appender :=
  let appenders : list appender.Appender := [] in
  let csl := AppenderAll in
  let csl := if params !! "appenders" is Some _
             then ToLower (Get params "appenders") else csl in
  let appenders :=
    if String.eqb csl AppenderAll || Contains csl DeadNodeAppenderName
       || Contains csl "dead_node"
    then appenders ++ [appender.DeadNodeAppender] else appenders in
  let appenders :=
    if String.eqb csl AppenderAll || Contains csl ResponseTimeAppenderName
       || Contains csl "response_time"
    then
      let quantile := DefaultQuantile in
      let quantile :=
        if params !! "responseTimeQuantile" is Some _
        then match ParseFloat (Get params "responseTimeQuantile") with
             | Some responseTimeQuantile => responseTimeQuantile
             | None => quantile
             end
        else quantile in
      let a := appender.ResponseTimeAppender quantile
                 (GraphType (vendorOptions o)) (InjectServiceNodes o)
                 (IncludeIstio o) (Namespaces o) (QueryTime o) in
      appenders ++ [a]
    else appenders in
  let appenders :=
    if String.eqb csl AppenderAll || Contains csl SecurityPolicyAppenderName
       || Contains csl "security_policy"
    then
      let a := appender.SecurityPolicyAppender (GraphType (vendorOptions o))
                 (IncludeIstio o) (Namespaces o) (QueryTime o) in
      appenders ++ [a]
    else appenders in
  let appenders :=
    if String.eqb csl AppenderAll || Contains csl UnusedNodeAppenderName
       || Contains csl "unused_node"
    then
      let hasNodeOptions :=
        negb (String.eqb (App (nodeOptions o)) "")
        || negb (String.eqb (Workload (nodeOptions o)) "")
        || negb (String.eqb (Service (nodeOptions o)) "") in
      appenders ++ [appender.UnusedNodeAppender (GraphType (vendorOptions o))
                      hasNodeOptions]
    else appenders in
  let appenders :=
    if String.eqb csl AppenderAll || Contains csl IstioAppenderName
       || Contains csl "istio"
    then appenders ++ [appender.IstioAppender] else appenders in
  let appenders :=
    if String.eqb csl AppenderAll || Contains csl SidecarsCheckAppenderName
       || Contains csl "sidecars_check"
    then appenders ++ [appender.SidecarsCheckAppender] else appenders in
  appenders.

End parseAppenders.

(** [resolveNamespaceDuration]; [now] is the reading of [time.Now()]. *)
Definition resolveNamespaceDuration (now : time.Time)
    (nsCreationTime : time.Time) (requestedRange : time.Duration)
    (queryTime : Z) : time.Duration :=
  let resolvedBound := requestedRange in
  if negb (time.IsZero nsCreationTime) then
    let referenceTime :=
      if negb (queryTime =? 0)%Z then time.Unix queryTime 0 else now in
    let nsLifetime := time.Sub referenceTime nsCreationTime in
    if (nsLifetime <? resolvedBound)%Z then nsLifetime else resolvedBound
  else resolvedBound.

Definition defaultDuration : string := "10m".
Definition defaultGraphType : string := graph.GraphTypeWorkload.
Definition defaultGroupBy : string := GroupByVersion.
Definition defaultIncludeIstio : bool := false.
Definition defaultInjectServiceNodes : bool := false.
Definition defaultVendor : string := "cytoscape".

Definition graphKindNamespace : string := "namespace".
Definition graphKindNode : string := "node".

(** [func (o *Options) GetGraphKind() string], for a receiver that is not
    nil. *)
Definition GetGraphKind (o : Options) : string :=
  if negb (String.eqb (App (nodeOptions o)) "")
     || negb (String.eqb (Version (nodeOptions o)) "")
     || negb (String.eqb (Workload (nodeOptions o)) "")
     || negb (String.eqb (Service (nodeOptions o)) "")
  then graphKindNode
  else graphKindNamespace.

(** [strings.Split(s, sep)] for a separator of one character: the pieces
    of [s] between the separators, the empty ones included. *)
Fixpoint Split (s : string) (sep : ascii) : list string :=
  match s with
  | EmptyString => [EmptyString]
  | String c s' =>
      if Ascii.eqb c sep then EmptyString :: Split s' sep
      else match Split s' sep with
           | piece :: pieces => String c piece :: pieces
           | [] => [String c EmptyString]
           end
  end.

(** [checkError] panics on an error, which is [None] for [nil] and the
    message otherwise. The value of the panic is the method value
    [err.Error]; it is represented by the message it returns. *)
Definition checkError (err : option string) : result unit :=
  match err with
  | Some msg => Panic msg
  | None => Ok ()
  end.

(** [v[key]] on a [map[string]string] and a [map[string]time.Time]: the
    zero value when the key is absent. *)
Definition Var (vars : gmap string string) (key : string) : string :=
  default "" (vars !! key).

Definition timestamp_of (m : gmap string time.Time) (key : string) : time.Time :=
  default (time.mkTime 0 0) (m !! key).

Definition not_accessible (namespaceName : string) : string :=
  "Requested namespace [" +:+ namespaceName +:+ "] is not accessible.".

Section NewOptions.

(** The request is served in a world that the sources at hand do not fix:
    [business.Get()] returns an error or not, the namespace service returns
    a list of namespaces and an error or not, and the clock is read as
    [now] where the query time is defaulted and as [now_at i] in the [i]-th
    turn of the loop over the namespaces. The parsers of [time] and
    [strconv] return [None] for an error. *)
Variable business_Get : option string.
Variable GetNamespaces : list models.Namespace * option string.
Variable now : time.Time.
Variable now_at : nat → time.Time.
Variable ParseDuration : string → option time.Duration.
Variable ParseBool : string → option bool.
Variable ParseInt : string → option Z.
Variables DeadNodeAppenderName ResponseTimeAppenderName
  SecurityPolicyAppenderName UnusedNodeAppenderName IstioAppenderName
  SidecarsCheckAppenderName : string.
Variable DefaultQuantile : float.
Variable ToLower : string → string.
Variable ParseFloat : string → option float.

Definition getAccessibleNamespaces
    : result (gmap string bool * gmap string time.Time) :=
  checkError business_Get;;
  let '(namespaces, err) := GetNamespaces in
  checkError err;;
  let namespaceMap : gmap string bool := ∅ in
  let namespaceTimestamps : gmap string time.Time := ∅ in
  Ok (foldl (λ '(namespaceMap, namespaceTimestamps) namespace,
               (<[models.Name namespace := true]> namespaceMap,
                <[models.Name namespace := models.CreationTimestamp namespace]>
                  namespaceTimestamps))
        (namespaceMap, namespaceTimestamps) namespaces).

(** The entry that the three branches of [NewOptions] store for a
    namespace, in the [i]-th turn of its loop. *)
Definition namespaceInfo (namespaceTimestamps : gmap string time.Time)
    (duration : time.Duration) (queryTime : Z) (i : nat) (namespace : string)
    : graph.NamespaceInfo :=
  {| graph.Name := namespace;
     graph.Duration :=
       resolveNamespaceDuration (now_at i)
         (timestamp_of namespaceTimestamps namespace) duration queryTime |}.

(** [for namespace := range accessibleNamespaces], in the order [order]. *)
Fixpoint fetch_all (namespaceTimestamps : gmap string time.Time)
    (duration : time.Duration) (queryTime : Z) (i : nat) (order : list string)
    (namespaces : gmap string graph.NamespaceInfo)
    : gmap string graph.NamespaceInfo :=
  match order with
  | [] => namespaces
  | namespace :: order =>
      fetch_all namespaceTimestamps duration queryTime (S i) order
        (if negb (String.eqb namespace NamespaceIstioSystem)
         then <[namespace :=
                  namespaceInfo namespaceTimestamps duration queryTime i namespace]>
                namespaces
         else namespaces)
  end.

(** [for _, namespaceName := range namespacesList]. *)
Fixpoint fetch_list (accessibleNamespaces : gmap string bool)
    (namespaceTimestamps : gmap string time.Time)
    (duration : time.Duration) (queryTime : Z) (i : nat)
    (namespacesList : list string)
    (namespaces : gmap string graph.NamespaceInfo)
    : result (gmap string graph.NamespaceInfo) :=
  match namespacesList with
  | [] => Ok namespaces
  | namespaceName :: namespacesList =>
      namespaces ←
        (if accessibleNamespaces !! namespaceName is Some _
         then Ok (<[namespaceName :=
                      namespaceInfo namespaceTimestamps duration queryTime i
                        namespaceName]> namespaces)
         else checkError (Some (not_accessible namespaceName));; Ok namespaces);
      fetch_list accessibleNamespaces namespaceTimestamps duration queryTime
        (S i) namespacesList namespaces
  end.

(** [NewOptions]; [vars] are the path variables of the request, [params]
    its query parameters, [order] the order in which the accessible
    namespaces are ranged over. *)
Definition NewOptions (order : list string)
    (vars : gmap string string) (params : Values) : result Options :=
  let app := Var vars "app" in
  let version := Var vars "version" in
  let requestedNamespace := Var vars "namespace" in
  let service := Var vars "service" in
  let workload := Var vars "workload" in
  let duration :=
    match ParseDuration (Get params "duration") with
    | Some duration => duration
    | None => default 0%Z (ParseDuration defaultDuration)
    end in
  let includeIstio :=
    default defaultIncludeIstio (ParseBool (Get params "includeIstio")) in
  let injectServiceNodes :=
    default defaultInjectServiceNodes
      (ParseBool (Get params "injectServiceNodes")) in
  let graphType := Get params "graphType" in
  let groupBy := Get params "groupBy" in
  let queryTime :=
    default (time.Time_Unix now) (ParseInt (Get params "queryTime")) in
  let requestedNamespaces := Get params "namespaces" in
  let vendor := Get params "vendor" in
  let graphType :=
    if String.eqb "" graphType then defaultGraphType else graphType in
  let groupBy := if String.eqb "" groupBy then defaultGroupBy else groupBy in
  let vendor := if String.eqb "" vendor then defaultVendor else vendor in
  '(accessibleNamespaces, namespaceTimestamps) ← getAccessibleNamespaces;
  let namespaces : gmap string graph.NamespaceInfo := ∅ in
  let fetchNamespaces :=
    String.eqb requestedNamespaces NamespaceAll
    || (String.eqb requestedNamespaces ""
        && String.eqb requestedNamespace NamespaceAll) in
  namespaces ←
    (if fetchNamespaces
     then Ok (fetch_all namespaceTimestamps duration queryTime 0 order namespaces)
     else if negb (String.eqb requestedNamespaces "")
     then
       let namespacesList := Split requestedNamespaces "," in
       fetch_list accessibleNamespaces namespaceTimestamps duration queryTime
         0 namespacesList namespaces
     else if negb (String.eqb requestedNamespace "")
     then
       if accessibleNamespaces !! requestedNamespace is Some _
       then Ok (<[requestedNamespace :=
                    namespaceInfo namespaceTimestamps duration queryTime 0
                      requestedNamespace]> namespaces)
       else checkError (Some (not_accessible requestedNamespace));;
            Ok namespaces
     else Ok namespaces);
  let injectServiceNodes :=
    if String.eqb graphType graph.GraphTypeService then true
    else injectServiceNodes in
  let options :=
    {| AccessibleNamespaces := accessibleNamespaces;
       Appenders := [];
       Duration := duration;
       IncludeIstio := includeIstio;
       InjectServiceNodes := injectServiceNodes;
       Namespaces := namespaces;
       QueryTime := queryTime;
       Vendor := vendor;
       nodeOptions :=
         {| App := app; Service := service; Version := version;
            Workload := workload |};
       vendorOptions :=
         {| GraphType := graphType; GroupBy := groupBy;
            Timestamp := queryTime |} |} in
  let appenders :=
    parseAppenders DeadNodeAppenderName ResponseTimeAppenderName
      SecurityPolicyAppenderName UnusedNodeAppenderName IstioAppenderName
      SidecarsCheckAppenderName DefaultQuantile ToLower ParseFloat
      params options in
  Ok {| AccessibleNamespaces := AccessibleNamespaces options;
        Appenders := appenders;
        Duration := Duration options;
        IncludeIstio := IncludeIstio options;
        InjectServiceNodes := InjectServiceNodes options;
        Namespaces := Namespaces options;
        QueryTime := QueryTime options;
        Vendor := Vendor options;
        nodeOptions := nodeOptions options;
        vendorOptions := vendorOptions options |}.

End NewOptions.

End options.

(** ** Package cytoscape *)

Module cytoscape.

(** [NodeData], with a setter for each field the serializer assigns. A string
    or boolean field tagged [omitempty] is left out of the JSON document when
    it holds the zero value. *)
Module NodeData.

Record t : Type := mk {
  Id : string;
  Parent : string;
  NodeType : string;
  Namespace : string;
  Workload : string;
  App : string;
  Version : string;
  Service : string;
  DestServices : gmap string bool;
  Rate : string;
  Rate3xx : string;
  Rate4xx : string;
  Rate5xx : string;
  RateOut : string;
  RateTcpSent : string;
  RateTcpSentOut : string;
  HasCB : bool;
  HasMissingSC : bool;
  HasVS : bool;
  IsDead : bool;
  IsEgress : bool;
  IsGroup : string;
  IsInaccessible : bool;
  IsMisconfigured : string;
  IsOutside : bool;
  IsRoot : bool;
  IsUnused : bool
}.

Definition set_Parent (v : string) (x : t) : t :=
  {| Id := Id x; Parent := v; NodeType := NodeType x;
     Namespace := Namespace x; Workload := Workload x; App := App x;
     Version := Version x; Service := Service x;
     DestServices := DestServices x; Rate := Rate x; Rate3xx := Rate3xx x;
     Rate4xx := Rate4xx x; Rate5xx := Rate5xx x; RateOut := RateOut x;
     RateTcpSent := RateTcpSent x; RateTcpSentOut := RateTcpSentOut x;
     HasCB := HasCB x; HasMissingSC := HasMissingSC x; HasVS := HasVS x;
     IsDead := IsDead x; IsEgress := IsEgress x; IsGroup := IsGroup x;
     IsInaccessible := IsInaccessible x;
     IsMisconfigured := IsMisconfigured x; IsOutside := IsOutside x;
     IsRoot := IsRoot x; IsUnused := IsUnused x |}.
Definition set_DestServices (v : gmap string bool) (x : t) : t :=
  {| Id := Id x; Parent := Parent x; NodeType := NodeType x;
     Namespace := Namespace x; Workload := Workload x; App := App x;
     Version := Version x; Service := Service x; DestServices := v;
     Rate := Rate x; Rate3xx := Rate3xx x; Rate4xx := Rate4xx x;
     Rate5xx := Rate5xx x; RateOut := RateOut x;
     RateTcpSent := RateTcpSent x; RateTcpSentOut := RateTcpSentOut x;
     HasCB := HasCB x; HasMissingSC := HasMissingSC x; HasVS := HasVS x;
     IsDead := IsDead x; IsEgress := IsEgress x; IsGroup := IsGroup x;
     IsInaccessible := IsInaccessible x;
     IsMisconfigured := IsMisconfigured x; IsOutside := IsOutside x;
     IsRoot := IsRoot x; IsUnused := IsUnused x |}.
Definition set_Rate (v : string) (x : t) : t :=
  {| Id := Id x; Parent := Parent x; NodeType := NodeType x;
     Namespace := Namespace x; Workload := Workload x; App := App x;
     Version := Version x; Service := Service x;
     DestServices := DestServices x; Rate := v; Rate3xx := Rate3xx x;
     Rate4xx := Rate4xx x; Rate5xx := Rate5xx x; RateOut := RateOut x;
     RateTcpSent := RateTcpSent x; RateTcpSentOut := RateTcpSentOut x;
     HasCB := HasCB x; HasMissingSC := HasMissingSC x; HasVS := HasVS x;
     IsDead := IsDead x; IsEgress := IsEgress x; IsGroup := IsGroup x;
     IsInaccessible := IsInaccessible x;
     IsMisconfigured := IsMisconfigured x; IsOutside := IsOutside x;
     IsRoot := IsRoot x; IsUnused := IsUnused x |}.
Definition set_Rate3xx (v : string) (x : t) : t :=
  {| Id := Id x; Parent := Parent x; NodeType := NodeType x;
     Namespace := Namespace x; Workload := Workload x; App := App x;
     Version := Version x; Service := Service x;
     DestServices := DestServices x; Rate := Rate x; Rate3xx := v;
     Rate4xx := Rate4xx x; Rate5xx := Rate5xx x; RateOut := RateOut x;
     RateTcpSent := RateTcpSent x; RateTcpSentOut := RateTcpSentOut x;
     HasCB := HasCB x; HasMissingSC := HasMissingSC x; HasVS := HasVS x;
     IsDead := IsDead x; IsEgress := IsEgress x; IsGroup := IsGroup x;
     IsInaccessible := IsInaccessible x;
     IsMisconfigured := IsMisconfigured x; IsOutside := IsOutside x;
     IsRoot := IsRoot x; IsUnused := IsUnused x |}.
Definition set_Rate4xx (v : string) (x : t) : t :=
  {| Id := Id x; Parent := Parent x; NodeType := NodeType x;
     Namespace := Namespace x; Workload := Workload x; App := App x;
     Version := Version x; Service := Service x;
     DestServices := DestServices x; Rate := Rate x; Rate3xx := Rate3xx x;
     Rate4xx := v; Rate5xx := Rate5xx x; RateOut := RateOut x;
     RateTcpSent := RateTcpSent x; RateTcpSentOut := RateTcpSentOut x;
     HasCB := HasCB x; HasMissingSC := HasMissingSC x; HasVS := HasVS x;
     IsDead := IsDead x; IsEgress := IsEgress x; IsGroup := IsGroup x;
     IsInaccessible := IsInaccessible x;
     IsMisconfigured := IsMisconfigured x; IsOutside := IsOutside x;
     IsRoot := IsRoot x; IsUnused := IsUnused x |}.
Definition set_Rate5xx (v : string) (x : t) : t :=
  {| Id := Id x; Parent := Parent x; NodeType := NodeType x;
     Namespace := Namespace x; Workload := Workload x; App := App x;
     Version := Version x; Service := Service x;
     DestServices := DestServices x; Rate := Rate x; Rate3xx := Rate3xx x;
     Rate4xx := Rate4xx x; Rate5xx := v; RateOut := RateOut x;
     RateTcpSent := RateTcpSent x; RateTcpSentOut := RateTcpSentOut x;
     HasCB := HasCB x; HasMissingSC := HasMissingSC x; HasVS := HasVS x;
     IsDead := IsDead x; IsEgress := IsEgress x; IsGroup := IsGroup x;
     IsInaccessible := IsInaccessible x;
     IsMisconfigured := IsMisconfigured x; IsOutside := IsOutside x;
     IsRoot := IsRoot x; IsUnused := IsUnused x |}.
Definition set_RateOut (v : string) (x : t) : t :=
  {| Id := Id x; Parent := Parent x; NodeType := NodeType x;
     Namespace := Namespace x; Workload := Workload x; App := App x;
     Version := Version x; Service := Service x;
     DestServices := DestServices x; Rate := Rate x; Rate3xx := Rate3xx x;
     Rate4xx := Rate4xx x; Rate5xx := Rate5xx x; RateOut := v;
     RateTcpSent := RateTcpSent x; RateTcpSentOut := RateTcpSentOut x;
     HasCB := HasCB x; HasMissingSC := HasMissingSC x; HasVS := HasVS x;
     IsDead := IsDead x; IsEgress := IsEgress x; IsGroup := IsGroup x;
     IsInaccessible := IsInaccessible x;
     IsMisconfigured := IsMisconfigured x; IsOutside := IsOutside x;
     IsRoot := IsRoot x; IsUnused := IsUnused x |}.
Definition set_RateTcpSent (v : string) (x : t) : t :=
  {| Id := Id x; Parent := Parent x; NodeType := NodeType x;
     Namespace := Namespace x; Workload := Workload x; App := App x;
     Version := Version x; Service := Service x;
     DestServices := DestServices x; Rate := Rate x; Rate3xx := Rate3xx x;
     Rate4xx := Rate4xx x; Rate5xx := Rate5xx x; RateOut := RateOut x;
     RateTcpSent := v; RateTcpSentOut := RateTcpSentOut x; HasCB := HasCB x;
     HasMissingSC := HasMissingSC x; HasVS := HasVS x; IsDead := IsDead x;
     IsEgress := IsEgress x; IsGroup := IsGroup x;
     IsInaccessible := IsInaccessible x;
     IsMisconfigured := IsMisconfigured x; IsOutside := IsOutside x;
     IsRoot := IsRoot x; IsUnused := IsUnused x |}.
Definition set_RateTcpSentOut (v : string) (x : t) : t :=
  {| Id := Id x; Parent := Parent x; NodeType := NodeType x;
     Namespace := Namespace x; Workload := Workload x; App := App x;
     Version := Version x; Service := Service x;
     DestServices := DestServices x; Rate := Rate x; Rate3xx := Rate3xx x;
     Rate4xx := Rate4xx x; Rate5xx := Rate5xx x; RateOut := RateOut x;
     RateTcpSent := RateTcpSent x; RateTcpSentOut := v; HasCB := HasCB x;
     HasMissingSC := HasMissingSC x; HasVS := HasVS x; IsDead := IsDead x;
     IsEgress := IsEgress x; IsGroup := IsGroup x;
     IsInaccessible := IsInaccessible x;
     IsMisconfigured := IsMisconfigured x; IsOutside := IsOutside x;
     IsRoot := IsRoot x; IsUnused := IsUnused x |}.
Definition set_HasCB (v : bool) (x : t) : t :=
  {| Id := Id x; Parent := Parent x; NodeType := NodeType x;
     Namespace := Namespace x; Workload := Workload x; App := App x;
     Version := Version x; Service := Service x;
     DestServices := DestServices x; Rate := Rate x; Rate3xx := Rate3xx x;
     Rate4xx := Rate4xx x; Rate5xx := Rate5xx x; RateOut := RateOut x;
     RateTcpSent := RateTcpSent x; RateTcpSentOut := RateTcpSentOut x;
     HasCB := v; HasMissingSC := HasMissingSC x; HasVS := HasVS x;
     IsDead := IsDead x; IsEgress := IsEgress x; IsGroup := IsGroup x;
     IsInaccessible := IsInaccessible x;
     IsMisconfigured := IsMisconfigured x; IsOutside := IsOutside x;
     IsRoot := IsRoot x; IsUnused := IsUnused x |}.
Definition set_HasMissingSC (v : bool) (x : t) : t :=
  {| Id := Id x; Parent := Parent x; NodeType := NodeType x;
     Namespace := Namespace x; Workload := Workload x; App := App x;
     Version := Version x; Service := Service x;
     DestServices := DestServices x; Rate := Rate x; Rate3xx := Rate3xx x;
     Rate4xx := Rate4xx x; Rate5xx := Rate5xx x; RateOut := RateOut x;
     RateTcpSent := RateTcpSent x; RateTcpSentOut := RateTcpSentOut x;
     HasCB := HasCB x; HasMissingSC := v; HasVS := HasVS x;
     IsDead := IsDead x; IsEgress := IsEgress x; IsGroup := IsGroup x;
     IsInaccessible := IsInaccessible x;
     IsMisconfigured := IsMisconfigured x; IsOutside := IsOutside x;
     IsRoot := IsRoot x; IsUnused := IsUnused x |}.
Definition set_HasVS (v : bool) (x : t) : t :=
  {| Id := Id x; Parent := Parent x; NodeType := NodeType x;
     Namespace := Namespace x; Workload := Workload x; App := App x;
     Version := Version x; Service := Service x;
     DestServices := DestServices x; Rate := Rate x; Rate3xx := Rate3xx x;
     Rate4xx := Rate4xx x; Rate5xx := Rate5xx x; RateOut := RateOut x;
     RateTcpSent := RateTcpSent x; RateTcpSentOut := RateTcpSentOut x;
     HasCB := HasCB x; HasMissingSC := HasMissingSC x; HasVS := v;
     IsDead := IsDead x; IsEgress := IsEgress x; IsGroup := IsGroup x;
     IsInaccessible := IsInaccessible x;
     IsMisconfigured := IsMisconfigured x; IsOutside := IsOutside x;
     IsRoot := IsRoot x; IsUnused := IsUnused x |}.
Definition set_IsDead (v : bool) (x : t) : t :=
  {| Id := Id x; Parent := Parent x; NodeType := NodeType x;
     Namespace := Namespace x; Workload := Workload x; App := App x;
     Version := Version x; Service := Service x;
     DestServices := DestServices x; Rate := Rate x; Rate3xx := Rate3xx x;
     Rate4xx := Rate4xx x; Rate5xx := Rate5xx x; RateOut := RateOut x;
     RateTcpSent := RateTcpSent x; RateTcpSentOut := RateTcpSentOut x;
     HasCB := HasCB x; HasMissingSC := HasMissingSC x; HasVS := HasVS x;
     IsDead := v; IsEgress := IsEgress x; IsGroup := IsGroup x;
     IsInaccessible := IsInaccessible x;
     IsMisconfigured := IsMisconfigured x; IsOutside := IsOutside x;
     IsRoot := IsRoot x; IsUnused := IsUnused x |}.
Definition set_IsEgress (v : bool) (x : t) : t :=
  {| Id := Id x; Parent := Parent x; NodeType := NodeType x;
     Namespace := Namespace x; Workload := Workload x; App := App x;
     Version := Version x; Service := Service x;
     DestServices := DestServices x; Rate := Rate x; Rate3xx := Rate3xx x;
     Rate4xx := Rate4xx x; Rate5xx := Rate5xx x; RateOut := RateOut x;
     RateTcpSent := RateTcpSent x; RateTcpSentOut := RateTcpSentOut x;
     HasCB := HasCB x; HasMissingSC := HasMissingSC x; HasVS := HasVS x;
     IsDead := IsDead x; IsEgress := v; IsGroup := IsGroup x;
     IsInaccessible := IsInaccessible x;
     IsMisconfigured := IsMisconfigured x; IsOutside := IsOutside x;
     IsRoot := IsRoot x; IsUnused := IsUnused x |}.
Definition set_IsInaccessible (v : bool) (x : t) : t :=
  {| Id := Id x; Parent := Parent x; NodeType := NodeType x;
     Namespace := Namespace x; Workload := Workload x; App := App x;
     Version := Version x; Service := Service x;
     DestServices := DestServices x; Rate := Rate x; Rate3xx := Rate3xx x;
     Rate4xx := Rate4xx x; Rate5xx := Rate5xx x; RateOut := RateOut x;
     RateTcpSent := RateTcpSent x; RateTcpSentOut := RateTcpSentOut x;
     HasCB := HasCB x; HasMissingSC := HasMissingSC x; HasVS := HasVS x;
     IsDead := IsDead x; IsEgress := IsEgress x; IsGroup := IsGroup x;
     IsInaccessible := v; IsMisconfigured := IsMisconfigured x;
     IsOutside := IsOutside x; IsRoot := IsRoot x; IsUnused := IsUnused x |}.
Definition set_IsMisconfigured (v : string) (x : t) : t :=
  {| Id := Id x; Parent := Parent x; NodeType := NodeType x;
     Namespace := Namespace x; Workload := Workload x; App := App x;
     Version := Version x; Service := Service x;
     DestServices := DestServices x; Rate := Rate x; Rate3xx := Rate3xx x;
     Rate4xx := Rate4xx x; Rate5xx := Rate5xx x; RateOut := RateOut x;
     RateTcpSent := RateTcpSent x; RateTcpSentOut := RateTcpSentOut x;
     HasCB := HasCB x; HasMissingSC := HasMissingSC x; HasVS := HasVS x;
     IsDead := IsDead x; IsEgress := IsEgress x; IsGroup := IsGroup x;
     IsInaccessible := IsInaccessible x; IsMisconfigured := v;
     IsOutside := IsOutside x; IsRoot := IsRoot x; IsUnused := IsUnused x |}.
Definition set_IsOutside (v : bool) (x : t) : t :=
  {| Id := Id x; Parent := Parent x; NodeType := NodeType x;
     Namespace := Namespace x; Workload := Workload x; App := App x;
     Version := Version x; Service := Service x;
     DestServices := DestServices x; Rate := Rate x; Rate3xx := Rate3xx x;
     Rate4xx := Rate4xx x; Rate5xx := Rate5xx x; RateOut := RateOut x;
     RateTcpSent := RateTcpSent x; RateTcpSentOut := RateTcpSentOut x;
     HasCB := HasCB x; HasMissingSC := HasMissingSC x; HasVS := HasVS x;
     IsDead := IsDead x; IsEgress := IsEgress x; IsGroup := IsGroup x;
     IsInaccessible := IsInaccessible x;
     IsMisconfigured := IsMisconfigured x; IsOutside := v;
     IsRoot := IsRoot x; IsUnused := IsUnused x |}.
Definition set_IsRoot (v : bool) (x : t) : t :=
  {| Id := Id x; Parent := Parent x; NodeType := NodeType x;
     Namespace := Namespace x; Workload := Workload x; App := App x;
     Version := Version x; Service := Service x;
     DestServices := DestServices x; Rate := Rate x; Rate3xx := Rate3xx x;
     Rate4xx := Rate4xx x; Rate5xx := Rate5xx x; RateOut := RateOut x;
     RateTcpSent := RateTcpSent x; RateTcpSentOut := RateTcpSentOut x;
     HasCB := HasCB x; HasMissingSC := HasMissingSC x; HasVS := HasVS x;
     IsDead := IsDead x; IsEgress := IsEgress x; IsGroup := IsGroup x;
     IsInaccessible := IsInaccessible x;
     IsMisconfigured := IsMisconfigured x; IsOutside := IsOutside x;
     IsRoot := v; IsUnused := IsUnused x |}.
Definition set_IsUnused (v : bool) (x : t) : t :=
  {| Id := Id x; Parent := Parent x; NodeType := NodeType x;
     Namespace := Namespace x; Workload := Workload x; App := App x;
     Version := Version x; Service := Service x;
     DestServices := DestServices x; Rate := Rate x; Rate3xx := Rate3xx x;
     Rate4xx := Rate4xx x; Rate5xx := Rate5xx x; RateOut := RateOut x;
     RateTcpSent := RateTcpSent x; RateTcpSentOut := RateTcpSentOut x;
     HasCB := HasCB x; HasMissingSC := HasMissingSC x; HasVS := HasVS x;
     IsDead := IsDead x; IsEgress := IsEgress x; IsGroup := IsGroup x;
     IsInaccessible := IsInaccessible x;
     IsMisconfigured := IsMisconfigured x; IsOutside := IsOutside x;
     IsRoot := IsRoot x; IsUnused := v |}.

End NodeData.

(** [EdgeData], likewise. *)
Module EdgeData.

Record t : Type := mk {
  Id : string;
  Source : string;
  Target : string;
  Rate : string;
  Rate3xx : string;
  Rate4xx : string;
  Rate5xx : string;
  PercentErr : string;
  PercentRate : string;
  ResponseTime : string;
  IsMTLS : bool;
  IsUnused : bool;
  TcpSentRate : string
}.

Definition set_Rate (v : string) (x : t) : t :=
  {| Id := Id x; Source := Source x; Target := Target x; Rate := v;
     Rate3xx := Rate3xx x; Rate4xx := Rate4xx x; Rate5xx := Rate5xx x;
     PercentErr := PercentErr x; PercentRate := PercentRate x;
     ResponseTime := ResponseTime x; IsMTLS := IsMTLS x;
     IsUnused := IsUnused x; TcpSentRate := TcpSentRate x |}.
Definition set_Rate3xx (v : string) (x : t) : t :=
  {| Id := Id x; Source := Source x; Target := Target x; Rate := Rate x;
     Rate3xx := v; Rate4xx := Rate4xx x; Rate5xx := Rate5xx x;
     PercentErr := PercentErr x; PercentRate := PercentRate x;
     ResponseTime := ResponseTime x; IsMTLS := IsMTLS x;
     IsUnused := IsUnused x; TcpSentRate := TcpSentRate x |}.
Definition set_Rate4xx (v : string) (x : t) : t :=
  {| Id := Id x; Source := Source x; Target := Target x; Rate := Rate x;
     Rate3xx := Rate3xx x; Rate4xx := v; Rate5xx := Rate5xx x;
     PercentErr := PercentErr x; PercentRate := PercentRate x;
     ResponseTime := ResponseTime x; IsMTLS := IsMTLS x;
     IsUnused := IsUnused x; TcpSentRate := TcpSentRate x |}.
Definition set_Rate5xx (v : string) (x : t) : t :=
  {| Id := Id x; Source := Source x; Target := Target x; Rate := Rate x;
     Rate3xx := Rate3xx x; Rate4xx := Rate4xx x; Rate5xx := v;
     PercentErr := PercentErr x; PercentRate := PercentRate x;
     ResponseTime := ResponseTime x; IsMTLS := IsMTLS x;
     IsUnused := IsUnused x; TcpSentRate := TcpSentRate x |}.
Definition set_PercentErr (v : string) (x : t) : t :=
  {| Id := Id x; Source := Source x; Target := Target x; Rate := Rate x;
     Rate3xx := Rate3xx x; Rate4xx := Rate4xx x; Rate5xx := Rate5xx x;
     PercentErr := v; PercentRate := PercentRate x;
     ResponseTime := ResponseTime x; IsMTLS := IsMTLS x;
     IsUnused := IsUnused x; TcpSentRate := TcpSentRate x |}.
Definition set_PercentRate (v : string) (x : t) : t :=
  {| Id := Id x; Source := Source x; Target := Target x; Rate := Rate x;
     Rate3xx := Rate3xx x; Rate4xx := Rate4xx x; Rate5xx := Rate5xx x;
     PercentErr := PercentErr x; PercentRate := v;
     ResponseTime := ResponseTime x; IsMTLS := IsMTLS x;
     IsUnused := IsUnused x; TcpSentRate := TcpSentRate x |}.
Definition set_ResponseTime (v : string) (x : t) : t :=
  {| Id := Id x; Source := Source x; Target := Target x; Rate := Rate x;
     Rate3xx := Rate3xx x; Rate4xx := Rate4xx x; Rate5xx := Rate5xx x;
     PercentErr := PercentErr x; PercentRate := PercentRate x;
     ResponseTime := v; IsMTLS := IsMTLS x; IsUnused := IsUnused x;
     TcpSentRate := TcpSentRate x |}.
Definition set_IsMTLS (v : bool) (x : t) : t :=
  {| Id := Id x; Source := Source x; Target := Target x; Rate := Rate x;
     Rate3xx := Rate3xx x; Rate4xx := Rate4xx x; Rate5xx := Rate5xx x;
     PercentErr := PercentErr x; PercentRate := PercentRate x;
     ResponseTime := ResponseTime x; IsMTLS := v; IsUnused := IsUnused x;
     TcpSentRate := TcpSentRate x |}.
Definition set_IsUnused (v : bool) (x : t) : t :=
  {| Id := Id x; Source := Source x; Target := Target x; Rate := Rate x;
     Rate3xx := Rate3xx x; Rate4xx := Rate4xx x; Rate5xx := Rate5xx x;
     PercentErr := PercentErr x; PercentRate := PercentRate x;
     ResponseTime := ResponseTime x; IsMTLS := IsMTLS x; IsUnused := v;
     TcpSentRate := TcpSentRate x |}.
Definition set_TcpSentRate (v : string) (x : t) : t :=
  {| Id := Id x; Source := Source x; Target := Target x; Rate := Rate x;
     Rate3xx := Rate3xx x; Rate4xx := Rate4xx x; Rate5xx := Rate5xx x;
     PercentErr := PercentErr x; PercentRate := PercentRate x;
     ResponseTime := ResponseTime x; IsMTLS := IsMTLS x;
     IsUnused := IsUnused x; TcpSentRate := v |}.

End EdgeData.

(** [NodeWrapper] and [EdgeWrapper] are structs of one field, [Data], a
    pointer to a [NodeData] or [EdgeData] that nothing else points to: a
    [[]*NodeWrapper] is a list of [NodeData.t], and a pointer into it is a
    position of the list. *)
Record Elements : Type := mkElements {
  Nodes : list NodeData.t;
  Edges : list EdgeData.t
}.

(** [Config_Elements] is the field [Elements] of [Config]. *)
Record Config : Type := mkConfig {
  Timestamp : Z;
  GraphType : string;
  Config_Elements : Elements
}.

(** *** Formatting

    [fmt.Sprintf("%.2f", x)]: the exact value of [x] rounded to two decimals,
    half to even. *)

Definition two_digits (n : Z) : string :=
  (if (n <? 10)%Z then "0" else "") +:+ pretty n.

Definition round_hundredths (m : positive) (e : Z) : Z :=
  (if 0 <=? e then Z.pos m * 100 * 2 ^ e
   else
     let d := 2 ^ (- e) in
     let q := (Z.pos m * 100) / d in
     let r := (Z.pos m * 100) mod d in
     if 2 * r <? d then q
     else if d <? 2 * r then q + 1
     else if Z.even q then q else q + 1)%Z.

Definition Sprintf_2f (x : float) : string :=
  match Prim2SF x with
  | S754_nan => "NaN"
  | S754_infinity false => "+Inf"
  | S754_infinity true => "-Inf"
  | S754_zero s => (if s then "-" else "") +:+ "0.00"
  | S754_finite s m e =>
      let n := round_hundredths m e in
      (if s then "-" else "") +:+ pretty (n / 100)%Z +:+ "."
      +:+ two_digits (n mod 100)%Z
  end.

(** *** Type assertions on metadata values *)

Definition conversion_panic (T : string) : string :=
  "interface conversion: interface {} is not " +:+ T.

Definition as_float64 (v : graph.value) : result float :=
  match v with
  | graph.VFloat f => Ok f
  | _ => Panic (conversion_panic "float64")
  end.

Definition as_bool (v : graph.value) : result bool :=
  match v with
  | graph.VBool b => Ok b
  | _ => Panic (conversion_panic "bool")
  end.

Definition as_string (v : graph.value) : result string :=
  match v with
  | graph.VString s => Ok s
  | _ => Panic (conversion_panic "string")
  end.

Definition as_bool_map (v : graph.value) : result (gmap string bool) :=
  match v with
  | graph.VBoolMap m => Ok m
  | _ => Panic (conversion_panic "map[string]bool")
  end.

Definition getRate (md : gmap string graph.value) (k : string) : result float :=
  match md !! k with
  | Some rate => as_float64 rate
  | None => Ok 0%float
  end.

Definition addNodeTelemetry (s : graph.Node) (nd : NodeData.t) : result NodeData.t :=
  rate ← getRate (graph.Metadata s) "rate";
  nd ← (if (0 <? rate)%float then
          let nd := NodeData.set_Rate (Sprintf_2f rate) nd in
          rate3xx ← getRate (graph.Metadata s) "rate3xx";
          rate4xx ← getRate (graph.Metadata s) "rate4xx";
          rate5xx ← getRate (graph.Metadata s) "rate5xx";
          let nd := if (0 <? rate3xx)%float
                    then NodeData.set_Rate3xx (Sprintf_2f rate3xx) nd else nd in
          let nd := if (0 <? rate4xx)%float
                    then NodeData.set_Rate4xx (Sprintf_2f rate4xx) nd else nd in
          let nd := if (0 <? rate5xx)%float
                    then NodeData.set_Rate5xx (Sprintf_2f rate5xx) nd else nd in
          Ok nd
        else Ok nd);
  rateOut ← getRate (graph.Metadata s) "rateOut";
  let nd := if (0 <? rateOut)%float
            then NodeData.set_RateOut (Sprintf_2f rateOut) nd else nd in
  tcpSent ← getRate (graph.Metadata s) "tcpSentRate";
  tcpSentOut ← getRate (graph.Metadata s) "tcpSentRateOut";
  let nd := if (0 <? tcpSent)%float
            then NodeData.set_RateTcpSent (Sprintf_2f tcpSent) nd else nd in
  let nd := if (0 <? tcpSentOut)%float
            then NodeData.set_RateTcpSentOut (Sprintf_2f tcpSentOut) nd else nd in
  Ok nd.

(** [if val, ok := md[k]; ok { field = val.(T) }]. *)
Definition assign_if_present {A X : Type} (md : gmap string graph.value)
    (k : string) (cast : graph.value -> result A) (set : A -> X -> X)
    (x : X) : result X :=
  match md !! k with
  | Some val => v ← cast val; Ok (set v x)
  | None => Ok x
  end.

Definition addEdgeTelemetry (st : graph.Store) (ed : EdgeData.t)
    (e : graph.Edge) (o : options.VendorOptions) : result EdgeData.t :=
  rate ← getRate (graph.EdgeMetadata e) "rate";
  ed ← (if (0 <? rate)%float then
          rate3xx ← getRate (graph.EdgeMetadata e) "rate3xx";
          rate4xx ← getRate (graph.EdgeMetadata e) "rate4xx";
          rate5xx ← getRate (graph.EdgeMetadata e) "rate5xx";
          let rateErr := (rate4xx + rate5xx)%float in
          let percentErr := (rateErr / rate * 100)%float in
          let ed := EdgeData.set_Rate (Sprintf_2f rate) ed in
          let ed := if (0 <? rate3xx)%float
                    then EdgeData.set_Rate3xx (Sprintf_2f rate3xx) ed else ed in
          let ed := if (0 <? rate4xx)%float
                    then EdgeData.set_Rate4xx (Sprintf_2f rate4xx) ed else ed in
          let ed := if (0 <? rate5xx)%float
                    then EdgeData.set_Rate5xx (Sprintf_2f rate5xx) ed else ed in
          let ed := if (0 <? percentErr)%float
                    then EdgeData.set_PercentErr (Sprintf_2f percentErr) ed else ed in
          ed ← assign_if_present (graph.EdgeMetadata e) "responseTime"
                 as_float64 (fun rt => EdgeData.set_ResponseTime (Sprintf_2f rt)) ed;
          source ← graph.load_node st (graph.Source e);
          rateOut ← getRate (graph.Metadata source) "rateOut";
          let percentRate := (rate / rateOut * 100)%float in
          let ed := if (percentRate <? 100)%float
                    then EdgeData.set_PercentRate (Sprintf_2f percentRate) ed else ed in
          Ok ed
        else
          source ← graph.load_node st (graph.Source e);
          assign_if_present (graph.Metadata source) "isUnused"
            as_bool EdgeData.set_IsUnused ed);
  ed ← assign_if_present (graph.EdgeMetadata e) "isMTLS"
         as_bool EdgeData.set_IsMTLS ed;
  tcpSentRate ← getRate (graph.EdgeMetadata e) "tcpSentRate";
  let ed := if (0 <? tcpSentRate)%float
            then EdgeData.set_TcpSentRate (Sprintf_2f tcpSentRate) ed else ed in
  Ok ed.

Section hashing.

(** [md5hex s] stands for [fmt.Sprintf("%x", md5.Sum([]byte(s)))]. *)
Variable md5hex : string -> string.

Definition nodeHash (id : string) : string := md5hex id.

Definition edgeHash (from to protocol : string) : string :=
  md5hex (from +:+ "." +:+ to +:+ "." +:+ protocol).

(** The composite literal [&NodeData{Id: ..., NodeType: ..., ...}]: the
    fields not named hold their zero value. *)
Definition newNodeData (id nodeType namespace workload app version service : string)
    : NodeData.t :=
  {| NodeData.Id := id; NodeData.Parent := ""; NodeData.NodeType := nodeType;
     NodeData.Namespace := namespace; NodeData.Workload := workload;
     NodeData.App := app; NodeData.Version := version;
     NodeData.Service := service; NodeData.DestServices := ∅;
     NodeData.Rate := ""; NodeData.Rate3xx := ""; NodeData.Rate4xx := "";
     NodeData.Rate5xx := ""; NodeData.RateOut := ""; NodeData.RateTcpSent := "";
     NodeData.RateTcpSentOut := ""; NodeData.HasCB := false;
     NodeData.HasMissingSC := false; NodeData.HasVS := false;
     NodeData.IsDead := false; NodeData.IsEgress := false; NodeData.IsGroup := "";
     NodeData.IsInaccessible := false; NodeData.IsMisconfigured := "";
     NodeData.IsOutside := false; NodeData.IsRoot := false;
     NodeData.IsUnused := false |}.

Definition newEdgeData (id source target : string) : EdgeData.t :=
  {| EdgeData.Id := id; EdgeData.Source := source; EdgeData.Target := target;
     EdgeData.Rate := ""; EdgeData.Rate3xx := ""; EdgeData.Rate4xx := "";
     EdgeData.Rate5xx := ""; EdgeData.PercentErr := ""; EdgeData.PercentRate := "";
     EdgeData.ResponseTime := ""; EdgeData.IsMTLS := false;
     EdgeData.IsUnused := false; EdgeData.TcpSentRate := "" |}.

(** The body of the loop of [buildConfig] over [n.Edges]. *)
Definition buildConfig_edge (st : graph.Store) (o : options.VendorOptions)
    (n : graph.Node) (pe : graph.ptr) : result EdgeData.t :=
  e ← graph.load_edge st pe;
  let sourceIdHash := nodeHash (graph.ID n) in
  dest ← graph.load_node st (graph.Dest e);
  let destIdHash := nodeHash (graph.ID dest) in
  protocol ← match graph.EdgeMetadata e !! "protocol" with
             | None | Some graph.VNil => Ok ""
             | Some v => as_string v
             end;
  let edgeId := edgeHash sourceIdHash destIdHash protocol in
  let ed := newEdgeData edgeId sourceIdHash destIdHash in
  addEdgeTelemetry st ed e o.

(** [mapM] over a list, left to right, stopping at the first panic. *)
Fixpoint mapM_result {A B : Type} (f : A -> result B) (l : list A) : result (list B) :=
  match l with
  | [] => Ok []
  | a :: l => b ← f a; bs ← mapM_result f l; Ok (b :: bs)
  end.

(** The part of the body of the loop of [buildConfig] that builds the
    [NodeData] of the entry [(id, n)] of the traffic map. *)
Definition buildConfig_node (id : string) (n : graph.Node) : result NodeData.t :=
  let nodeId := nodeHash id in
  let nd := newNodeData nodeId (graph.NodeType n) (graph.Namespace n)
              (graph.Workload n) (graph.App n) (graph.Version n)
              (graph.Service n) in
  let md := graph.Metadata n in
  nd ← addNodeTelemetry n nd;
  nd ← assign_if_present md "isDead" as_bool NodeData.set_IsDead nd;
  nd ← assign_if_present md "isRoot" as_bool NodeData.set_IsRoot nd;
  nd ← assign_if_present md "isUnused" as_bool NodeData.set_IsUnused nd;
  nd ← assign_if_present md "isInaccessible" as_bool NodeData.set_IsInaccessible nd;
  nd ← assign_if_present md "hasCB" as_bool NodeData.set_HasCB nd;
  nd ← assign_if_present md "hasVS" as_bool NodeData.set_HasVS nd;
  nd ← assign_if_present md "hasMissingSC" as_bool NodeData.set_HasMissingSC nd;
  nd ← assign_if_present md "isMisconfigured" as_string NodeData.set_IsMisconfigured nd;
  nd ← assign_if_present md "isOutside" as_bool NodeData.set_IsOutside nd;
  nd ← assign_if_present md "destServices" as_bool_map NodeData.set_DestServices nd;
  assign_if_present md "isEgress" as_bool NodeData.set_IsEgress nd.

(** One round of the loop of [buildConfig]: the node of the entry and the
    edges leaving it, in the order of [n.Edges]. *)
Definition buildConfig_entry (st : graph.Store) (o : options.VendorOptions)
    (entry : string * graph.ptr) : result (NodeData.t * list EdgeData.t) :=
  n ← graph.load_node st entry.2;
  nd ← buildConfig_node entry.1 n;
  eds ← mapM_result (buildConfig_edge st o n) (graph.Edges n);
  Ok (nd, eds).

(** [buildConfig], the entries of the traffic map visited in the order
    [entries]. *)
Fixpoint buildConfig (st : graph.Store) (entries : list (string * graph.ptr))
    (nodes : list NodeData.t) (edges : list EdgeData.t)
    (o : options.VendorOptions) : result (list NodeData.t * list EdgeData.t) :=
  match entries with
  | [] => Ok (nodes, edges)
  | entry :: entries =>
      '(nd, eds) ← buildConfig_entry st o entry;
      buildConfig st entries (nodes ++ [nd]) (edges ++ eds) o
  end.

(** *** Compound nodes

    [groupByVersion] works on [*NodeData] pointers: a member of a group is
    the position of its node in [nodes], and assigning through the pointer
    updates the list at that position. *)

Definition box_key (nd : NodeData.t) : string :=
  "box_" +:+ NodeData.Namespace nd +:+ "_" +:+ NodeData.App nd.

(** The first loop: [grouped[k] = append(grouped[k], nw.Data)] for the
    app nodes, [i] being the position of the head of [nodes]. *)
Fixpoint grouping (i : nat) (nodes : list NodeData.t)
    (grouped : gmap string (list nat)) : gmap string (list nat) :=
  match nodes with
  | [] => grouped
  | nd :: nodes =>
      grouping (S i) nodes
        (if String.eqb (NodeData.NodeType nd) graph.NodeTypeApp
         then let k := box_key nd in
              <[k := default [] (grouped !! k) ++ [i]]> grouped
         else grouped)
  end.

Definition newCompound (nodeId : string) (m0 : NodeData.t) : NodeData.t :=
  {| NodeData.Id := nodeId; NodeData.Parent := "";
     NodeData.NodeType := graph.NodeTypeApp;
     NodeData.Namespace := NodeData.Namespace m0; NodeData.Workload := "";
     NodeData.App := NodeData.App m0; NodeData.Version := "";
     NodeData.Service := ""; NodeData.DestServices := ∅;
     NodeData.Rate := ""; NodeData.Rate3xx := ""; NodeData.Rate4xx := "";
     NodeData.Rate5xx := ""; NodeData.RateOut := ""; NodeData.RateTcpSent := "";
     NodeData.RateTcpSentOut := ""; NodeData.HasCB := false;
     NodeData.HasMissingSC := false; NodeData.HasVS := false;
     NodeData.IsDead := false; NodeData.IsEgress := false;
     NodeData.IsGroup := options.GroupByVersion;
     NodeData.IsInaccessible := false; NodeData.IsMisconfigured := "";
     NodeData.IsOutside := false; NodeData.IsRoot := false;
     NodeData.IsUnused := false |}.

(** The body of [for _, n := range members]: [nodes] is the list being
    updated, [nd] the compound node. *)
Definition assign_member (nodeId : string)
    (acc : list NodeData.t * NodeData.t) (i : nat) : list NodeData.t * NodeData.t :=
  let '(nodes, nd) := acc in
  match nodes !! i with
  | Some n =>
      let n := NodeData.set_Parent nodeId n in
      let nd := NodeData.set_HasMissingSC
                  (NodeData.HasMissingSC nd || NodeData.HasMissingSC n) nd in
      let nd := NodeData.set_IsInaccessible
                  (NodeData.IsInaccessible nd || NodeData.IsInaccessible n) nd in
      let nd := NodeData.set_IsOutside
                  (NodeData.IsOutside nd || NodeData.IsOutside n) nd in
      (<[i := n]> nodes, nd)
  | None => (nodes, nd)
  end.

(** The body of [for k, members := range grouped]. *)
Definition group_round (nodes : list NodeData.t) (k : string)
    (members : list nat) : list NodeData.t :=
  if (1 <? length members)%nat then
    match head members ≫= (nodes !!.) with
    | Some m0 =>
        let nodeId := nodeHash k in
        let nd := newCompound nodeId m0 in
        let nd := NodeData.set_HasMissingSC false nd in
        let nd := NodeData.set_IsInaccessible false nd in
        let nd := NodeData.set_IsOutside false nd in
        let '(nodes, nd) := foldl (assign_member nodeId) (nodes, nd) members in
        nodes ++ [nd]
    | None => nodes
    end
  else nodes.

Fixpoint group_rounds (grouped : gmap string (list nat)) (order : list string)
    (nodes : list NodeData.t) : list NodeData.t :=
  match order with
  | [] => nodes
  | k :: order =>
      group_rounds grouped order
        (group_round nodes k (default [] (grouped !! k)))
  end.

(** [groupByVersion], the keys of [grouped] visited in the order [order]. *)
Definition groupByVersion (order : list string) (nodes : list NodeData.t)
    : list NodeData.t :=
  group_rounds (grouping 0 nodes ∅) order nodes.

(** [order] is an order in which Go may range over [grouped]: every key
    once. *)
Definition iteration_order {V : Type} (m : gmap string V) (order : list string) : Prop :=
  order ≡ₚ (map_to_list m).*1.

(** *** Sorting *)

(** The [less] function of the sort of the nodes. *)
Definition node_less (a b : NodeData.t) : bool :=
  if negb (String.eqb (NodeData.Namespace a) (NodeData.Namespace b))
  then String.ltb (NodeData.Namespace a) (NodeData.Namespace b)
  else if negb (String.eqb (NodeData.IsGroup a) (NodeData.IsGroup b))
  then String.ltb (NodeData.IsGroup b) (NodeData.IsGroup a)
  else if negb (String.eqb (NodeData.App a) (NodeData.App b))
  then String.ltb (NodeData.App a) (NodeData.App b)
  else if negb (String.eqb (NodeData.Version a) (NodeData.Version b))
  then String.ltb (NodeData.Version a) (NodeData.Version b)
  else if negb (String.eqb (NodeData.Service a) (NodeData.Service b))
  then String.ltb (NodeData.Service a) (NodeData.Service b)
  else String.ltb (NodeData.Workload a) (NodeData.Workload b).

(** The [less] function of the sort of the edges. *)
Definition edge_less (a b : EdgeData.t) : bool :=
  if String.ltb (EdgeData.Source a) (EdgeData.Source b) then true
  else if String.ltb (EdgeData.Source b) (EdgeData.Source a) then false
  else String.ltb (EdgeData.Target a) (EdgeData.Target b).

(** No element is less than one that comes before it. *)
Definition sorted_by {A : Type} (less : A -> A -> bool) (l : list A) : Prop :=
  StronglySorted (fun a b => less b a = false) l.

(** [sort.Slice(l, less)] leaves in place of [l] a sorted permutation of it;
    the sort is not stable, so elements that compare equal may come out in
    any order. *)
Definition sort_Slice {A : Type} (less : A -> A -> bool) (l l' : list A) : Prop :=
  l' ≡ₚ l ∧ sorted_by less l'.

(** Insertion from the left, after the elements that are not greater: a
    sort that [sort.Slice] may be. *)
Fixpoint insert_sorted {A : Type} (less : A -> A -> bool) (x : A) (l : list A) : list A :=
  match l with
  | [] => [x]
  | y :: l' => if less x y then x :: l else y :: insert_sorted less x l'
  end.

Definition insertion_sort {A : Type} (less : A -> A -> bool) (l : list A) : list A :=
  foldl (fun acc x => insert_sorted less x acc) [] l.

(** *** NewConfig *)

(** The second step of [NewConfig]: compound nodes are added for a
    versioned app graph grouped by version. *)
Definition add_compounds (o : options.VendorOptions) (order : list string)
    (nodes : list NodeData.t) : list NodeData.t :=
  if String.eqb (options.GraphType o) graph.GraphTypeVersionedApp
     && String.eqb (options.GroupBy o) options.GroupByVersion
  then groupByVersion order nodes else nodes.

(** The steps of [NewConfig] up to the sorts, the traffic map ranged over
    in the order [entries] and [grouped] in the order [order]. *)
Definition NewConfig_unsorted (st : graph.Store)
    (entries : list (string * graph.ptr)) (order : list string)
    (o : options.VendorOptions) : result (list NodeData.t * list EdgeData.t) :=
  '(nodes, edges) ← buildConfig st entries [] [] o;
  Ok (add_compounds o order nodes, edges).

(** [NewConfig trafficMap o] may return [result]: the two maps are ranged
    over in some order, and each sort leaves some sorted permutation. *)
Definition NewConfig_rel (st : graph.Store) (trafficMap : graph.TrafficMap)
    (o : options.VendorOptions) (result : Config) : Prop :=
  ∃ entries order nodes edges,
    entries ≡ₚ map_to_list trafficMap ∧
    buildConfig st entries [] [] o = Ok (nodes, edges) ∧
    iteration_order (grouping 0 nodes ∅) order ∧
    sort_Slice node_less (add_compounds o order nodes)
      (Nodes (Config_Elements result)) ∧
    sort_Slice edge_less edges (Edges (Config_Elements result)) ∧
    Timestamp result = options.Timestamp o ∧
    GraphType result = options.GraphType o.

(** [NewConfig] with the maps ranged over in the given orders and an
    insertion sort for [sort.Slice]. *)
Definition NewConfig (st : graph.Store) (entries : list (string * graph.ptr))
    (order : list string) (o : options.VendorOptions) : result Config :=
  '(nodes, edges) ← NewConfig_unsorted st entries order o;
  let elements := {| Nodes := insertion_sort node_less nodes;
                     Edges := insertion_sort edge_less edges |} in
  Ok {| Timestamp := options.Timestamp o;
        GraphType := options.GraphType o;
        Config_Elements := elements |}.

End hashing.

End cytoscape.

(** * Notions of the specification *)

Local Open Scope nat_scope.

(** The two sentinel rules of [Id], as its first two tests read. *)
Definition unknown_source_rule (namespace workload app service : string) : bool :=
  String.eqb graph.UnknownNamespace namespace
  && String.eqb graph.UnknownWorkload workload
  && String.eqb graph.UnknownApp app && String.eqb "" service.

Definition unknown_service_rule (workload app service : string) : bool :=
  String.eqb graph.UnknownWorkload workload && String.eqb graph.UnknownApp app
  && String.eqb graph.UnknownService service.

Definition workload_graph (graphType : string) : bool :=
  String.eqb graphType graph.GraphTypeWorkload
  || String.eqb graphType graph.GraphTypeService.


(** ** Compound grouping *)

Local Abbreviation NodeData := cytoscape.NodeData.t.
Local Abbreviation set_Parent := cytoscape.NodeData.set_Parent.
Local Abbreviation HasMissingSC := cytoscape.NodeData.HasMissingSC.
Local Abbreviation IsInaccessible := cytoscape.NodeData.IsInaccessible.
Local Abbreviation IsOutside := cytoscape.NodeData.IsOutside.

(** The nodes of the group of key [k]: the app nodes whose key is [k]. *)
Definition is_member (k : string) (nd : NodeData) : bool :=
  String.eqb (cytoscape.NodeData.NodeType nd) graph.NodeTypeApp
  && String.eqb (cytoscape.box_key nd) k.

Definition group (nodes : list NodeData) (k : string) : list NodeData :=
  filter (λ nd, is_member k nd = true) nodes.

(** The versions among the members of a group. *)
Definition distinct_versions (nodes : list NodeData) (k : string) : list string :=
  remove_dups (cytoscape.NodeData.Version <$> group nodes k).

(** The positions, counted from [i], of the elements of a list that
    satisfy [P]. *)
Fixpoint positions {A : Type} (P : A → bool) (i : nat) (l : list A) : list nat :=
  match l with
  | [] => []
  | x :: l => (if P x then [i] else []) ++ positions P (S i) l
  end.

(** The three flags of a compound node, each joined with a flag of a
    member. *)
Definition add_flags (b1 b2 b3 : bool) (nd : NodeData) : NodeData :=
  cytoscape.NodeData.set_IsOutside (IsOutside nd || b3)
    (cytoscape.NodeData.set_IsInaccessible (IsInaccessible nd || b2)
       (cytoscape.NodeData.set_HasMissingSC (HasMissingSC nd || b1) nd)).

(** The compound node of the members [ms], the first of which is [m0]. *)
Definition compound (nodeId : string) (ms : list NodeData) (m0 : NodeData) : NodeData :=
  add_flags (existsb HasMissingSC ms) (existsb IsInaccessible ms)
    (existsb IsOutside ms)
    (cytoscape.NodeData.set_IsOutside false
       (cytoscape.NodeData.set_IsInaccessible false
          (cytoscape.NodeData.set_HasMissingSC false
             (cytoscape.newCompound nodeId m0)))).

(** The list [cur] with the parent of the nodes at [members] set. *)
Definition set_parents (nodeId : string) (members : list nat)
    (cur : list NodeData) : list NodeData :=
  imap (λ j n, if bool_decide (j ∈ members) then set_Parent nodeId n else n) cur.

Definition flag_at (F : NodeData → bool) (cur : list NodeData) (i : nat) : bool :=
  from_option F false (cur !! i).

Section closed_form.

Variable md5hex : string → string.

Implicit Types (nodes : list NodeData) (k : string) (n : NodeData).

(** The compound node of the group of [k], when the group has more than one
    member. *)
Definition compound_of nodes k : option NodeData :=
  match group nodes k with
  | m0 :: _ :: _ => Some (compound (cytoscape.nodeHash md5hex k) (group nodes k) m0)
  | _ => None
  end.

(** A node after the rounds of the keys [order]: a member of a group of
    more than one node, whose key has come, has the compound as parent. *)
Definition reparent (order : list string) nodes n : NodeData :=
  if String.eqb (cytoscape.NodeData.NodeType n) graph.NodeTypeApp
     && bool_decide (cytoscape.box_key n ∈ order)
     && (1 <? length (group nodes (cytoscape.box_key n)))
  then set_Parent (cytoscape.nodeHash md5hex (cytoscape.box_key n)) n
  else n.

(** The nodes after [groupByVersion]. *)
Definition grouped_nodes (order : list string) nodes : list NodeData :=
  (reparent order nodes <$> nodes) ++ omap (compound_of nodes) order.

End closed_form.

(** ** Determinism *)

(** The two arrays of a document. *)
Definition node_array (r : cytoscape.Config) : list NodeData :=
  cytoscape.Nodes (cytoscape.Config_Elements r).

Definition edge_array (r : cytoscape.Config) : list cytoscape.EdgeData.t :=
  cytoscape.Edges (cytoscape.Config_Elements r).


(** App nodes with the same compound key have the same namespace and app. *)
Definition key_injective (nodes : list NodeData) : Prop :=
  ∀ a b, a ∈ nodes → b ∈ nodes →
    cytoscape.NodeData.NodeType a = graph.NodeTypeApp →
    cytoscape.NodeData.NodeType b = graph.NodeTypeApp →
    cytoscape.box_key a = cytoscape.box_key b →
    cytoscape.NodeData.Namespace a = cytoscape.NodeData.Namespace b
    ∧ cytoscape.NodeData.App a = cytoscape.NodeData.App b.

(** Compound nodes are added for these options. *)
Definition grouping_enabled (o : options.VendorOptions) : bool :=
  String.eqb (options.GraphType o) graph.GraphTypeVersionedApp
  && String.eqb (options.GroupBy o) options.GroupByVersion.

(** One level of a lexicographic order on strings: the strings decide when
    they differ, the next level when they are equal. *)
Definition lex_step (x y : string) (next : bool) : bool :=
  if negb (String.eqb x y) then String.ltb x y else next.

(** A Kubernetes namespace is a DNS label: it holds no underscore. *)
Fixpoint no_underscore (s : string) : bool :=
  match s with
  | EmptyString => true
  | String c s' => negb (Ascii.eqb c "_") && no_underscore s'
  end.

(** ** Identity of the nodes that [NewNode] builds *)

(** The identifier read back from the fields that the trimming keeps. *)
Definition node_id (n : graph.Node) (graphType : string) : string :=
  if String.eqb (graph.NodeType n) graph.NodeTypeUnknown then "unknown_source"
  else if String.eqb (graph.NodeType n) graph.NodeTypeService
  then "svc_" +:+ graph.Namespace n +:+ "_" +:+ graph.Service n
  else if String.eqb (graph.NodeType n) graph.NodeTypeWorkload
  then "wl_" +:+ graph.Namespace n +:+ "_" +:+ graph.Workload n
  else if String.eqb graphType graph.GraphTypeVersionedApp
  then "vapp_" +:+ graph.Namespace n +:+ "_" +:+ graph.Workload n
  else "app_" +:+ graph.Namespace n +:+ "_" +:+ graph.App n.

(** The field that names a node within its namespace. *)
Definition node_name (n : graph.Node) (graphType : string) : string :=
  if String.eqb (graph.NodeType n) graph.NodeTypeService then graph.Service n
  else if String.eqb (graph.NodeType n) graph.NodeTypeWorkload then graph.Workload n
  else if String.eqb (graph.NodeType n) graph.NodeTypeApp
  then if String.eqb graphType graph.GraphTypeVersionedApp
       then graph.Workload n else graph.App n
  else "".

(** [AddEdge] from [s] to each of [dests] in turn. *)
Fixpoint AddEdges (s : graph.ptr) (dests : list graph.ptr) (st : graph.Store)
    : result (list graph.ptr * graph.Store) :=
  match dests with
  | [] => Ok ([], st)
  | dest :: dests =>
      '(pe, st) ← graph.AddEdge s dest st;
      '(pes, st) ← AddEdges s dests st;
      Ok (pe :: pes, st)
  end.

(** Every edge listed on a node is allocated and has that node as source. *)
Definition edges_owned (st : graph.Store) : Prop :=
  ∀ a n pe, graph.nodes st !! a = Some n → pe ∈ graph.Edges n →
    ∃ e, graph.load_edge st pe = Ok e ∧ graph.Source e = Some a.

(** ** The selection of the appenders *)

Section selection.

Variables DeadNodeAppenderName ResponseTimeAppenderName
  SecurityPolicyAppenderName UnusedNodeAppenderName IstioAppenderName
  SidecarsCheckAppenderName : string.
Variable ToLower : string → string.

(** The name of a stage in the appender package, and the name the resolver
    accepts beside it. *)
Definition stage_name (k : appender.Kind) : string :=
  match k with
  | appender.DeadNode => DeadNodeAppenderName
  | appender.ResponseTime => ResponseTimeAppenderName
  | appender.SecurityPolicy => SecurityPolicyAppenderName
  | appender.UnusedNode => UnusedNodeAppenderName
  | appender.Istio => IstioAppenderName
  | appender.SidecarsCheck => SidecarsCheckAppenderName
  end.

Definition stage_alias (k : appender.Kind) : string :=
  match k with
  | appender.DeadNode => "dead_node"
  | appender.ResponseTime => "response_time"
  | appender.SecurityPolicy => "security_policy"
  | appender.UnusedNode => "unused_node"
  | appender.Istio => "istio"
  | appender.SidecarsCheck => "sidecars_check"
  end.

(** The filter of a request: the lowered [appenders] parameter, or [_all_]
    when the request has none. *)
Definition requested_stages (params : options.Values) : string :=
  if params !! "appenders" is Some _
  then ToLower (options.Get params "appenders")
  else options.AppenderAll.

Definition selected (csl : string) (k : appender.Kind) : bool :=
  String.eqb csl options.AppenderAll
  || options.Contains csl (stage_name k)
  || options.Contains csl (stage_alias k).

End selection.

(** ** The namespaces of a request *)

(** The names of the namespaces the business layer lists. *)
Definition accessible (namespaces : list models.Namespace) (ns : string) : Prop :=
  ns ∈ models.Name <$> namespaces.

(** The request asks for all namespaces. *)
Definition fetch_all_requested (vars : gmap string string)
    (params : options.Values) : bool :=
  String.eqb (options.Get params "namespaces") options.NamespaceAll
  || (String.eqb (options.Get params "namespaces") ""
      && String.eqb (options.Var vars "namespace") options.NamespaceAll).

(** The namespaces a request asks for, among the ones listed. *)
Definition requested (namespaces : list models.Namespace)
    (vars : gmap string string) (params : options.Values) (ns : string) : Prop :=
  if fetch_all_requested vars params
  then accessible namespaces ns ∧ ns ≠ options.NamespaceIstioSystem
  else if negb (String.eqb (options.Get params "namespaces") "")
  then ns ∈ options.Split (options.Get params "namespaces") ","
  else ns = options.Var vars "namespace" ∧ ns ≠ "".

(** The request names a namespace that is not listed. *)
Definition names_inaccessible (namespaces : list models.Namespace)
    (vars : gmap string string) (params : options.Values) : Prop :=
  fetch_all_requested vars params = false
  ∧ ∃ ns, ¬ accessible namespaces ns
          ∧ if negb (String.eqb (options.Get params "namespaces") "")
            then ns ∈ options.Split (options.Get params "namespaces") ","
            else ns = options.Var vars "namespace" ∧ ns ≠ "".

(** An appender carries the settings of the options. *)
Definition configured_from (o : options.Options) (a : appender.Appender) : Prop :=
  match a with
  | appender.ResponseTimeAppender _ graphType injectServiceNodes includeIstio
      namespaces queryTime =>
      graphType = options.GraphType (options.vendorOptions o)
      ∧ injectServiceNodes = options.InjectServiceNodes o
      ∧ includeIstio = options.IncludeIstio o
      ∧ namespaces = options.Namespaces o
      ∧ queryTime = options.QueryTime o
  | appender.SecurityPolicyAppender graphType includeIstio namespaces queryTime =>
      graphType = options.GraphType (options.vendorOptions o)
      ∧ includeIstio = options.IncludeIstio o
      ∧ namespaces = options.Namespaces o
      ∧ queryTime = options.QueryTime o
  | appender.UnusedNodeAppender graphType _ =>
      graphType = options.GraphType (options.vendorOptions o)
  | _ => True
  end.

(** ** The serialized document *)

(** The fields of a serialized node that its telemetry and its flags leave
    alone. *)
Definition identity (nd : NodeData)
    : string * string * string * string * string * string * string * string
      * string :=
  (cytoscape.NodeData.Id nd, cytoscape.NodeData.Parent nd,
   cytoscape.NodeData.NodeType nd, cytoscape.NodeData.Namespace nd,
   cytoscape.NodeData.Workload nd, cytoscape.NodeData.App nd,
   cytoscape.NodeData.Version nd, cytoscape.NodeData.Service nd,
   cytoscape.NodeData.IsGroup nd).

(** The HTTP rates of a serialized node. *)
Definition http_rates (nd : NodeData) : string * string * string * string :=
  (cytoscape.NodeData.Rate nd, cytoscape.NodeData.Rate3xx nd,
   cytoscape.NodeData.Rate4xx nd, cytoscape.NodeData.Rate5xx nd).

(** The ends of a serialized edge. *)
Definition ends (ed : cytoscape.EdgeData.t) : string * string * string :=
  (cytoscape.EdgeData.Id ed, cytoscape.EdgeData.Source ed,
   cytoscape.EdgeData.Target ed).

(** The traffic map is keyed by the identifiers of its nodes. *)
Definition keyed_by_ID (st : graph.Store) (trafficMap : gmap string graph.ptr) : Prop :=
  ∀ id p n, trafficMap !! id = Some p → graph.load_node st p = Ok n →
    graph.ID n = id.

(** The destination of every edge of a node of the traffic map is a node
    of the traffic map. *)
Definition closed (st : graph.Store) (trafficMap : gmap string graph.ptr) : Prop :=
  ∀ id p n pe e dest,
    trafficMap !! id = Some p → graph.load_node st p = Ok n →
    pe ∈ graph.Edges n → graph.load_edge st pe = Ok e →
    graph.load_node st (graph.Dest e) = Ok dest →
    is_Some (trafficMap !! graph.ID dest).

(** The keys of a less function: records that agree on them are not
    separated by it. *)
Definition node_keys (nd : NodeData)
    : string * string * string * string * string * string :=
  (cytoscape.NodeData.Namespace nd, cytoscape.NodeData.IsGroup nd,
   cytoscape.NodeData.App nd, cytoscape.NodeData.Version nd,
   cytoscape.NodeData.Service nd, cytoscape.NodeData.Workload nd).

Definition edge_keys (ed : cytoscape.EdgeData.t) : string * string :=
  (cytoscape.EdgeData.Source ed, cytoscape.EdgeData.Target ed).

(** The HTTP telemetry of a serialized edge, its rate apart. *)
Definition http_telemetry (ed : cytoscape.EdgeData.t)
    : string * string * string * string * string * string :=
  (cytoscape.EdgeData.Rate3xx ed, cytoscape.EdgeData.Rate4xx ed,
   cytoscape.EdgeData.Rate5xx ed, cytoscape.EdgeData.PercentErr ed,
   cytoscape.EdgeData.PercentRate ed, cytoscape.EdgeData.ResponseTime ed).

(** ** Metadata of the expected types *)

Definition is_float (v : graph.value) : bool :=
  match v with graph.VFloat _ => true | _ => false end.
Definition is_bool (v : graph.value) : bool :=
  match v with graph.VBool _ => true | _ => false end.
Definition is_string (v : graph.value) : bool :=
  match v with graph.VString _ => true | _ => false end.
Definition is_string_or_nil (v : graph.value) : bool :=
  match v with graph.VString _ | graph.VNil => true | _ => false end.
Definition is_bool_map (v : graph.value) : bool :=
  match v with graph.VBoolMap _ => true | _ => false end.

(** The value of the key [k], when there is one, has the type [T]. *)
Definition typed (T : graph.value → bool) (md : gmap string graph.value)
    (k : string) : Prop :=
  ∀ v, md !! k = Some v → T v = true.

(** The metadata of a node, as the serializer reads them. *)
Definition node_metadata_typed (md : gmap string graph.value) : Prop :=
  Forall (typed is_float md)
    ["rate"; "rate3xx"; "rate4xx"; "rate5xx"; "rateOut"; "tcpSentRate";
     "tcpSentRateOut"]
  ∧ Forall (typed is_bool md)
      ["isDead"; "isRoot"; "isUnused"; "isInaccessible"; "hasCB"; "hasVS";
       "hasMissingSC"; "isOutside"; "isEgress"]
  ∧ typed is_string md "isMisconfigured"
  ∧ typed is_bool_map md "destServices".

(** The metadata of an edge, as the serializer reads them. *)
Definition edge_metadata_typed (md : gmap string graph.value) : Prop :=
  Forall (typed is_float md)
    ["rate"; "rate3xx"; "rate4xx"; "rate5xx"; "responseTime"; "tcpSentRate"]
  ∧ typed is_bool md "isMTLS"
  ∧ typed is_string_or_nil md "protocol".

(** No pointer of the traffic map dangles, and the metadata have the
    expected types. *)
Definition well_formed (st : graph.Store) (trafficMap : gmap string graph.ptr) : Prop :=
  (∀ id p, trafficMap !! id = Some p → ∃ n, graph.load_node st p = Ok n)
  ∧ (∀ n, n ∈ graph.nodes st →
       node_metadata_typed (graph.Metadata n)
       ∧ ∀ pe, pe ∈ graph.Edges n → ∃ e, graph.load_edge st pe = Ok e)
  ∧ (∀ e, e ∈ graph.edges st →
       edge_metadata_typed (graph.EdgeMetadata e)
       ∧ (∃ s, graph.load_node st (graph.Source e) = Ok s)
       ∧ (∃ d, graph.load_node st (graph.Dest e) = Ok d)).

(** ** Examples

    The examples do not depend on the hash: they are run with the identity
    in its place. *)

Definition plain (s : string) : string := s.

(** A workload graph: [a] sends 5 of its 10 requests per second to [b]. *)
Definition workload_a : graph.Node :=
  graph.mkNode "wl_ns_a" "workload" "ns" "a" "" "" "" [Some 0]
    {["rateOut" := graph.VFloat 10]}.

Definition workload_b : graph.Node :=
  graph.mkNode "wl_ns_b" "workload" "ns" "b" "" "" "" [] ∅.

Definition edge_a_b : graph.Edge :=
  graph.mkEdge (Some 0) (Some 1) {["rate" := graph.VFloat 5]}.

Definition workload_store : graph.Store :=
  graph.mkStore [workload_a; workload_b] [edge_a_b].

Definition workload_options : options.VendorOptions :=
  options.mkVendorOptions "workload" "version" 0.

(** A versioned app graph: productpage calls two versions of reviews. *)
Definition productpage : graph.Node :=
  graph.mkNode "vapp_bookinfo_productpage-v1" "app" "bookinfo" "productpage-v1"
    "productpage" "v1" "" [Some 0; Some 1] {["rateOut" := graph.VFloat 10]}.

Definition reviews_v1 : graph.Node :=
  graph.mkNode "vapp_bookinfo_reviews-v1" "app" "bookinfo" "reviews-v1"
    "reviews" "v1" "" [] ∅.

Definition reviews_v2 : graph.Node :=
  graph.mkNode "vapp_bookinfo_reviews-v2" "app" "bookinfo" "reviews-v2"
    "reviews" "v2" "" [] {["hasMissingSC" := graph.VBool true]}.

Definition bookinfo_store : graph.Store :=
  graph.mkStore [productpage; reviews_v1; reviews_v2]
    [graph.mkEdge (Some 0) (Some 1) {["rate" := graph.VFloat 5]};
     graph.mkEdge (Some 0) (Some 2) {["rate" := graph.VFloat 5]}].

Definition bookinfo_map : gmap string graph.ptr :=
  <["vapp_bookinfo_productpage-v1" := Some 0]>
    (<["vapp_bookinfo_reviews-v1" := Some 1]>
       (<["vapp_bookinfo_reviews-v2" := Some 2]> ∅)).

Definition versioned_options : options.VendorOptions :=
  options.mkVendorOptions "versionedApp" "version" 0.

(** Two nodes that [NewNode] builds for the same workload, one for a
    versioned app graph and one for a workload graph: they differ in
    identifier and node type and agree on the six fields of the sort. *)
Definition reviews_as_app : graph.Node :=
  graph.mkNode "vapp_bookinfo_reviews-v1" "app" "bookinfo" "reviews-v1"
    "reviews" "v1" "" [] ∅.

Definition reviews_as_workload : graph.Node :=
  graph.mkNode "wl_bookinfo_reviews-v1" "workload" "bookinfo" "reviews-v1"
    "reviews" "v1" "" [] ∅.

Definition tie_store : graph.Store :=
  graph.mkStore [reviews_as_app; reviews_as_workload] [].

Definition tie_map : gmap string graph.ptr :=
  <["vapp_bookinfo_reviews-v1" := Some 0]>
    (<["wl_bookinfo_reviews-v1" := Some 1]> ∅).

(** Serialized app nodes: two workloads of the same app and version, and a
    second version. *)
Definition nd_reviews_v1 : NodeData :=
  cytoscape.newNodeData "n1" "app" "bookinfo" "reviews-v1" "reviews" "v1" "".

Definition nd_reviews_v1_canary : NodeData :=
  cytoscape.newNodeData "n2" "app" "bookinfo" "reviews-v1-canary" "reviews" "v1" "".

Definition nd_reviews_v2 : NodeData :=
  cytoscape.newNodeData "n3" "app" "bookinfo" "reviews-v2" "reviews" "v2" "".

(** A cluster with two namespaces, and a request for all of them, made 300
    seconds after the namespace [bookinfo] was created. The parsers of the
    example are the library's on the strings that the example parses. *)
Definition example_namespaces : list models.Namespace :=
  [models.mkNamespace "bookinfo" (time.Unix 1500000000 0);
   models.mkNamespace "istio-system" (time.Unix 1400000000 0)].

Definition example_now : time.Time := time.Unix 1500000300 0.

Definition example_ParseDuration (s : string) : option time.Duration :=
  if String.eqb s "10m" then Some (10 * time.Minute)%Z else None.

Definition example_ParseBool (s : string) : option bool :=
  if String.eqb s "true" then Some true
  else if String.eqb s "false" then Some false else None.

Definition example_NewOptions :=
  options.NewOptions None (example_namespaces, None) example_now
    (λ _, example_now) example_ParseDuration example_ParseBool (λ _, None)
    "deadNode" "responseTime" "securityPolicy" "unusedNode" "istio"
    "sidecarsCheck" 1%float plain (λ _, None).

Definition example_covered : gmap string graph.NamespaceInfo :=
  {["bookinfo" := graph.mkNamespaceInfo "bookinfo" (300 * time.Second)%Z]}.

Definition example_options : options.Options :=
  {| options.AccessibleNamespaces :=
       <["bookinfo" := true]> (<["istio-system" := true]> ∅);
     options.Appenders :=
       [appender.DeadNodeAppender;
        appender.ResponseTimeAppender 1%float "workload" false false
          example_covered 1500000300%Z;
        appender.SecurityPolicyAppender "workload" false example_covered
          1500000300%Z;
        appender.UnusedNodeAppender "workload" false;
        appender.IstioAppender; appender.SidecarsCheckAppender];
     options.Duration := (10 * time.Minute)%Z;
     options.IncludeIstio := false;
     options.InjectServiceNodes := false;
     options.Namespaces := example_covered;
     options.QueryTime := 1500000300%Z;
     options.Vendor := "cytoscape";
     options.nodeOptions := options.mkNodeOptions "" "" "" "";
     options.vendorOptions :=
       options.mkVendorOptions "workload" "version" 1500000300%Z |}.

(** The document of the versioned app graph. *)
Definition bookinfo_entries : list (string * graph.ptr) :=
  [("vapp_bookinfo_productpage-v1", Some 0);
   ("vapp_bookinfo_reviews-v1", Some 1);
   ("vapp_bookinfo_reviews-v2", Some 2)].

Definition bookinfo_document : cytoscape.Config :=
  match cytoscape.NewConfig plain bookinfo_store bookinfo_entries
          ["box_bookinfo_reviews"; "box_bookinfo_productpage"]
          versioned_options with
  | Ok r => r
  | Panic _ => cytoscape.mkConfig 0 "" (cytoscape.mkElements [] [])
  end.

(** The two documents of the graph of the tie, one for each order in which
    its traffic map may be ranged over. *)
Definition tie_document (entries : list (string * graph.ptr)) : cytoscape.Config :=
  match cytoscape.NewConfig plain tie_store entries ["box_bookinfo_reviews"]
          workload_options with
  | Ok r => r
  | Panic _ => cytoscape.mkConfig 0 "" (cytoscape.mkElements [] [])
  end.

Definition tie_entries : list (string * graph.ptr) :=
  [("vapp_bookinfo_reviews-v1", Some 0); ("wl_bookinfo_reviews-v1", Some 1)].

(** * Properties *)

#[local] Set Default Proof Using "Type".

#[local] Arguments String.eqb : simpl never.
#[local] Arguments cytoscape.box_key : simpl never.

(** ** The identity scheme *)

Section identity.

Implicit Types namespace workload app version service graphType : string.

(** C2. The tuple (unknown, unknown, unknown, "") names the unknown source
    node, whatever the version and the graph type. *)
Theorem Id_unknown_source version graphType :
  graph.Id "unknown" "unknown" "unknown" version "" graphType
  = Ok ("unknown_source", graph.NodeTypeUnknown).
Proof. reflexivity. Qed.

(** C3. [Id] panics exactly when no sentinel rule applies and either none
    of workload, app and service resolves, or the graph type is workload or
    service and neither workload nor service resolves; on a workload or
    service graph a workload that resolves wins over the service. *)
Theorem Id_panics_iff namespace workload app version service graphType :
  is_panic (graph.Id namespace workload app version service graphType)
  = negb (unknown_source_rule namespace workload app service)
    && negb (unknown_service_rule workload app service)
    && ((negb (graph.workloadOk workload) && negb (graph.appOk app)
         && negb (graph.serviceOk service))
        || (workload_graph graphType
            && negb (graph.workloadOk workload) && negb (graph.serviceOk service)))
  ∧ (workload_graph graphType = true →
     graph.workloadOk workload = true →
     graph.Id namespace workload app version service graphType
     = Ok ("wl_" +:+ namespace +:+ "_" +:+ workload, graph.NodeTypeWorkload))
  ∧ (workload_graph graphType = true →
     graph.workloadOk workload = false →
     graph.serviceOk service = true →
     graph.Id namespace workload app version service graphType
     = Ok ("svc_" +:+ namespace +:+ "_" +:+ service, graph.NodeTypeService)).
Proof.
  unfold graph.Id, unknown_source_rule, unknown_service_rule, workload_graph.
  split; [|split].
  - destruct (String.eqb graph.UnknownNamespace namespace
              && String.eqb graph.UnknownWorkload workload
              && String.eqb graph.UnknownApp app && String.eqb "" service); [done|].
    destruct (String.eqb graph.UnknownWorkload workload
              && String.eqb graph.UnknownApp app
              && String.eqb graph.UnknownService service); [done|].
    destruct (graph.workloadOk workload), (graph.appOk app),
      (graph.serviceOk service),
      (String.eqb graphType graph.GraphTypeWorkload
       || String.eqb graphType graph.GraphTypeService);
      simpl; try done; by destruct (String.eqb graphType _).
  - intros Hg Hw. rewrite Hg, Hw.
    assert (String.eqb graph.UnknownWorkload workload = false) as Hu.
    { unfold graph.workloadOk in Hw. rewrite String.eqb_sym.
      by destruct (String.eqb workload graph.UnknownWorkload);
        rewrite ?andb_false_r in Hw. }
    by rewrite Hu, ?andb_false_r, ?andb_false_l.
  - intros Hg Hw Hs. rewrite Hg, Hw, Hs.
    assert (String.eqb "" service = false
            ∧ String.eqb graph.UnknownService service = false) as [Hu1 Hu2].
    { unfold graph.serviceOk in Hs.
      rewrite (String.eqb_sym "" service),
        (String.eqb_sym graph.UnknownService service).
      by destruct (String.eqb service ""),
        (String.eqb service graph.UnknownService). }
    by rewrite Hu1, Hu2, ?andb_false_r, ?andb_false_l.
Qed.

(** C3, on a service graph: the workload wins over the service. *)
Lemma Id_panics_iff_witness :
  graph.Id "ns" "w" "" "v1" "svc" "service"
  = Ok ("wl_ns_w", graph.NodeTypeWorkload).
Proof.
  exact (proj1 (proj2 (Id_panics_iff "ns" "w" "" "v1" "svc" "service"))
           eq_refl eq_refl).
Defined.

(** C4. A node built with type service keeps neither app nor workload nor
    version, whatever the caller passed; and the tuple with workload, app and
    service all unknown is the unknown service of its namespace. *)
Theorem service_node_trimmed id namespace workload app version service graphType :
  let n := graph.NewNodeExplicit id namespace workload app version service
             graph.NodeTypeService graphType in
  (graph.App n = "" ∧ graph.Workload n = "" ∧ graph.Version n = ""
   ∧ graph.NodeType n = graph.NodeTypeService ∧ graph.Service n = service)
  ∧ graph.Id namespace "unknown" "unknown" version "unknown" graphType
    = Ok ("svc_" +:+ namespace +:+ "_unknown", graph.NodeTypeService).
Proof.
  split; [done|].
  unfold graph.Id.
  change (String.eqb "" "unknown") with false.
  by rewrite andb_false_r.
Qed.

(** C10. The version never decides the result of [Id]: when [Id] returns
    for one version it returns the same identifier and node type for every
    other. *)
Theorem Id_version_irrelevant namespace workload app service graphType
    (v1 v2 : string) (r : string * string) :
  graph.Id namespace workload app v1 service graphType = Ok r →
  graph.Id namespace workload app v2 service graphType = Ok r.
Proof.
  unfold graph.Id.
  repeat match goal with
         | |- context [if ?c then _ else _] => destruct c
         end; done.
Qed.

(** C10, on a versioned app node: version v2 for v1. *)
Lemma Id_version_irrelevant_witness :
  graph.Id "bookinfo" "reviews-v1" "reviews" "v2" "" graph.GraphTypeVersionedApp
  = Ok ("vapp_bookinfo_reviews-v1", graph.NodeTypeApp).
Proof.
  apply (Id_version_irrelevant "bookinfo" "reviews-v1" "reviews" ""
           graph.GraphTypeVersionedApp "v1" "v2").
  reflexivity.
Defined.

End identity.

(** ** Edges *)

Section edges.

Implicit Types (st : graph.Store) (n : graph.Node) (dest : graph.ptr).

Lemma load_edge_app_l st p e (new : list graph.Edge) (ns : list graph.Node) :
  graph.load_edge st p = Ok e →
  graph.load_edge {| graph.nodes := ns; graph.edges := graph.edges st ++ new |} p
  = Ok e.
Proof.
  destruct p as [b|]; simpl; [|done].
  destruct (graph.edges st !! b) as [e'|] eqn:Hb; [|done].
  intros [= <-]. by rewrite (lookup_app_l_Some _ _ _ _ Hb).
Qed.

Lemma load_edge_fresh st e (ns : list graph.Node) :
  graph.load_edge st (Some (length (graph.edges st))) = Panic graph.nil_deref
  ∧ graph.load_edge {| graph.nodes := ns; graph.edges := graph.edges st ++ [e] |}
      (Some (length (graph.edges st))) = Ok e.
Proof.
  simpl. rewrite lookup_ge_None_2 by lia.
  by rewrite lookup_app_r, Nat.sub_diag by lia.
Qed.

Lemma AddEdge_ok st a n dest :
  graph.nodes st !! a = Some n →
  graph.AddEdge (Some a) dest st
  = Ok (Some (length (graph.edges st)),
        {| graph.nodes :=
             <[a := graph.with_Edges n
                      (graph.Edges n ++ [Some (length (graph.edges st))])]>
               (graph.nodes st);
           graph.edges := graph.edges st ++ [graph.NewEdge (Some a) dest] |}).
Proof. intros Hn. unfold graph.AddEdge. simpl. by rewrite Hn. Qed.

(** C9. [AddEdge] allocates one new edge from the source to the
    destination, with empty metadata, appends it to the edges of the source
    and returns it; the other nodes and the edges that existed are as they
    were, and a second call for the same destination appends a second,
    distinct edge. *)
Theorem AddEdge_appends st a n dest :
  graph.nodes st !! a = Some n →
  let s : graph.ptr := Some a in
  ∃ pe st',
    graph.AddEdge s dest st = Ok (pe, st')
    ∧ graph.load_edge st pe = Panic graph.nil_deref
    ∧ graph.load_edge st' pe
      = Ok {| graph.Source := s; graph.Dest := dest; graph.EdgeMetadata := ∅ |}
    ∧ graph.load_node st' s = Ok (graph.with_Edges n (graph.Edges n ++ [pe]))
    ∧ (∀ b, b ≠ a → graph.nodes st' !! b = graph.nodes st !! b)
    ∧ (∀ p e, graph.load_edge st p = Ok e → graph.load_edge st' p = Ok e)
    ∧ ∃ pe2 st'',
        graph.AddEdge s dest st' = Ok (pe2, st'')
        ∧ pe2 ≠ pe
        ∧ graph.load_node st'' s
          = Ok (graph.with_Edges n (graph.Edges n ++ [pe; pe2]))
        ∧ graph.load_edge st'' pe = Ok (graph.NewEdge s dest)
        ∧ graph.load_edge st'' pe2 = Ok (graph.NewEdge s dest).
Proof.
  intros Hn s.
  assert (a < length (graph.nodes st)) as Ha by by eapply lookup_lt_Some.
  eexists _, _. split; [by apply AddEdge_ok|].
  destruct (load_edge_fresh st (graph.NewEdge s dest)
              (<[a := graph.with_Edges n
                        (graph.Edges n ++ [Some (length (graph.edges st))])]>
                 (graph.nodes st))) as [Hfresh Hnew].
  split; [done|]. split; [done|].
  split; [by simpl; rewrite list_lookup_insert_eq|].
  split; [by intros b Hb; simpl; rewrite list_lookup_insert_ne|].
  split; [by intros p e He; apply load_edge_app_l|].
  set (st' := {| graph.nodes := _; graph.edges := _ |}).
  assert (graph.nodes st' !! a
          = Some (graph.with_Edges n
                    (graph.Edges n ++ [Some (length (graph.edges st))]))) as Hn'
    by by simpl; rewrite list_lookup_insert_eq.
  eexists _, _. split; [by apply AddEdge_ok|].
  split; [simpl; rewrite length_app; simpl; intros [=]; lia|].
  split.
  { simpl. rewrite list_lookup_insert_eq
      by (by rewrite length_insert).
    unfold graph.with_Edges. simpl. by rewrite <- app_assoc. }
  split.
  - by apply load_edge_app_l.
  - apply load_edge_fresh.
Qed.

(** C9, on a store of two workload nodes and no edge. *)
Lemma AddEdge_appends_witness :
  ∃ pe st',
    graph.AddEdge (Some 0) (Some 1)
      {| graph.nodes :=
           [graph.NewNodeExplicit "wl_ns_a" "ns" "a" "" "" ""
              "workload" "workload";
            graph.NewNodeExplicit "wl_ns_b" "ns" "b" "" "" ""
              "workload" "workload"];
         graph.edges := [] |} = Ok (pe, st')
    ∧ graph.edges st' = [graph.NewEdge (Some 0) (Some 1)]
    ∧ pe = Some 0.
Proof.
  destruct (AddEdge_appends
              {| graph.nodes :=
                   [graph.NewNodeExplicit "wl_ns_a" "ns" "a" "" "" ""
                      "workload" "workload";
                    graph.NewNodeExplicit "wl_ns_b" "ns" "b" "" "" ""
                      "workload" "workload"];
                 graph.edges := [] |} 0 _ (Some 1) eq_refl)
    as (pe & st' & Hadd & _).
  exists pe, st'. split; [exact Hadd|].
  vm_compute in Hadd. by injection Hadd as <- <-.
Defined.

End edges.

(** ** The options resolver *)

Section resolver.

Variables DeadNodeAppenderName ResponseTimeAppenderName
  SecurityPolicyAppenderName UnusedNodeAppenderName IstioAppenderName
  SidecarsCheckAppenderName : string.
Variable DefaultQuantile : float.
Variable ToLower : string -> string.
Variable ParseFloat : string -> option float.

Local Abbreviation parseAppenders :=
  (options.parseAppenders DeadNodeAppenderName ResponseTimeAppenderName
     SecurityPolicyAppenderName UnusedNodeAppenderName IstioAppenderName
     SidecarsCheckAppenderName DefaultQuantile ToLower ParseFloat).

Ltac pick_stages :=
  repeat first [ apply sublist_nil | apply sublist_skip | apply sublist_cons ].

(** C7. Whatever the filter, the stages of the resolved pipeline are a
    subsequence of dead-node, response-time, security-policy, unused-node,
    istio, sidecars-check: the filter selects stages and never orders them. *)
Theorem parseAppenders_fixed_order (params : options.Values) (o : options.Options) :
  appender.kind <$> parseAppenders params o `sublist_of` appender.pipeline_order.
Proof.
  unfold options.parseAppenders, appender.pipeline_order.
  set (csl := match params !! "appenders" with Some _ => _ | None => _ end).
  generalize (String.eqb csl options.AppenderAll). intros all.
  repeat match goal with
         | |- context [options.Contains csl ?name] =>
             generalize (options.Contains csl name); intros ?
         end.
  repeat match goal with
         | |- context [if ?c then _ else _] =>
             match c with
             | _ || _ => destruct c eqn:?
             end
         end; simpl; pick_stages.
Qed.





End resolver.

(** ** Telemetry of the serialized edges *)

Section telemetry.

Local Open Scope float_scope.

Lemma append_cons_nonempty (a b : string) (c : Ascii.ascii) :
  a +:+ String c b ≠ "".
Proof. by destruct a. Qed.

Lemma Sprintf_2f_nonempty (x : float) : cytoscape.Sprintf_2f x ≠ "".
Proof.
  unfold cytoscape.Sprintf_2f.
  destruct (Prim2SF x) as [[]|[]| |[] m e]; try done.
  change ("" +:+ ?a +:+ "." +:+ ?b) with (a +:+ String "."%char b).
  apply append_cons_nonempty.
Qed.

(** Dividing a positive finite binary64 number by itself gives one. *)
Lemma SF64div_self (m : positive) (e : Z) :
  SF64div (S754_finite false m e) (S754_finite false m e) = Prim2SF 1.
Proof.
  unfold SF64div, SFdiv, SFdiv_core_binary.
  replace (Zdigits2 (Z.pos m) + e - (Zdigits2 (Z.pos m) + e))%Z with 0%Z by lia.
  replace (e - e)%Z with 0%Z by lia.
  change (Z.min (fexp prec emax 0) 0) with (-53)%Z.
  change (0 - -53)%Z with 53%Z.
  cbv iota beta zeta.
  rewrite Z.shiftl_mul_pow2 by lia.
  assert (Z.div_eucl (Z.pos m * 2 ^ 53) (Z.pos m) = (2 ^ 53, 0)%Z) as ->.
  { pose proof (Z.div_mul (2 ^ 53) (Z.pos m)) as Hd.
    pose proof (Z.mod_mul (2 ^ 53) (Z.pos m)) as Hm.
    unfold Z.modulo, Z.div in Hd, Hm.
    rewrite (Z.mul_comm (Z.pos m)).
    destruct (Z.div_eucl (2 ^ 53 * Z.pos m) (Z.pos m)) as [q r].
    by rewrite Hd, Hm by lia. }
  assert (new_location (Z.pos m) 0 = loc_Exact) as ->.
  { unfold new_location, new_location_even, new_location_odd.
    by destruct (Z.even (Z.pos m)). }
  by vm_compute.
Qed.

(** The share of a positive rate in itself is not below 100: it is 100 for
    a finite rate, and not a number for an infinite one. *)
Lemma full_rate_percent (x : float) :
  (0 <? x) = true → (x / x * 100 <? 100) = false.
Proof.
  intros Hpos. rewrite ltb_spec in Hpos.
  assert (x / x = 1 ∨ x / x = nan) as [-> | ->]; [|done..].
  rewrite <- (SF2Prim_Prim2SF (x / x)), div_spec.
  destruct (Prim2SF x) as [s|s| |s m e] eqn:Hx.
  - by destruct s.
  - by right.
  - done.
  - destruct s; [done|].
    left. rewrite SF64div_self. apply SF2Prim_Prim2SF.
Qed.

Lemma assign_if_present_ok {A X : Type} md k (cast : graph.value → result A)
    (set : A → X → X) (x x' : X) :
  cytoscape.assign_if_present md k cast set x = Ok x' →
  x' = x ∨ ∃ v, x' = set v x.
Proof.
  unfold cytoscape.assign_if_present.
  destruct (md !! k) as [val|]; [|by intros [= <-]; left].
  destruct (cast val) as [v|]; [|done].
  intros [= <-]. right. by exists v.
Qed.

(** What [addEdgeTelemetry] leaves in [PercentRate] for an edge with a
    positive rate. *)
Lemma addEdgeTelemetry_PercentRate st ed e o ed' source (rate rateOut : float) :
  cytoscape.getRate (graph.EdgeMetadata e) "rate" = Ok rate →
  (0 <? rate) = true →
  graph.load_node st (graph.Source e) = Ok source →
  cytoscape.getRate (graph.Metadata source) "rateOut" = Ok rateOut →
  cytoscape.addEdgeTelemetry st ed e o = Ok ed' →
  cytoscape.EdgeData.PercentRate ed'
  = if rate / rateOut * 100 <? 100
    then cytoscape.Sprintf_2f (rate / rateOut * 100)
    else cytoscape.EdgeData.PercentRate ed.
Proof.
  intros Hrate Hpos Hsrc Hout.
  unfold cytoscape.addEdgeTelemetry.
  rewrite Hrate. simpl. rewrite Hpos.
  destruct (cytoscape.getRate _ "rate3xx") as [r3|]; [simpl|done].
  destruct (cytoscape.getRate _ "rate4xx") as [r4|]; [simpl|done].
  destruct (cytoscape.getRate _ "rate5xx") as [r5|]; [simpl|done].
  destruct (cytoscape.assign_if_present _ "responseTime" _ _ _)
    as [ed1|] eqn:H1; [simpl|done].
  rewrite Hsrc. simpl. rewrite Hout. simpl.
  destruct (cytoscape.assign_if_present _ "isMTLS" _ _ _)
    as [ed2|] eqn:H2; [simpl|done].
  destruct (cytoscape.getRate _ "tcpSentRate") as [tcp|]; [simpl|done].
  intros [= <-].
  apply assign_if_present_ok in H1, H2.
  assert (cytoscape.EdgeData.PercentRate ed1 = cytoscape.EdgeData.PercentRate ed)
    as Hed1.
  { destruct H1 as [->|[v ->]]; simpl;
      by repeat match goal with
                | |- context [if ?c then _ else _] => destruct c
                end. }
  destruct (rate / rateOut * 100 <? 100);
    destruct H2 as [->|[v ->]]; by destruct (0 <? tcp).
Qed.

Section serialized.

Variable md5hex : string → string.

(** C6. A serialized edge with a positive rate carries [percentRate], the
    share of the rate in the outbound rate of its source, exactly when that
    share is below 100; an edge whose rate is all of the outbound rate of
    its source carries none. *)
Theorem percentRate_iff_below_100 st o n pe e ed source (rate rateOut : float) :
  graph.load_edge st pe = Ok e →
  cytoscape.getRate (graph.EdgeMetadata e) "rate" = Ok rate →
  (0 <? rate) = true →
  graph.load_node st (graph.Source e) = Ok source →
  cytoscape.getRate (graph.Metadata source) "rateOut" = Ok rateOut →
  cytoscape.buildConfig_edge md5hex st o n pe = Ok ed →
  (cytoscape.EdgeData.PercentRate ed ≠ "" ↔ (rate / rateOut * 100 <? 100) = true)
  ∧ ((rate / rateOut * 100 <? 100) = true →
     cytoscape.EdgeData.PercentRate ed
     = cytoscape.Sprintf_2f (rate / rateOut * 100))
  ∧ (rate = rateOut → cytoscape.EdgeData.PercentRate ed = "").
Proof.
  intros He Hrate Hpos Hsrc Hout.
  unfold cytoscape.buildConfig_edge. rewrite He. simpl.
  destruct (graph.load_node st (graph.Dest e)) as [dest|]; [simpl|done].
  destruct (match graph.EdgeMetadata e !! "protocol" with
            | Some graph.VNil | None => Ok ""
            | Some v => cytoscape.as_string v
            end) as [protocol|]; [simpl|done].
  intros Hed.
  rewrite (addEdgeTelemetry_PercentRate _ _ _ _ _ _ _ _
             Hrate Hpos Hsrc Hout Hed). simpl.
  split; [|split].
  - destruct (rate / rateOut * 100 <? 100); [|done].
    split; [done|]. intros _. apply Sprintf_2f_nonempty.
  - by intros ->.
  - intros <-. by rewrite full_rate_percent.
Qed.

End serialized.

End telemetry.

(** ** Compound grouping *)

Section positions.

Context {A : Type} (P : A → bool).

Lemma elem_of_positions (l : list A) (i j : nat) :
  j ∈ positions P i l ↔ i ≤ j ∧ ∃ x, l !! (j - i) = Some x ∧ P x = true.
Proof.
  revert i. induction l as [|x l IH]; intros i; simpl.
  - split; [by intros ?%elem_of_nil|]. by intros (_ & y & ? & _).
  - rewrite elem_of_app, IH. split.
    + intros [Hj | (Hj & y & Hy & HP)].
      * destruct (P x) eqn:HP; [|by apply elem_of_nil in Hj].
        apply list_elem_of_singleton in Hj as ->.
        split; [done|]. exists x. by rewrite Nat.sub_diag.
      * split; [lia|]. exists y. split; [|done].
        by replace (j - i) with (S (j - S i)) by lia.
    + intros (Hj & y & Hy & HP).
      destruct (decide (j = i)) as [->|Hne].
      * left. rewrite Nat.sub_diag in Hy. injection Hy as ->.
        rewrite HP. by apply list_elem_of_singleton.
      * right. split; [lia|]. exists y. split; [|done].
        by replace (j - i) with (S (j - S i)) in Hy by lia.
Qed.

Lemma positions_lookup (l : list A) (i : nat) :
  (λ j, l !! (j - i)) <$> positions P i l
  = Some <$> filter (λ x, P x = true) l.
Proof.
  revert i. induction l as [|x l IH]; intros i; [done|]. simpl.
  rewrite fmap_app, filter_cons.
  assert ((λ j, (x :: l) !! (j - i)) <$> positions P (S i) l
          = Some <$> filter (λ x, P x = true) l) as ->.
  { rewrite <- (IH (S i)). apply list_fmap_ext. intros k j Hj.
    apply list_elem_of_lookup_2, elem_of_positions in Hj as [Hj _].
    by replace (j - i) with (S (j - S i)) by lia. }
  destruct (P x) eqn:HP; simpl; [|done].
  by rewrite Nat.sub_diag.
Qed.

Lemma length_positions (l : list A) (i : nat) :
  length (positions P i l) = length (filter (λ x, P x = true) l).
Proof.
  rewrite <- (length_fmap (λ j, l !! (j - i))), positions_lookup.
  by rewrite length_fmap.
Qed.

End positions.

Section grouping.

Implicit Types (nodes : list cytoscape.NodeData.t) (k : string).

Lemma grouping_lookup nodes i (grouped : gmap string (list nat)) k :
  cytoscape.grouping i nodes grouped !! k
  = match positions (is_member k) i nodes with
    | [] => grouped !! k
    | ps => Some (default [] (grouped !! k) ++ ps)
    end.
Proof.
  revert i grouped. induction nodes as [|nd nodes IH]; intros i grouped; [done|].
  simpl. rewrite IH.
  replace (is_member k nd)
    with (String.eqb (cytoscape.NodeData.NodeType nd) graph.NodeTypeApp
          && String.eqb (cytoscape.box_key nd) k) by done.
  destruct (String.eqb (cytoscape.NodeData.NodeType nd) graph.NodeTypeApp);
    simpl; [|done].
  destruct (String.eqb_spec (cytoscape.box_key nd) k) as [Hk|Hk]; simpl.
  - rewrite Hk, lookup_insert_eq. simpl.
    destruct (positions (is_member k) (S i) nodes); simpl; [done|].
    by rewrite <- app_assoc.
  - by rewrite lookup_insert_ne.
Qed.

Lemma grouping_members nodes k :
  default [] (cytoscape.grouping 0 nodes ∅ !! k)
  = positions (is_member k) 0 nodes.
Proof.
  rewrite grouping_lookup, lookup_empty.
  by destruct (positions (is_member k) 0 nodes).
Qed.

Lemma grouping_is_Some nodes k :
  is_Some (cytoscape.grouping 0 nodes ∅ !! k) ↔ group nodes k ≠ [].
Proof.
  rewrite grouping_lookup, lookup_empty.
  pose proof (length_positions (is_member k) nodes 0) as Hlen.
  unfold group.
  destruct (positions (is_member k) 0 nodes),
    (filter (λ x, is_member k x = true) nodes); done.
Qed.
End grouping.


Lemma existsb_pointwise {A : Type} (f g : A → bool) (l : list A) :
  (∀ x, f x = g x) → existsb f l = existsb g l.
Proof. intros Hfg. induction l as [|x l IH]; simpl; [done|]. by rewrite Hfg, IH. Qed.

Section members.

Implicit Types (nodes cur : list NodeData) (k nodeId : string) (nd n : NodeData).

Lemma add_flags_add_flags a1 a2 a3 b1 b2 b3 nd :
  add_flags a1 a2 a3 (add_flags b1 b2 b3 nd)
  = add_flags (b1 || a1) (b2 || a2) (b3 || a3) nd.
Proof. unfold add_flags. simpl. by rewrite !orb_assoc. Qed.

Lemma add_flags_false nd : add_flags false false false nd = nd.
Proof. destruct nd. unfold add_flags. simpl. by rewrite !orb_false_r. Qed.

Lemma flag_at_insert (F : NodeData → bool) cur i j n nodeId :
  cur !! i = Some n →
  F (set_Parent nodeId n) = F n →
  flag_at F (<[i := set_Parent nodeId n]> cur) j = flag_at F cur j.
Proof.
  intros Hi HF. unfold flag_at.
  destruct (decide (i = j)) as [<-|Hne].
  - rewrite list_lookup_insert_eq by by eapply lookup_lt_Some.
    by rewrite Hi.
  - by rewrite list_lookup_insert_ne.
Qed.

Lemma foldl_assign_member nodeId (members : list nat) cur nd :
  foldl (cytoscape.assign_member nodeId) (cur, nd) members
  = (set_parents nodeId members cur,
     add_flags (existsb (flag_at HasMissingSC cur) members)
       (existsb (flag_at IsInaccessible cur) members)
       (existsb (flag_at IsOutside cur) members) nd).
Proof.
  revert cur nd. induction members as [|i members IH]; intros cur nd; simpl.
  - rewrite add_flags_false. f_equal. unfold set_parents.
    apply list_eq. intros j. rewrite list_lookup_imap.
    by destruct (cur !! j).
  - destruct (cur !! i) as [n|] eqn:Hi.
    + rewrite IH.
      change (cytoscape.NodeData.set_IsOutside _ _)
        with (add_flags (HasMissingSC n) (IsInaccessible n) (IsOutside n) nd).
      rewrite add_flags_add_flags. f_equal.
      * unfold set_parents. apply list_eq. intros j.
        rewrite !list_lookup_imap.
        destruct (decide (i = j)) as [<-|Hne].
        -- rewrite list_lookup_insert_eq by by eapply lookup_lt_Some.
           rewrite Hi. simpl. rewrite (bool_decide_eq_true_2 (i ∈ i :: members))
             by apply list_elem_of_here.
           by destruct (bool_decide (i ∈ members)).
        -- rewrite list_lookup_insert_ne by done.
           destruct (cur !! j) as [x|]; [simpl|done].
           by rewrite (bool_decide_ext (j ∈ i :: members) (j ∈ members))
             by (rewrite elem_of_cons; intuition congruence).
      * assert (∀ F : NodeData → bool, F (set_Parent nodeId n) = F n →
                existsb (flag_at F (<[i := set_Parent nodeId n]> cur)) members
                = existsb (flag_at F cur) members) as Hex.
        { intros F HF. apply existsb_pointwise. intros j. by apply flag_at_insert. }
        assert (∀ F : NodeData → bool, flag_at F cur i = F n) as Hat
          by (by intros F; unfold flag_at; rewrite Hi).
        by rewrite !Hex, !Hat by done.
    + rewrite IH.
      assert (∀ F : NodeData → bool, flag_at F cur i = false) as Hat
        by (by intros F; unfold flag_at; rewrite Hi).
      rewrite !Hat. simpl. f_equal.
      unfold set_parents. apply list_eq. intros j.
      rewrite !list_lookup_imap.
      destruct (cur !! j) as [x|] eqn:Hj; [simpl|done].
      by rewrite (bool_decide_ext (j ∈ i :: members) (j ∈ members))
        by (rewrite elem_of_cons; intuition congruence).
Qed.

Lemma positions_lookup_0 {A : Type} (P : A → bool) (l : list A) :
  (l !!.) <$> positions P 0 l = Some <$> filter (λ x, P x = true) l.
Proof.
  rewrite <- (positions_lookup P l 0). apply list_fmap_ext.
  intros _ j _. by rewrite Nat.sub_0_r.
Qed.

Lemma elem_of_positions_0 {A : Type} (P : A → bool) (l : list A) (j : nat) :
  j ∈ positions P 0 l ↔ ∃ x, l !! j = Some x ∧ P x = true.
Proof.
  rewrite elem_of_positions, Nat.sub_0_r. split; [by intros [_ ?]|].
  intros ?. split; [lia|done].
Qed.

Lemma is_member_true k n :
  is_member k n = true ↔
  cytoscape.NodeData.NodeType n = graph.NodeTypeApp ∧ cytoscape.box_key n = k.
Proof.
  unfold is_member. rewrite andb_true_iff, !String.eqb_eq. done.
Qed.

Lemma elem_of_group nodes k n :
  n ∈ group nodes k ↔ n ∈ nodes ∧ is_member k n = true.
Proof. unfold group. rewrite list_elem_of_filter. tauto. Qed.

Lemma filter_omap_key {A B : Type} (f : A → option B) (P : B → Prop)
    (Q : A → Prop) `{!∀ b, Decision (P b)} `{!∀ a, Decision (Q a)} (l : list A) :
  (∀ a b, f a = Some b → (P b ↔ Q a)) →
  filter P (omap f l) = omap f (filter Q l).
Proof.
  intros HPQ. induction l as [|a l IH]; [done|].
  rewrite (filter_cons Q). specialize (HPQ a).
  destruct (decide (Q a)) as [HQ|HQ]; csimpl; destruct (f a) as [b|];
    rewrite ?filter_cons, ?IH; try done.
  - by rewrite decide_True by by apply (HPQ b).
  - by rewrite decide_False by by rewrite (HPQ b).
Qed.

Lemma filter_eq_NoDup {A : Type} `{EqDecision A} (k : A) (l : list A) :
  NoDup l → filter (λ x, x = k) l = if bool_decide (k ∈ l) then [k] else [].
Proof.
  induction 1 as [|x l Hx Hl IH]; [done|].
  rewrite filter_cons, IH. destruct (decide (x = k)) as [->|Hne].
  - rewrite (bool_decide_eq_true_2 (k ∈ k :: l)) by apply list_elem_of_here.
    by rewrite (bool_decide_eq_false_2 (k ∈ l)).
  - rewrite (bool_decide_ext (k ∈ x :: l) (k ∈ l)); [done|].
    rewrite elem_of_cons. intuition congruence.
Qed.

Lemma iteration_order_spec nodes order :
  cytoscape.iteration_order (cytoscape.grouping 0 nodes ∅) order →
  NoDup order ∧ ∀ k, k ∈ order ↔ group nodes k ≠ [].
Proof.
  unfold cytoscape.iteration_order. intros Hord. split.
  - rewrite Hord. apply NoDup_fst_map_to_list.
  - intros k. rewrite Hord, <- grouping_is_Some.
    rewrite list_elem_of_fmap. split.
    + intros ([k' ms] & -> & Hk%elem_of_map_to_list). by eexists.
    + intros [ms Hk]. exists (k, ms). by rewrite elem_of_map_to_list.
Qed.

End members.

Section compounds.

Variable md5hex : string → string.

Implicit Types (nodes cur : list NodeData) (k nodeId : string) (nd n : NodeData).

Lemma reparent_cases order nodes n :
  reparent md5hex order nodes n = n
  ∨ reparent md5hex order nodes n
    = set_Parent (cytoscape.nodeHash md5hex (cytoscape.box_key n)) n.
Proof. unfold reparent. destruct (_ && _); [by right|by left]. Qed.

(** A round changes the parent of the members of its group and of no
    other node. *)
Lemma reparent_snoc_member done nodes k n :
  is_member k n = true → 1 < length (group nodes k) →
  reparent md5hex (done ++ [k]) nodes n = set_Parent (cytoscape.nodeHash md5hex k) n
  ∧ set_Parent (cytoscape.nodeHash md5hex k) (reparent md5hex done nodes n)
    = set_Parent (cytoscape.nodeHash md5hex k) n.
Proof.
  intros [Happ Hk]%is_member_true Hsz. split.
  - unfold reparent. rewrite Hk, Happ.
    rewrite (bool_decide_eq_true_2 (k ∈ done ++ [k]))
      by (apply elem_of_app; right; apply list_elem_of_here).
    by rewrite (proj2 (Nat.ltb_lt _ _) Hsz).
  - destruct (reparent_cases done nodes n) as [->| ->]; [done|]. by rewrite Hk.
Qed.

Lemma reparent_snoc_other done nodes k n :
  is_member k n = false ∨ length (group nodes k) ≤ 1 →
  reparent md5hex (done ++ [k]) nodes n = reparent md5hex done nodes n.
Proof.
  intros Hn. unfold reparent.
  destruct (String.eqb_spec (cytoscape.NodeData.NodeType n) graph.NodeTypeApp)
    as [Happ|]; [simpl|done].
  destruct (String.eqb_spec (cytoscape.box_key n) k) as [Hk|Hk].
  - destruct Hn as [Hn|Hn].
    + unfold is_member in Hn. rewrite Happ, Hk, !String.eqb_refl in Hn. done.
    + rewrite Hk. rewrite (proj2 (Nat.ltb_ge _ _) Hn). by rewrite !andb_false_r.
  - rewrite (bool_decide_ext (cytoscape.box_key n ∈ done ++ [k])
               (cytoscape.box_key n ∈ done)); [done|].
    rewrite elem_of_app, list_elem_of_singleton. intuition congruence.
Qed.

Lemma grouped_nodes_lookup order nodes j :
  grouped_nodes md5hex order nodes !! j
  = match nodes !! j with
    | Some n => Some (reparent md5hex order nodes n)
    | None => omap (compound_of md5hex nodes) order !! (j - length nodes)
    end.
Proof.
  unfold grouped_nodes. rewrite lookup_app, list_lookup_fmap, length_fmap.
  by destruct (nodes !! j).
Qed.

Lemma flags_of_members done nodes (F : NodeData → bool) (ms : list nat)
    (G : list NodeData) :
  (∀ nodeId n, F (set_Parent nodeId n) = F n) →
  (nodes !!.) <$> ms = Some <$> G →
  existsb (flag_at F (grouped_nodes md5hex done nodes)) ms = existsb F G.
Proof.
  intros HF. revert G.
  induction ms as [|i ms IH]; intros [|g G]; simpl; try done.
  intros [= Hi HG]. rewrite (IH G HG). f_equal.
  unfold flag_at. rewrite grouped_nodes_lookup, Hi. simpl.
  by destruct (reparent_cases done nodes g) as [->| ->].
Qed.

Lemma set_parents_grouped done nodes k :
  1 < length (group nodes k) →
  set_parents (cytoscape.nodeHash md5hex k) (positions (is_member k) 0 nodes)
    (grouped_nodes md5hex done nodes)
  = (reparent md5hex (done ++ [k]) nodes <$> nodes)
    ++ omap (compound_of md5hex nodes) done.
Proof.
  intros Hsz. apply list_eq. intros j. unfold set_parents.
  rewrite list_lookup_imap, grouped_nodes_lookup, lookup_app,
    list_lookup_fmap, length_fmap.
  destruct (nodes !! j) as [n|] eqn:Hj; simpl.
  - f_equal. destruct (is_member k n) eqn:Hm.
    + rewrite bool_decide_eq_true_2
        by (apply elem_of_positions_0; by exists n).
      by destruct (reparent_snoc_member done nodes k n Hm Hsz) as [-> ->].
    + rewrite bool_decide_eq_false_2.
      * symmetry. apply reparent_snoc_other. by left.
      * intros (x & Hx & HP)%elem_of_positions_0. congruence.
  - destruct (omap (compound_of md5hex nodes) done !! (j - length nodes)); [simpl|done].
    rewrite bool_decide_eq_false_2; [done|].
    intros (x & Hx & _)%elem_of_positions_0. congruence.
Qed.

Lemma newCompound_reparent nodeId order nodes n :
  cytoscape.newCompound nodeId (reparent md5hex order nodes n)
  = cytoscape.newCompound nodeId n.
Proof. by destruct (reparent_cases order nodes n) as [->| ->]. Qed.

Lemma group_round_step done nodes k :
  cytoscape.group_round md5hex (grouped_nodes md5hex done nodes) k
    (positions (is_member k) 0 nodes)
  = grouped_nodes md5hex (done ++ [k]) nodes.
Proof.
  unfold cytoscape.group_round.
  pose proof (length_positions (is_member k) nodes 0) as Hlen.
  pose proof (positions_lookup_0 (is_member k) nodes) as Hlk.
  fold (group nodes k) in Hlen, Hlk.
  destruct (1 <? length (positions (is_member k) 0 nodes)) eqn:Hsz.
  - apply Nat.ltb_lt in Hsz. rewrite Hlen in Hsz.
    pose proof (set_parents_grouped done nodes k Hsz) as Hset.
    destruct (positions (is_member k) 0 nodes) as [|i0 ms];
      [simpl in Hlen; lia|].
    destruct (group nodes k) as [|g0 G] eqn:HG; [done|].
    assert (compound_of md5hex nodes k
            = Some (compound (cytoscape.nodeHash md5hex k) (g0 :: G) g0))
      as Hcomp.
    { unfold compound_of. rewrite HG.
      destruct G; [simpl in Hsz; lia|done]. }
    assert (nodes !! i0 = Some g0) as Hi0 by by injection Hlk.
    simpl head. simpl mbind.
    rewrite grouped_nodes_lookup, Hi0.
    rewrite foldl_assign_member, Hset.
    unfold grouped_nodes at 4. rewrite omap_app.
    change (omap (compound_of md5hex nodes) [k])
      with (match compound_of md5hex nodes k with Some c => [c] | None => [] end).
    rewrite Hcomp, app_assoc. do 2 f_equal.
    rewrite newCompound_reparent. unfold compound.
    by rewrite !(λ F HF, flags_of_members done nodes F _ _ HF Hlk)
      by done.
  - apply Nat.ltb_ge in Hsz. rewrite Hlen in Hsz.
    assert (compound_of md5hex nodes k = None) as Hnone.
    { unfold compound_of.
      destruct (group nodes k) as [|? [|? ?]]; [done..|simpl in Hsz; lia]. }
    unfold grouped_nodes. rewrite omap_app. simpl. rewrite Hnone, app_nil_r.
    f_equal. apply list_fmap_ext. intros _ n _.
    symmetry. apply reparent_snoc_other. by right.
Qed.

Lemma group_rounds_spec nodes order done :
  cytoscape.group_rounds md5hex (cytoscape.grouping 0 nodes ∅) order
    (grouped_nodes md5hex done nodes)
  = grouped_nodes md5hex (done ++ order) nodes.
Proof.
  revert done. induction order as [|k order IH]; intros done; simpl.
  - by rewrite app_nil_r.
  - rewrite grouping_members, group_round_step, IH. by rewrite <- app_assoc.
Qed.

Lemma grouped_nodes_nil nodes : grouped_nodes md5hex [] nodes = nodes.
Proof.
  unfold grouped_nodes. simpl. rewrite app_nil_r.
  transitivity (id <$> nodes); [|apply list_fmap_id].
  apply list_fmap_ext. intros _ n _.
  unfold reparent. by rewrite andb_false_r.
Qed.

(** [groupByVersion] in closed form. *)
Lemma groupByVersion_spec order nodes :
  cytoscape.groupByVersion md5hex order nodes = grouped_nodes md5hex order nodes.
Proof.
  unfold cytoscape.groupByVersion.
  rewrite <- (grouped_nodes_nil nodes) at 2.
  by rewrite group_rounds_spec.
Qed.

Lemma reparent_member order nodes k n :
  is_member k n = true → k ∈ order → 1 < length (group nodes k) →
  reparent md5hex order nodes n = set_Parent (cytoscape.nodeHash md5hex k) n.
Proof.
  intros [Happ Hk]%is_member_true Hin Hsz. unfold reparent.
  rewrite Hk, Happ, (bool_decide_eq_true_2 _ Hin).
  by rewrite (proj2 (Nat.ltb_lt _ _) Hsz).
Qed.

Lemma reparent_small order nodes n :
  length (group nodes (cytoscape.box_key n)) ≤ 1 → reparent md5hex order nodes n = n.
Proof.
  intros Hsz. unfold reparent.
  by rewrite (proj2 (Nat.ltb_ge _ _) Hsz), andb_false_r.
Qed.

Lemma reparent_not_app order nodes n :
  cytoscape.NodeData.NodeType n ≠ graph.NodeTypeApp →
  reparent md5hex order nodes n = n.
Proof.
  intros Happ%String.eqb_neq. unfold reparent. by rewrite Happ.
Qed.

(** The compound node of a group carries the key of the group. *)
Lemma compound_of_Some nodes k c :
  compound_of md5hex nodes k = Some c →
  1 < length (group nodes k)
  ∧ cytoscape.box_key c = k
  ∧ cytoscape.NodeData.Id c = cytoscape.nodeHash md5hex k
  ∧ cytoscape.NodeData.NodeType c = graph.NodeTypeApp
  ∧ cytoscape.NodeData.IsGroup c = options.GroupByVersion
  ∧ cytoscape.NodeData.Parent c = "".
Proof.
  unfold compound_of.
  destruct (group nodes k) as [|m0 [|m1 G]] eqn:HG; try done.
  intros [= <-]. split; [simpl; lia|].
  assert (m0 ∈ group nodes k) as [_ [_ Hk]%is_member_true]%elem_of_group
    by (rewrite HG; apply list_elem_of_here).
  done.
Qed.

Lemma compound_of_is_Some nodes k :
  is_Some (compound_of md5hex nodes k) ↔ 1 < length (group nodes k).
Proof.
  split; [by intros [c (? & _)%compound_of_Some]|].
  unfold compound_of. destruct (group nodes k) as [|m0 [|m1 G]]; simpl; try lia.
  by eexists.
Qed.

(** C1, as the code has it. Compound nodes are added only for a versioned
    app graph grouped by version. Groups are formed by the key
    [box_<namespace>_<app>] of the app nodes, and the threshold is on the
    number of member nodes: a group of more than one node gets exactly one
    compound node, whose identifier is the hash of the key, and every member
    gets it as parent; a group of one node gets none and its member keeps
    its parent; nodes of other types are left as they are. *)
Theorem groupByVersion_compounds (o : options.VendorOptions) nodes order k :
  cytoscape.iteration_order (cytoscape.grouping 0 nodes ∅) order →
  let out := cytoscape.groupByVersion md5hex order nodes in
  let added := drop (length nodes) out in
  cytoscape.add_compounds md5hex o order nodes
  = (if String.eqb (options.GraphType o) graph.GraphTypeVersionedApp
        && String.eqb (options.GroupBy o) options.GroupByVersion
     then out else nodes)
  ∧ (1 < length (group nodes k) →
   (∃ c, filter (λ c, cytoscape.box_key c = k) added = [c]
         ∧ cytoscape.NodeData.Id c = cytoscape.nodeHash md5hex k
         ∧ cytoscape.NodeData.IsGroup c = options.GroupByVersion)
   ∧ ∀ i n, nodes !! i = Some n → is_member k n = true →
       out !! i = Some (set_Parent (cytoscape.nodeHash md5hex k) n))
  ∧ (length (group nodes k) ≤ 1 →
     filter (λ c, cytoscape.box_key c = k) added = []
     ∧ ∀ i n, nodes !! i = Some n → is_member k n = true → out !! i = Some n)
  ∧ (∀ i n, nodes !! i = Some n →
       cytoscape.NodeData.NodeType n ≠ graph.NodeTypeApp → out !! i = Some n).
Proof.
  intros [Hnodup Hin]%iteration_order_spec out added.
  assert (added = omap (compound_of md5hex nodes) order) as Hadded.
  { unfold added, out. rewrite groupByVersion_spec. unfold grouped_nodes.
    by rewrite drop_app_length' by by rewrite length_fmap. }
  assert (filter (λ c, cytoscape.box_key c = k) added
          = if bool_decide (k ∈ order)
            then from_option (λ c, [c]) [] (compound_of md5hex nodes k) else [])
    as Hfilter.
  { rewrite Hadded.
    rewrite (filter_omap_key _ _ (λ k', k' = k)).
    - rewrite (filter_eq_NoDup k order Hnodup).
      destruct (bool_decide (k ∈ order)); [simpl|done].
      by destruct (compound_of md5hex nodes k).
    - intros k' c (_ & <- & _)%compound_of_Some. done. }
  assert (∀ i n, nodes !! i = Some n →
            out !! i = Some (reparent md5hex order nodes n)) as Hout.
  { intros i n Hi. unfold out.
    by rewrite groupByVersion_spec, grouped_nodes_lookup, Hi. }
  split; [done|]. split; [|split].
  - intros Hsz. split.
    + destruct (proj2 (compound_of_is_Some nodes k) Hsz) as [c Hc].
      exists c. rewrite Hfilter, Hc, bool_decide_eq_true_2.
      * by apply compound_of_Some in Hc as (_ & _ & ? & _ & ? & _).
      * apply Hin. intros HG. rewrite HG in Hsz. simpl in Hsz. lia.
    + intros i n Hi Hm. rewrite (Hout i n Hi). f_equal.
      apply reparent_member; [done| |done].
      apply Hin. intros HG. rewrite HG in Hsz. simpl in Hsz. lia.
  - intros Hsz. split.
    + rewrite Hfilter.
      destruct (compound_of md5hex nodes k) as [c|] eqn:Hc;
        [|by destruct (bool_decide _)].
      apply compound_of_Some in Hc as (? & _). lia.
    + intros i n Hi [_ Hk]%is_member_true. rewrite (Hout i n Hi). f_equal.
      apply reparent_small. by rewrite Hk.
  - intros i n Hi Happ. rewrite (Hout i n Hi). f_equal.
    by apply reparent_not_app.
Qed.



End compounds.

(** ** Determinism of the serializer *)

Section sorting.

Context {A : Type} (less : A → A → bool).



End sorting.

Section buildConfig.

Variable md5hex : string → string.

Lemma mapM_result_Permutation {X Y : Type} (f : X → result Y) (l1 l2 : list X)
    (o1 : list Y) :
  l1 ≡ₚ l2 → cytoscape.mapM_result f l1 = Ok o1 →
  ∃ o2, cytoscape.mapM_result f l2 = Ok o2 ∧ o1 ≡ₚ o2.
Proof.
  intros Hperm. revert o1.
  induction Hperm as [|x l l' _ IH|x y l|l l' l'' _ IH1 _ IH2]; intros o1; simpl.
  - intros [= <-]. by exists [].
  - destruct (f x) as [b|]; [simpl|done].
    destruct (cytoscape.mapM_result f l) as [bs|]; [simpl|done].
    intros [= <-]. destruct (IH bs eq_refl) as (bs' & -> & Hbs). simpl.
    exists (b :: bs'). by rewrite Hbs.
  - destruct (f y) as [by'|]; [simpl|done].
    destruct (f x) as [bx|]; [simpl|done].
    destruct (cytoscape.mapM_result f l) as [bs|]; [simpl|done].
    intros [= <-]. exists (bx :: by' :: bs). split; [done|]. apply perm_swap.
  - intros H1. destruct (IH1 o1 H1) as (o2 & H2 & Hp12).
    destruct (IH2 o2 H2) as (o3 & H3 & Hp23).
    exists o3. split; [done|]. by rewrite Hp12.
Qed.

Lemma buildConfig_spec st entries nodes edges o :
  cytoscape.buildConfig md5hex st entries nodes edges o
  = (outs ← cytoscape.mapM_result (cytoscape.buildConfig_entry md5hex st o) entries;
     Ok (nodes ++ outs.*1, edges ++ outs ≫= snd)).
Proof.
  revert nodes edges. induction entries as [|entry entries IH];
    intros nodes edges; simpl.
  - by rewrite !app_nil_r.
  - destruct (cytoscape.buildConfig_entry md5hex st o entry) as [[nd eds]|];
      [simpl|done].
    rewrite IH.
    destruct (cytoscape.mapM_result _ entries) as [outs|]; [simpl|done].
    by rewrite <- !app_assoc.
Qed.

(** The order in which the traffic map is ranged over permutes the nodes
    and the edges that [buildConfig] collects. *)
Lemma buildConfig_Permutation st entries1 entries2 o nodes1 edges1 nodes2 edges2 :
  entries1 ≡ₚ entries2 →
  cytoscape.buildConfig md5hex st entries1 [] [] o = Ok (nodes1, edges1) →
  cytoscape.buildConfig md5hex st entries2 [] [] o = Ok (nodes2, edges2) →
  nodes1 ≡ₚ nodes2 ∧ edges1 ≡ₚ edges2.
Proof.
  intros Hperm. rewrite !buildConfig_spec.
  destruct (cytoscape.mapM_result _ entries1) as [outs1|] eqn:H1; [simpl|done].
  destruct (mapM_result_Permutation _ _ _ _ Hperm H1) as (outs2 & -> & Houts).
  simpl. intros [= <- <-] [= <- <-]. by rewrite Houts.
Qed.

End buildConfig.

Section determinism.

Variable md5hex : string → string.

Implicit Types (nodes : list NodeData) (k : string) (n : NodeData).

Lemma existsb_Permutation {A : Type} (F : A → bool) (l1 l2 : list A) :
  l1 ≡ₚ l2 → existsb F l1 = existsb F l2.
Proof.
  induction 1 as [|x l l' _ IH|x y l|l l' l'' _ IH1 _ IH2]; simpl.
  - done.
  - by rewrite IH.
  - by rewrite !orb_assoc, (orb_comm (F x)).
  - by rewrite IH1.
Qed.

Lemma omap_pointwise {A B : Type} (f g : A → option B) (l : list A) :
  (∀ x, f x = g x) → omap f l = omap g l.
Proof.
  intros Hfg. induction l as [|x l IH]; [done|]. csimpl. by rewrite Hfg, IH.
Qed.

Lemma fmap_pointwise_in {A B : Type} (f g : A → B) (l : list A) :
  (∀ x, x ∈ l → f x = g x) → f <$> l = g <$> l.
Proof.
  intros Hfg. apply list_fmap_ext. intros i x Hx.
  apply Hfg. by eapply list_elem_of_lookup_2.
Qed.

Lemma group_Permutation nodes1 nodes2 k :
  nodes1 ≡ₚ nodes2 → group nodes1 k ≡ₚ group nodes2 k.
Proof. intros Hperm. unfold group. by rewrite Hperm. Qed.

Lemma compound_of_Permutation nodes1 nodes2 k :
  nodes1 ≡ₚ nodes2 → key_injective nodes1 →
  compound_of md5hex nodes1 k = compound_of md5hex nodes2 k.
Proof.
  intros Hperm Hkey.
  pose proof (group_Permutation _ _ k Hperm) as Hg.
  pose proof (Permutation_length Hg) as Hlen.
  unfold compound_of.
  destruct (group nodes1 k) as [|a [|a' G1]] eqn:H1,
    (group nodes2 k) as [|b [|b' G2]] eqn:H2; try done.
  f_equal. unfold compound.
  rewrite !(existsb_Permutation _ _ _ Hg).
  assert (a ∈ group nodes1 k) as [Ha [Happ_a Hka]%is_member_true]%elem_of_group
    by (rewrite H1; apply list_elem_of_here).
  assert (b ∈ group nodes1 k) as [Hb [Happ_b Hkb]%is_member_true]%elem_of_group
    by (rewrite H1, Hg; apply list_elem_of_here).
  destruct (Hkey a b Ha Hb Happ_a Happ_b) as [Hns Happ]; [congruence|].
  unfold cytoscape.newCompound. by rewrite Hns, Happ.
Qed.

Lemma reparent_Permutation order1 order2 nodes1 nodes2 n :
  nodes1 ≡ₚ nodes2 →
  cytoscape.iteration_order (cytoscape.grouping 0 nodes1 ∅) order1 →
  cytoscape.iteration_order (cytoscape.grouping 0 nodes2 ∅) order2 →
  n ∈ nodes1 →
  reparent md5hex order1 nodes1 n = reparent md5hex order2 nodes2 n.
Proof.
  intros Hperm [_ Hin1]%iteration_order_spec [_ Hin2]%iteration_order_spec Hn.
  unfold reparent.
  destruct (String.eqb_spec (cytoscape.NodeData.NodeType n) graph.NodeTypeApp)
    as [Happ|]; [simpl|done].
  assert (n ∈ group nodes1 (cytoscape.box_key n)) as Hg1.
  { apply elem_of_group. split; [done|]. by apply is_member_true. }
  assert (n ∈ group nodes2 (cytoscape.box_key n)) as Hg2
    by by rewrite <- (group_Permutation _ _ _ Hperm).
  rewrite (bool_decide_eq_true_2 (_ ∈ order1)), (bool_decide_eq_true_2 (_ ∈ order2)).
  - by rewrite (Permutation_length (group_Permutation _ _ _ Hperm)).
  - apply Hin2. intros HG. rewrite HG in Hg2. by apply elem_of_nil in Hg2.
  - apply Hin1. intros HG. rewrite HG in Hg1. by apply elem_of_nil in Hg1.
Qed.

(** The nodes after [groupByVersion] are the same up to their order,
    however the two maps are ranged over. *)
Lemma grouped_nodes_Permutation order1 order2 nodes1 nodes2 :
  nodes1 ≡ₚ nodes2 → key_injective nodes1 →
  cytoscape.iteration_order (cytoscape.grouping 0 nodes1 ∅) order1 →
  cytoscape.iteration_order (cytoscape.grouping 0 nodes2 ∅) order2 →
  grouped_nodes md5hex order1 nodes1 ≡ₚ grouped_nodes md5hex order2 nodes2.
Proof.
  intros Hperm Hkey Ho1 Ho2. unfold grouped_nodes. f_equiv.
  - rewrite (fmap_pointwise_in _ (reparent md5hex order2 nodes2)).
    + by rewrite Hperm.
    + intros n Hn. by apply reparent_Permutation.
  - rewrite (omap_pointwise _ (compound_of md5hex nodes2))
      by (intros k; by apply compound_of_Permutation).
    f_equiv.
    destruct (iteration_order_spec _ _ Ho1) as [Hnd1 Hin1].
    destruct (iteration_order_spec _ _ Ho2) as [Hnd2 Hin2].
    apply NoDup_Permutation; [done..|].
    intros k. rewrite Hin1, Hin2.
    pose proof (Permutation_length (group_Permutation _ _ k Hperm)).
    destruct (group nodes1 k), (group nodes2 k); done.
Qed.

Lemma key_injective_grouped order nodes :
  key_injective (grouped_nodes md5hex order nodes) → key_injective nodes.
Proof.
  intros Hkey a b Ha Hb Happ_a Happ_b Hk.
  assert (∀ n, n ∈ nodes →
            reparent md5hex order nodes n ∈ grouped_nodes md5hex order nodes)
    as Hin.
  { intros n Hn. unfold grouped_nodes. apply elem_of_app. left.
    by apply list_elem_of_fmap_2. }
  specialize (Hkey _ _ (Hin a Ha) (Hin b Hb)).
  destruct (reparent_cases md5hex order nodes a) as [Hra|Hra],
    (reparent_cases md5hex order nodes b) as [Hrb|Hrb];
    rewrite Hra, Hrb in Hkey; by apply Hkey.
Qed.

Lemma key_injective_Permutation nodes1 nodes2 :
  nodes1 ≡ₚ nodes2 → key_injective nodes1 → key_injective nodes2.
Proof.
  intros Hperm Hkey a b Ha Hb. apply Hkey; by rewrite Hperm.
Qed.


End determinism.

(** ** The orders of the sorts *)

Section string_order.

Implicit Types s : string.

Lemma string_compare_lt_trans s1 s2 s3 :
  String.compare s1 s2 = Lt → String.compare s2 s3 = Lt →
  String.compare s1 s3 = Lt.
Proof.
  revert s2 s3. induction s1 as [|a s1 IH]; intros [|b s2] [|c s3]; simpl;
    try done.
  destruct (Ascii.compare a b) eqn:Hab; [|clear IH|done];
    (destruct (Ascii.compare b c) eqn:Hbc; [| |done]).
  - apply Ascii.compare_eq_iff in Hab as ->. rewrite Hbc. apply IH.
  - apply Ascii.compare_eq_iff in Hab as ->. by rewrite Hbc.
  - apply Ascii.compare_eq_iff in Hbc as <-. by rewrite Hab.
  - unfold Ascii.compare in *. rewrite N.compare_lt_iff in Hab, Hbc.
    intros _ _.
    by rewrite (proj2 (N.compare_lt_iff _ _) (N.lt_trans _ _ _ Hab Hbc)).
Qed.

Lemma ltb_trans s1 s2 s3 :
  String.ltb s1 s2 = true → String.ltb s2 s3 = true → String.ltb s1 s3 = true.
Proof.
  unfold String.ltb. intros H12 H23.
  rewrite (string_compare_lt_trans s1 s2 s3); [done|..].
  - by destruct (String.compare s1 s2).
  - by destruct (String.compare s2 s3).
Qed.

Lemma ltb_asym s1 s2 : String.ltb s1 s2 = true → String.ltb s2 s1 = false.
Proof.
  unfold String.ltb. rewrite (String.compare_antisym s2 s1).
  by destruct (String.compare s1 s2).
Qed.

Lemma ltb_irrefl s : String.ltb s s = false.
Proof. destruct (String.ltb s s) eqn:H; [|done]. by rewrite (ltb_asym s s H) in H. Qed.

Lemma ltb_trichotomy s1 s2 :
  String.ltb s1 s2 = false → String.ltb s2 s1 = false → s1 = s2.
Proof.
  unfold String.ltb. rewrite (String.compare_antisym s2 s1).
  destruct (String.compare s1 s2) eqn:H; try done.
  intros _ _. by apply String.compare_eq_iff.
Qed.

Lemma lex_step_trans x y z (r1 r2 r3 : bool) :
  (r1 = true → r2 = true → r3 = true) →
  lex_step x y r1 = true → lex_step y z r2 = true → lex_step x z r3 = true.
Proof.
  unfold lex_step. intros Hr.
  destruct (String.eqb_spec x y) as [Exy|Exy],
    (String.eqb_spec y z) as [Eyz|Eyz],
    (String.eqb_spec x z) as [Exz|Exz]; simpl; intros H1 H2;
    try congruence; auto.
  - rewrite Exz in H1. by rewrite (ltb_asym _ _ H1) in H2.
  - by apply (ltb_trans x y z).
Qed.

Lemma lex_step_asym x y (r1 r2 : bool) :
  (r1 = true → r2 = false) →
  lex_step x y r1 = true → lex_step y x r2 = false.
Proof.
  unfold lex_step. intros Hr. rewrite (String.eqb_sym y x).
  destruct (String.eqb x y); simpl; [done|]. apply ltb_asym.
Qed.

Lemma node_less_lex a b :
  cytoscape.node_less a b
  = lex_step (cytoscape.NodeData.Namespace a) (cytoscape.NodeData.Namespace b)
      (lex_step (cytoscape.NodeData.IsGroup b) (cytoscape.NodeData.IsGroup a)
         (lex_step (cytoscape.NodeData.App a) (cytoscape.NodeData.App b)
            (lex_step (cytoscape.NodeData.Version a) (cytoscape.NodeData.Version b)
               (lex_step (cytoscape.NodeData.Service a) (cytoscape.NodeData.Service b)
                  (String.ltb (cytoscape.NodeData.Workload a)
                     (cytoscape.NodeData.Workload b)))))).
Proof.
  unfold cytoscape.node_less, lex_step.
  by rewrite (String.eqb_sym (cytoscape.NodeData.IsGroup b)).
Qed.

Lemma node_less_trans a b c :
  cytoscape.node_less a b = true → cytoscape.node_less b c = true →
  cytoscape.node_less a c = true.
Proof.
  rewrite !node_less_lex.
  apply lex_step_trans. intros H1 H2. revert H2 H1.
  apply lex_step_trans. intros H2 H1. revert H1 H2.
  repeat apply lex_step_trans. apply ltb_trans.
Qed.

Lemma node_less_asym a b :
  cytoscape.node_less a b = true → cytoscape.node_less b a = false.
Proof.
  rewrite !node_less_lex.
  repeat apply lex_step_asym. apply ltb_asym.
Qed.

Lemma edge_less_lex a b :
  cytoscape.edge_less a b
  = lex_step (cytoscape.EdgeData.Source a) (cytoscape.EdgeData.Source b)
      (String.ltb (cytoscape.EdgeData.Target a) (cytoscape.EdgeData.Target b)).
Proof.
  unfold cytoscape.edge_less, lex_step.
  destruct (String.eqb_spec (cytoscape.EdgeData.Source a) (cytoscape.EdgeData.Source b))
    as [->|Hne]; simpl.
  - by rewrite ltb_irrefl.
  - destruct (String.ltb _ _) eqn:H1; [done|].
    destruct (String.ltb (cytoscape.EdgeData.Source b) _) eqn:H2; [done|].
    by destruct Hne; apply ltb_trichotomy.
Qed.

Lemma edge_less_trans a b c :
  cytoscape.edge_less a b = true → cytoscape.edge_less b c = true →
  cytoscape.edge_less a c = true.
Proof. rewrite !edge_less_lex. apply lex_step_trans, ltb_trans. Qed.

Lemma edge_less_asym a b :
  cytoscape.edge_less a b = true → cytoscape.edge_less b a = false.
Proof. rewrite !edge_less_lex. apply lex_step_asym, ltb_asym. Qed.

End string_order.

Section insertion_sort.

Context {A : Type} (less : A → A → bool).
Hypothesis less_asym : ∀ a b, less a b = true → less b a = false.
Hypothesis less_trans :
  ∀ a b c, less a b = true → less b c = true → less a c = true.

Lemma insert_sorted_Permutation (x : A) (l : list A) :
  cytoscape.insert_sorted less x l ≡ₚ x :: l.
Proof.
  induction l as [|y l IH]; simpl; [done|].
  destruct (less x y); [done|]. by rewrite IH, Permutation_swap.
Qed.

Lemma insert_sorted_sorted (x : A) (l : list A) :
  cytoscape.sorted_by less l →
  cytoscape.sorted_by less (cytoscape.insert_sorted less x l).
Proof using less_asym less_trans.
  unfold cytoscape.sorted_by.
  induction 1 as [|y l Hl IH Hy]; simpl; [by repeat constructor|].
  destruct (less x y) eqn:Hxy.
  - constructor; [by constructor|].
    constructor; [by apply less_asym|].
    rewrite Forall_forall in Hy |- *. intros z Hz.
    destruct (less z x) eqn:Hzx; [|done].
    specialize (Hy z Hz). by rewrite (less_trans z x y Hzx Hxy) in Hy.
  - constructor; [done|].
    rewrite (insert_sorted_Permutation x l). by constructor.
Qed.

Lemma insertion_sort_spec (l : list A) :
  cytoscape.sort_Slice less l (cytoscape.insertion_sort less l).
Proof using less_asym less_trans.
  unfold cytoscape.insertion_sort, cytoscape.sort_Slice.
  assert (∀ acc, cytoscape.sorted_by less acc →
            foldl (λ acc x, cytoscape.insert_sorted less x acc) acc l ≡ₚ acc ++ l
            ∧ cytoscape.sorted_by less
                (foldl (λ acc x, cytoscape.insert_sorted less x acc) acc l)) as H.
  { induction l as [|x l IH]; intros acc Hacc; simpl.
    - by rewrite app_nil_r.
    - destruct (IH (cytoscape.insert_sorted less x acc)) as [Hp Hs];
        [by apply insert_sorted_sorted|].
      split; [|done].
      rewrite Hp, insert_sorted_Permutation. simpl. apply Permutation_middle. }
  apply (H []). constructor.
Qed.

End insertion_sort.

Section NewConfig_returns.

Variable md5hex : string → string.

(** [NewConfig], run with some iteration orders and a stable sort, returns
    a document that the relation allows: whenever [buildConfig] does not
    panic, [NewConfig] has a result. *)
Lemma NewConfig_sound st (trafficMap : graph.TrafficMap) entries order o r
    nodes edges :
  entries ≡ₚ map_to_list trafficMap →
  cytoscape.buildConfig md5hex st entries [] [] o = Ok (nodes, edges) →
  cytoscape.iteration_order (cytoscape.grouping 0 nodes ∅) order →
  cytoscape.NewConfig md5hex st entries order o = Ok r →
  cytoscape.NewConfig_rel md5hex st trafficMap o r.
Proof.
  intros Hp Hb Ho. unfold cytoscape.NewConfig, cytoscape.NewConfig_unsorted.
  rewrite Hb. simpl. intros [= <-].
  exists entries, order, nodes, edges. simpl.
  repeat split; try done.
  - apply insertion_sort_spec; [apply node_less_asym|apply node_less_trans].
  - apply insertion_sort_spec; [apply node_less_asym|apply node_less_trans].
  - apply insertion_sort_spec; [apply edge_less_asym|apply edge_less_trans].
  - apply insertion_sort_spec; [apply edge_less_asym|apply edge_less_trans].
Qed.

End NewConfig_returns.

(** ** Compound keys of well-formed namespaces *)

Section keys.

Lemma append_underscore_inj (ns1 ns2 app1 app2 : string) :
  no_underscore ns1 = true → no_underscore ns2 = true →
  ns1 +:+ "_" +:+ app1 = ns2 +:+ "_" +:+ app2 → ns1 = ns2 ∧ app1 = app2.
Proof.
  revert ns2. induction ns1 as [|c1 ns1 IH]; intros [|c2 ns2]; simpl.
  - intros _ _ [= Heq]. by split.
  - intros _ [Hc _]%andb_prop [= Heq _]. by rewrite <- Heq in Hc.
  - intros [Hc _]%andb_prop _ [= Heq _]. by rewrite Heq in Hc.
  - intros [_ H1]%andb_prop [_ H2]%andb_prop [= Hc Heq].
    destruct (IH ns2 H1 H2 Heq) as [Hns Happ]. by rewrite Hc, Hns, Happ.
Qed.

(** The compound key separates the (namespace, app) pairs of namespaces
    without underscore. *)
Lemma key_injective_no_underscore (nodes : list NodeData) :
  (∀ n, n ∈ nodes → no_underscore (cytoscape.NodeData.Namespace n) = true) →
  key_injective nodes.
Proof.
  intros Hns a b Ha Hb _ _. unfold cytoscape.box_key. intros [= Hk].
  by apply append_underscore_inj; [apply Hns..|].
Qed.

(** For namespaces without underscore the group of a key is the set of app
    nodes of one (namespace, app). *)
Lemma is_member_namespace_app (n0 n : NodeData) :
  no_underscore (cytoscape.NodeData.Namespace n0) = true →
  no_underscore (cytoscape.NodeData.Namespace n) = true →
  is_member (cytoscape.box_key n0) n = true ↔
  cytoscape.NodeData.NodeType n = graph.NodeTypeApp
  ∧ cytoscape.NodeData.Namespace n = cytoscape.NodeData.Namespace n0
  ∧ cytoscape.NodeData.App n = cytoscape.NodeData.App n0.
Proof.
  intros H0 Hn. rewrite is_member_true. split.
  - intros [Happ Hk]. split; [done|].
    unfold cytoscape.box_key in Hk. injection Hk as Hk.
    by apply append_underscore_inj.
  - intros (Happ & Hns & Ha). split; [done|].
    unfold cytoscape.box_key. by rewrite Hns, Ha.
Qed.

End keys.

(** ** The properties on concrete graphs *)

Section examples.

Ltac run := vm_compute; reflexivity.


Ltac in_list H :=
  repeat (apply elem_of_cons in H as [->|H]); [..|by apply elem_of_nil in H].

(** C6, on the workload graph: the edge from [a] to [b] carries half of the
    outbound rate of [a]. *)
Lemma percentRate_iff_below_100_witness :
  ∃ ed, cytoscape.buildConfig_edge plain workload_store workload_options
          workload_a (Some 0) = Ok ed
        ∧ cytoscape.EdgeData.PercentRate ed = "50.00".
Proof.
  eexists. split; [run|].
  destruct (percentRate_iff_below_100 plain workload_store workload_options
              workload_a (Some 0) edge_a_b _ workload_a 5%float 10%float
              eq_refl eq_refl eq_refl eq_refl eq_refl eq_refl)
    as (_ & Hshare & _).
  transitivity (cytoscape.Sprintf_2f (5 / 10 * 100)%float);
    [exact (Hshare eq_refl)|run].
Defined.

(** C1, counterexample. Two workloads of the same app and the same
    version: the group has one distinct version, and yet a compound node is
    added and both members get it as parent. *)
Lemma groupByVersion_one_version :
  let k := "box_bookinfo_reviews" in
  let nodes := [nd_reviews_v1; nd_reviews_v1_canary] in
  cytoscape.iteration_order (cytoscape.grouping 0 nodes ∅) [k]
  ∧ distinct_versions nodes k = ["v1"]
  ∧ cytoscape.groupByVersion plain [k] nodes
    = [set_Parent (cytoscape.nodeHash plain k) nd_reviews_v1;
       set_Parent (cytoscape.nodeHash plain k) nd_reviews_v1_canary;
       compound (cytoscape.nodeHash plain k) nodes nd_reviews_v1].
Proof.
  intros k nodes. split; [|split].
  - unfold cytoscape.iteration_order. vm_compute. reflexivity.
  - run.
  - run.
Qed.

(** C1, on two versions of reviews. *)
Lemma groupByVersion_compounds_witness :
  let k := "box_bookinfo_reviews" in
  let nodes := [nd_reviews_v1; nd_reviews_v2] in
  cytoscape.groupByVersion plain [k] nodes !! 0
  = Some (set_Parent (cytoscape.nodeHash plain k) nd_reviews_v1).
Proof.
  intros k nodes.
  destruct (groupByVersion_compounds plain versioned_options nodes [k] k)
    as (_ & Hmore & _).
  { unfold cytoscape.iteration_order. vm_compute. reflexivity. }
  destruct Hmore as [_ Hmembers]; [vm_compute; lia|].
  by apply Hmembers.
Defined.



End examples.

(** * Further properties *)

(** ** Nodes *)

Section nodes.

Implicit Types namespace workload app version service graphType : string.

Ltac string_cases :=
  repeat match goal with
         | |- context [String.eqb ?a ?b] => destruct (String.eqb_spec a b)
         | H : context [String.eqb ?a ?b] |- _ => destruct (String.eqb_spec a b)
         end.

(** X1. The trimming of [NewNodeExplicit] is a normal form: building a node
    again from the fields of a node it built gives the same node. *)
Theorem NewNodeExplicit_idempotent
    id namespace workload app version service nodeType graphType :
  let n := graph.NewNodeExplicit id namespace workload app version service
             nodeType graphType in
  graph.NewNodeExplicit id namespace (graph.Workload n) (graph.App n)
    (graph.Version n) (graph.Service n) nodeType graphType = n.
Proof.
  unfold graph.NewNodeExplicit.
  destruct (String.eqb nodeType graph.NodeTypeWorkload).
  - destruct (String.eqb_spec app graph.UnknownApp),
      (String.eqb_spec version graph.UnknownVersion); simpl;
      rewrite ?(proj2 (String.eqb_neq _ _)) by done; done.
  - destruct (String.eqb nodeType graph.NodeTypeApp).
    + by destruct (String.eqb graphType graph.GraphTypeVersionedApp).
    + by destruct (String.eqb nodeType graph.NodeTypeService).
Qed.

(** The results of [Id], one per return statement. *)
Lemma Id_Ok namespace workload app version service graphType id nodeType :
  graph.Id namespace workload app version service graphType = Ok (id, nodeType) →
  (namespace = "unknown" ∧ workload = "unknown" ∧ app = "unknown" ∧ service = ""
   ∧ id = "unknown_source" ∧ nodeType = graph.NodeTypeUnknown)
  ∨ (workload = "unknown" ∧ app = "unknown" ∧ service = "unknown"
     ∧ id = "svc_" +:+ namespace +:+ "_unknown"
     ∧ nodeType = graph.NodeTypeService)
  ∨ (workload_graph graphType = true ∧ graph.workloadOk workload = false
     ∧ graph.serviceOk service = true
     ∧ id = "svc_" +:+ namespace +:+ "_" +:+ service
     ∧ nodeType = graph.NodeTypeService)
  ∨ (workload_graph graphType = true ∧ graph.workloadOk workload = true
     ∧ id = "wl_" +:+ namespace +:+ "_" +:+ workload
     ∧ nodeType = graph.NodeTypeWorkload)
  ∨ (workload_graph graphType = false ∧ graph.appOk app = true
     ∧ graphType = graph.GraphTypeVersionedApp
     ∧ id = "vapp_" +:+ namespace +:+ "_" +:+ workload
     ∧ nodeType = graph.NodeTypeApp)
  ∨ (workload_graph graphType = false ∧ graph.appOk app = true
     ∧ graphType ≠ graph.GraphTypeVersionedApp
     ∧ id = "app_" +:+ namespace +:+ "_" +:+ app
     ∧ nodeType = graph.NodeTypeApp)
  ∨ (workload_graph graphType = false ∧ graph.appOk app = false
     ∧ graph.workloadOk workload = true
     ∧ id = "wl_" +:+ namespace +:+ "_" +:+ workload
     ∧ nodeType = graph.NodeTypeWorkload)
  ∨ (workload_graph graphType = false ∧ graph.appOk app = false
     ∧ graph.workloadOk workload = false ∧ graph.serviceOk service = true
     ∧ id = "svc_" +:+ namespace +:+ "_" +:+ service
     ∧ nodeType = graph.NodeTypeService).
Proof.
  unfold graph.Id. fold (workload_graph graphType).
  destruct (String.eqb graph.UnknownNamespace namespace
            && String.eqb graph.UnknownWorkload workload
            && String.eqb graph.UnknownApp app && String.eqb "" service) eqn:H1.
  { intros [= <- <-]. left.
    repeat (apply andb_prop in H1 as [H1 ?]).
    repeat match goal with H : String.eqb _ _ = true |- _ =>
             apply String.eqb_eq in H end.
    by subst. }
  destruct (String.eqb graph.UnknownWorkload workload
            && String.eqb graph.UnknownApp app
            && String.eqb graph.UnknownService service) eqn:H2.
  { intros [= <- <-]. right. left.
    repeat (apply andb_prop in H2 as [H2 ?]).
    repeat match goal with H : String.eqb _ _ = true |- _ =>
             apply String.eqb_eq in H end.
    by subst. }
  intros H. do 2 right. revert H.
  destruct (graph.workloadOk workload) eqn:Hw, (graph.appOk app) eqn:Ha,
    (graph.serviceOk service) eqn:Hs, (workload_graph graphType) eqn:Hg;
    simpl; try done;
    try (destruct (String.eqb_spec graphType graph.GraphTypeVersionedApp));
    intros [= <- <-]; tauto.
Qed.

Lemma NewNodeExplicit_frame
    id namespace workload app version service nodeType graphType :
  let n := graph.NewNodeExplicit id namespace workload app version service
             nodeType graphType in
  graph.ID n = id ∧ graph.NodeType n = nodeType
  ∧ graph.Namespace n = namespace
  ∧ graph.Edges n = [] ∧ graph.Metadata n = ∅.
Proof.
  unfold graph.NewNodeExplicit.
  by destruct (String.eqb nodeType graph.NodeTypeWorkload),
    (String.eqb nodeType graph.NodeTypeApp),
    (String.eqb graphType graph.GraphTypeVersionedApp),
    (String.eqb nodeType graph.NodeTypeService).
Qed.

(** X2. The identifier of a node built by [NewNode] can be read back from
    the fields that the trimming keeps, and the node starts in the requested
    namespace without edges or metadata. *)
Theorem NewNode_ID_from_fields
    namespace workload app version service graphType n :
  graph.NewNode namespace workload app version service graphType = Ok n →
  graph.ID n = node_id n graphType
  ∧ graph.Namespace n = namespace
  ∧ graph.Edges n = [] ∧ graph.Metadata n = ∅.
Proof.
  unfold graph.NewNode.
  destruct (graph.Id namespace workload app version service graphType)
    as [[id nodeType]|] eqn:HId; [|done].
  intros [= <-]. split; [|apply NewNodeExplicit_frame].
  apply Id_Ok in HId.
  destruct HId as [H|[H|[H|[H|[H|[H|[H|H]]]]]]]; destruct_and!; subst;
    unfold node_id, graph.NewNodeExplicit; simpl; try done.
  - by rewrite (proj2 (String.eqb_neq _ _)) by done.
Qed.

Lemma NewNode_ID_from_fields_witness :
  let n := graph.NewNodeExplicit "vapp_bookinfo_reviews-v1" "bookinfo"
             "reviews-v1" "reviews" "v1" "reviews" graph.NodeTypeApp
             graph.GraphTypeVersionedApp in
  graph.ID n = node_id n graph.GraphTypeVersionedApp
  ∧ graph.Namespace n = "bookinfo"
  ∧ graph.Edges n = [] ∧ graph.Metadata n = ∅.
Proof.
  apply (NewNode_ID_from_fields "bookinfo" "reviews-v1" "reviews" "v1"
           "reviews" graph.GraphTypeVersionedApp).
  reflexivity.
Defined.

(** X3. What a node of each type carries: a service node has a service name
    and nothing else; a workload node has a workload name, no service, and
    neither app nor version is the placeholder [unknown]; an app node has an
    app name, no service and, outside versioned-app graphs, neither workload
    nor version. *)
Theorem NewNode_fields_by_type
    namespace workload app version service graphType n :
  graph.NewNode namespace workload app version service graphType = Ok n →
  (graph.NodeType n = graph.NodeTypeUnknown
   ∧ graph.Namespace n = "unknown" ∧ graph.Service n = "")
  ∨ (graph.NodeType n = graph.NodeTypeService
     ∧ graph.Service n = service ∧ service ≠ ""
     ∧ graph.Workload n = "" ∧ graph.App n = "" ∧ graph.Version n = "")
  ∨ (graph.NodeType n = graph.NodeTypeWorkload
     ∧ graph.Workload n = workload ∧ workload ≠ "" ∧ workload ≠ "unknown"
     ∧ graph.Service n = ""
     ∧ graph.App n ≠ "unknown" ∧ graph.Version n ≠ "unknown")
  ∨ (graph.NodeType n = graph.NodeTypeApp
     ∧ graph.App n = app ∧ app ≠ "" ∧ app ≠ "unknown"
     ∧ graph.Service n = ""
     ∧ (graphType = graph.GraphTypeVersionedApp
        ∧ graph.Workload n = workload ∧ graph.Version n = version
        ∨ graphType ≠ graph.GraphTypeVersionedApp
          ∧ graph.Workload n = "" ∧ graph.Version n = "")).
Proof.
  unfold graph.NewNode.
  destruct (graph.Id namespace workload app version service graphType)
    as [[id nodeType]|] eqn:HId; [|done].
  intros [= <-]. apply Id_Ok in HId.
  assert (Hok : ∀ s, negb (String.eqb s "") && negb (String.eqb s "unknown") = true
                     → s ≠ "" ∧ s ≠ "unknown").
  { intros s [H1 H2]%andb_prop.
    by destruct (String.eqb_spec s ""), (String.eqb_spec s "unknown"). }
  assert (Htrim : ∀ s, (if String.eqb s "unknown" then "" else s) ≠ "unknown").
  { intros s. by destruct (String.eqb_spec s "unknown"). }
  destruct HId as [H|[H|[H|[H|[H|[H|[H|H]]]]]]]; destruct_and!; subst;
    unfold graph.NewNodeExplicit; simpl;
    repeat match goal with
           | H : graph.workloadOk _ = true |- _ => apply Hok in H as [??]
           | H : graph.appOk _ = true |- _ => apply Hok in H as [??]
           | H : graph.serviceOk _ = true |- _ => apply Hok in H as [??]
           end.
  - by left.
  - right; left. done.
  - right; left. done.
  - do 2 right; left. repeat split; try done; apply Htrim.
  - do 3 right. repeat split; try done. by left.
  - do 3 right. rewrite (proj2 (String.eqb_neq _ _)) by done.
    repeat split; try done. by right.
  - do 2 right; left. repeat split; try done; apply Htrim.
  - right; left. done.
Qed.

Lemma NewNode_fields_by_type_witness :
  let n := graph.NewNodeExplicit "wl_bookinfo_reviews-v1" "bookinfo"
             "reviews-v1" "unknown" "v1" "reviews" graph.NodeTypeWorkload
             graph.GraphTypeWorkload in
  graph.NodeType n = graph.NodeTypeWorkload
  ∧ graph.Workload n = "reviews-v1" ∧ graph.Service n = ""
  ∧ graph.App n ≠ "unknown" ∧ graph.Version n ≠ "unknown".
Proof.
  intros n.
  destruct (NewNode_fields_by_type "bookinfo" "reviews-v1" "unknown" "v1"
              "reviews" graph.GraphTypeWorkload n eq_refl)
    as [H|[H|[H|H]]]; [by destruct H..| |by destruct H].
  tauto.
Defined.

(** X4. The type of the node follows the graph type: on a workload or a
    service graph [Id] never names an app node, and on the other graphs it
    names an app node exactly when the app is known. *)
Theorem Id_type_by_graph namespace workload app version service graphType
    id nodeType :
  graph.Id namespace workload app version service graphType = Ok (id, nodeType) →
  (workload_graph graphType = true → nodeType ≠ graph.NodeTypeApp)
  ∧ (workload_graph graphType = false →
     nodeType = graph.NodeTypeApp ↔ graph.appOk app = true).
Proof.
  intros H. apply Id_Ok in H.
  destruct H as [H|[H|[H|[H|[H|[H|[H|H]]]]]]]; destruct_and!; subst;
    (split; [intros Hg; try done; congruence|intros Hg]);
    (split; intros Ha; try done; try congruence; by vm_compute in Ha).
Qed.

Lemma Id_type_by_graph_witness :
  "app" = graph.NodeTypeApp ↔ graph.appOk "reviews" = true.
Proof.
  exact (proj2 (Id_type_by_graph "bookinfo" "reviews-v1" "reviews" "v1"
                  "reviews" graph.GraphTypeVersionedApp
                  "vapp_bookinfo_reviews-v1" "app" eq_refl) eq_refl).
Defined.

(** X5. Identifiers separate the nodes of one graph: two nodes built by
    [NewNode] with the same identifier have the same type, and when their
    namespaces contain no underscore they have the same namespace and the
    same name. *)
Theorem NewNode_ID_injective
    ns1 w1 a1 v1 s1 ns2 w2 a2 v2 s2 graphType n1 n2 :
  graph.NewNode ns1 w1 a1 v1 s1 graphType = Ok n1 →
  graph.NewNode ns2 w2 a2 v2 s2 graphType = Ok n2 →
  graph.ID n1 = graph.ID n2 →
  graph.NodeType n1 = graph.NodeType n2
  ∧ (no_underscore ns1 = true → no_underscore ns2 = true →
     graph.Namespace n1 = graph.Namespace n2
     ∧ node_name n1 graphType = node_name n2 graphType).
Proof.
  unfold graph.NewNode.
  destruct (graph.Id ns1 w1 a1 v1 s1 graphType) as [[id1 t1]|] eqn:H1; [|done].
  destruct (graph.Id ns2 w2 a2 v2 s2 graphType) as [[id2 t2]|] eqn:H2; [|done].
  intros [= <-] [= <-].
  rewrite (proj1 (NewNodeExplicit_frame id1 ns1 w1 a1 v1 s1 t1 graphType)),
    (proj1 (NewNodeExplicit_frame id2 ns2 w2 a2 v2 s2 t2 graphType)).
  intros <-. apply Id_Ok in H1, H2.
  assert (Hinj : ∀ p x1 y1 x2 y2,
             no_underscore x1 = true → no_underscore x2 = true →
             p +:+ x1 +:+ "_" +:+ y1 = p +:+ x2 +:+ "_" +:+ y2 →
             x1 = x2 ∧ y1 = y2).
  { intros p x1 y1 x2 y2 Hx1 Hx2 Heq.
    apply append_underscore_inj; [done..|].
    induction p as [|c p IH]; [done|]. simpl in Heq. injection Heq as Heq.
    by apply IH. }
  rewrite !(proj1 (proj2 (NewNodeExplicit_frame _ _ _ _ _ _ _ _))).
  destruct H1 as [H1|[H1|[H1|[H1|[H1|[H1|[H1|H1]]]]]]];
    destruct H2 as [H2|[H2|[H2|[H2|[H2|[H2|[H2|H2]]]]]]];
    destruct_and!; subst;
    try match goal with
        | H : _ +:+ _ = _ |- _ => by simpl in H
        | H : _ = _ +:+ _ |- _ => by simpl in H
        end;
    try congruence;
    (split; [done|]); intros Hu1 Hu2;
    unfold node_name, graph.NewNodeExplicit; simpl;
    rewrite ?(proj2 (String.eqb_neq _ _)) by done; simpl;
    try (by split);
    match goal with
    | H : ?p +:+ ?x1 +:+ _ = ?p +:+ ?x2 +:+ _ |- _ ∧ ?y1 = ?y2 =>
        by destruct (Hinj p x1 y1 x2 y2 Hu1 Hu2 H) as [-> ?]
    end.
Qed.


Lemma NewNode_ID_injective_witness :
  let n1 := graph.NewNodeExplicit "wl_bookinfo_reviews-v1" "bookinfo"
              "reviews-v1" "reviews" "v1" "reviews" graph.NodeTypeWorkload
              graph.GraphTypeWorkload in
  let n2 := graph.NewNodeExplicit "wl_bookinfo_reviews-v1" "bookinfo"
              "reviews-v1" "unknown" "unknown" "" graph.NodeTypeWorkload
              graph.GraphTypeWorkload in
  graph.NodeType n1 = graph.NodeType n2
  ∧ graph.Namespace n1 = graph.Namespace n2
  ∧ node_name n1 graph.GraphTypeWorkload = node_name n2 graph.GraphTypeWorkload.
Proof.
  intros n1 n2.
  destruct (NewNode_ID_injective "bookinfo" "reviews-v1" "reviews" "v1"
              "reviews" "bookinfo" "reviews-v1" "unknown" "unknown" ""
              graph.GraphTypeWorkload n1 n2 eq_refl eq_refl eq_refl)
    as [Ht Hn].
  split; [exact Ht|]. exact (Hn eq_refl eq_refl).
Defined.

End nodes.

(** ** The edges of the store *)

Section store.

(** X6. [AddEdge] keeps the store consistent: if every edge listed on a
    node is allocated and has that node as its source, the same holds after
    the call. *)
Theorem AddEdge_edges_owned st s dest pe st' :
  edges_owned st →
  graph.AddEdge s dest st = Ok (pe, st') →
  edges_owned st'.
Proof.
  intros Hst. destruct s as [a|]; [|done].
  destruct (graph.nodes st !! a) as [n|] eqn:Hn;
    [|by unfold graph.AddEdge; simpl; rewrite Hn].
  rewrite (AddEdge_ok _ _ _ _ Hn). intros [= <- <-].
  intros b n' pe'. simpl. destruct (decide (b = a)) as [->|Hb].
  - rewrite list_lookup_insert_eq by eauto using lookup_lt_Some.
    intros [= <-]. simpl. intros [Hpe|Hpe]%elem_of_app.
    + destruct (Hst a n pe' Hn Hpe) as (e & He & Hs).
      exists e. split; [|done]. by apply load_edge_app_l.
    + apply list_elem_of_singleton in Hpe as ->.
      eexists. split; [apply load_edge_fresh|done].
  - rewrite list_lookup_insert_ne by done. intros Hn' Hpe.
    destruct (Hst b n' pe' Hn' Hpe) as (e & He & Hs).
    exists e. split; [|done]. by apply load_edge_app_l.
Qed.

Lemma AddEdge_edges_owned_witness :
  edges_owned
    {| graph.nodes := [workload_a; graph.with_Edges workload_b [Some 1]];
       graph.edges := [edge_a_b; graph.NewEdge (Some 1) (Some 0)] |}.
Proof.
  apply (AddEdge_edges_owned workload_store (Some 1) (Some 0) (Some 1));
    [|reflexivity].
  intros [|[|a]] n pe; simpl; intros [= <-]; simpl; intros Hpe.
  - apply list_elem_of_singleton in Hpe as ->. by eexists.
  - by apply elem_of_nil in Hpe.
Defined.

End store.

(** ** The options of a request *)

Section appenders.

Variables DeadNodeAppenderName ResponseTimeAppenderName
  SecurityPolicyAppenderName UnusedNodeAppenderName IstioAppenderName
  SidecarsCheckAppenderName : string.
Variable DefaultQuantile : float.
Variable ToLower : string → string.
Variable ParseFloat : string → option float.

Local Abbreviation parseAppenders :=
  (options.parseAppenders DeadNodeAppenderName ResponseTimeAppenderName
     SecurityPolicyAppenderName UnusedNodeAppenderName IstioAppenderName
     SidecarsCheckAppenderName DefaultQuantile ToLower ParseFloat).
Local Abbreviation stage_selected :=
  (selected DeadNodeAppenderName ResponseTimeAppenderName
     SecurityPolicyAppenderName UnusedNodeAppenderName IstioAppenderName
     SidecarsCheckAppenderName).

(** X7. The stages of the resolved pipeline are exactly the stages of the
    fixed pipeline whose name, or whose alias, occurs in the lowered
    [appenders] parameter, or all of them when the parameter is [_all_]; a
    request without the parameter runs all six. *)
Theorem parseAppenders_selection (params : options.Values) (o : options.Options) :
  appender.kind <$> parseAppenders params o
  = filter (λ k, stage_selected (requested_stages ToLower params) k = true)
      appender.pipeline_order
  ∧ (params !! "appenders" = None →
     appender.kind <$> parseAppenders params o = appender.pipeline_order).
Proof.
  split.
  - unfold options.parseAppenders, appender.pipeline_order, selected,
      requested_stages.
    set (csl := match params !! "appenders" with Some _ => _ | None => _ end).
    unfold stage_name, stage_alias.
    cbn [filter list_filter].
    destruct (String.eqb csl options.AppenderAll); [reflexivity|].
    repeat match goal with
           | |- context [false || options.Contains csl ?a || options.Contains csl ?b] =>
               generalize (false || options.Contains csl a || options.Contains csl b);
               intros ?
           end.
    repeat match goal with b : bool |- _ => destruct b end; reflexivity.
  - intros Hp. unfold options.parseAppenders. by rewrite Hp.
Qed.

(** X8. An [appenders] parameter that is present and empty selects no
    appender at all, where a request without the parameter selects all. *)
Theorem parseAppenders_empty_filter (params : options.Values) (o : options.Options) :
  ToLower "" = "" →
  DeadNodeAppenderName ≠ "" → ResponseTimeAppenderName ≠ "" →
  SecurityPolicyAppenderName ≠ "" → UnusedNodeAppenderName ≠ "" →
  IstioAppenderName ≠ "" → SidecarsCheckAppenderName ≠ "" →
  is_Some (params !! "appenders") →
  options.Get params "appenders" = "" →
  parseAppenders params o = [].
Proof.
  intros Hlow H1 H2 H3 H4 H5 H6 [vs Hp] Hget.
  unfold options.parseAppenders. rewrite Hp, Hget, Hlow.
  assert (Hc : ∀ name, name ≠ "" → options.Contains "" name = false).
  { intros [|c name] Hname; [done|reflexivity]. }
  rewrite !Hc by done. reflexivity.
Qed.

(** The pipeline is a selection from the six appenders, configured from the
    options. *)
Lemma parseAppenders_sublist (params : options.Values) (o : options.Options) :
  ∃ quantile,
    parseAppenders params o `sublist_of`
    [appender.DeadNodeAppender;
     appender.ResponseTimeAppender quantile
       (options.GraphType (options.vendorOptions o))
       (options.InjectServiceNodes o) (options.IncludeIstio o)
       (options.Namespaces o) (options.QueryTime o);
     appender.SecurityPolicyAppender
       (options.GraphType (options.vendorOptions o)) (options.IncludeIstio o)
       (options.Namespaces o) (options.QueryTime o);
     appender.UnusedNodeAppender (options.GraphType (options.vendorOptions o))
       (negb (String.eqb (options.App (options.nodeOptions o)) "")
        || negb (String.eqb (options.Workload (options.nodeOptions o)) "")
        || negb (String.eqb (options.Service (options.nodeOptions o)) ""));
     appender.IstioAppender; appender.SidecarsCheckAppender].
Proof.
  eexists. unfold options.parseAppenders.
  set (csl := match params !! "appenders" with Some _ => _ | None => _ end).
  repeat match goal with
         | |- context [String.eqb csl ?x || options.Contains csl ?a
                       || options.Contains csl ?b] =>
             generalize (String.eqb csl x || options.Contains csl a
                         || options.Contains csl b); intros ?
         end.
  repeat match goal with b : bool |- _ => destruct b end; simpl;
    repeat first [ apply sublist_nil | apply sublist_skip | apply sublist_cons ].
Qed.

(** X9. The unused-node appender of the pipeline carries the graph type of
    the options, and it is configured for a node graph only when
    [GetGraphKind] says the graph is a node graph. The converse fails for
    exactly one kind of request: one that sets the version and neither app,
    workload nor service. *)
Theorem UnusedNodeAppender_node_graph (params : options.Values)
    (o : options.Options) (graphType : string) (isNodeGraph : bool) :
  appender.UnusedNodeAppender graphType isNodeGraph ∈ parseAppenders params o →
  graphType = options.GraphType (options.vendorOptions o)
  ∧ (isNodeGraph = true → options.GetGraphKind o = options.graphKindNode)
  ∧ (isNodeGraph = false →
     options.GetGraphKind o = options.graphKindNode ↔
     options.Version (options.nodeOptions o) ≠ ""
     ∧ options.App (options.nodeOptions o) = ""
     ∧ options.Workload (options.nodeOptions o) = ""
     ∧ options.Service (options.nodeOptions o) = "").
Proof.
  intros Hin. destruct (parseAppenders_sublist params o) as [q Hsub].
  apply sublist_submseteq in Hsub.
  apply (elem_of_submseteq _ _ _ Hin) in Hsub.
  repeat (apply elem_of_cons in Hsub as [Hsub|Hsub]; try discriminate).
  2: by apply elem_of_nil in Hsub.
  injection Hsub as -> ->. split; [done|].
  unfold options.GetGraphKind.
  destruct (String.eqb_spec (options.App (options.nodeOptions o)) ""),
    (String.eqb_spec (options.Version (options.nodeOptions o)) ""),
    (String.eqb_spec (options.Workload (options.nodeOptions o)) ""),
    (String.eqb_spec (options.Service (options.nodeOptions o)) "");
    simpl; split; try done; intros _; split; try done; tauto.
Qed.

End appenders.

Lemma parseAppenders_empty_filter_witness :
  options.parseAppenders "deadNode" "responseTime" "securityPolicy"
    "unusedNode" "istio" "sidecarsCheck" 1%float plain (λ _, None)
    {["appenders" := [""]]}
    (options.mkOptions ∅ [] 0%Z false false ∅ 0%Z "cytoscape"
       (options.mkNodeOptions "" "" "" "") workload_options)
  = [].
Proof.
  by apply parseAppenders_empty_filter.
Defined.

Lemma UnusedNodeAppender_node_graph_witness :
  let o := options.mkOptions ∅ [] 0%Z false false ∅ 0%Z "cytoscape"
             (options.mkNodeOptions "" "" "v1" "") workload_options in
  options.GetGraphKind o = options.graphKindNode ↔
  options.Version (options.nodeOptions o) ≠ ""
  ∧ options.App (options.nodeOptions o) = ""
  ∧ options.Workload (options.nodeOptions o) = ""
  ∧ options.Service (options.nodeOptions o) = "".
Proof.
  intros o.
  refine (proj2 (proj2 (UnusedNodeAppender_node_graph "deadNode" "responseTime"
    "securityPolicy" "unusedNode" "istio" "sidecarsCheck" 1%float plain
    (λ _, None) ∅ o "workload" false _)) eq_refl).
  vm_compute. do 3 (apply elem_of_cons; right). apply elem_of_cons. by left.
Defined.

(** ** The time range of a namespace *)

Section range.



End range.

(** ** The namespaces of a request *)

Section NewOptions.

Variable business_Get : option string.
Variable GetNamespaces : list models.Namespace * option string.
Variable now : time.Time.
Variable now_at : nat → time.Time.
Variable ParseDuration : string → option time.Duration.
Variable ParseBool : string → option bool.
Variable ParseInt : string → option Z.
Variables DeadNodeAppenderName ResponseTimeAppenderName
  SecurityPolicyAppenderName UnusedNodeAppenderName IstioAppenderName
  SidecarsCheckAppenderName : string.
Variable DefaultQuantile : float.
Variable ToLower : string → string.
Variable ParseFloat : string → option float.

Local Abbreviation getAccessibleNamespaces :=
  (options.getAccessibleNamespaces business_Get GetNamespaces).
Local Abbreviation NewOptions :=
  (options.NewOptions business_Get GetNamespaces now now_at ParseDuration
     ParseBool ParseInt DeadNodeAppenderName ResponseTimeAppenderName
     SecurityPolicyAppenderName UnusedNodeAppenderName IstioAppenderName
     SidecarsCheckAppenderName DefaultQuantile ToLower ParseFloat).
Local Abbreviation namespaceInfo := (options.namespaceInfo now_at).
Local Abbreviation fetch_all := (options.fetch_all now_at).
Local Abbreviation fetch_list := (options.fetch_list now_at).

(** The two maps that the loop of [getAccessibleNamespaces] fills. *)
Lemma namespace_maps_lookup (namespaces : list models.Namespace)
    (m : gmap string bool) (ts : gmap string time.Time) (ns : string) :
  let r := foldl (λ '(namespaceMap, namespaceTimestamps) namespace,
             (<[models.Name namespace := true]> namespaceMap,
              <[models.Name namespace := models.CreationTimestamp namespace]>
                namespaceTimestamps)) (m, ts) namespaces in
  (accessible namespaces ns → r.1 !! ns = Some true)
  ∧ (¬ accessible namespaces ns → r.1 !! ns = m !! ns).
Proof.
  unfold accessible. revert m ts.
  induction namespaces as [|n namespaces IH]; intros m ts; simpl.
  - split; [by intros ?%elem_of_nil|done].
  - destruct (IH (<[models.Name n := true]> m)
                (<[models.Name n := models.CreationTimestamp n]> ts))
      as [IH1 IH2].
    split.
    + intros Hin. destruct (decide (ns ∈ models.Name <$> namespaces)) as [H|H].
      * by apply IH1.
      * rewrite (IH2 H). apply elem_of_cons in Hin as [->|Hin]; [|done].
        by rewrite lookup_insert_eq.
    + intros Hnin. rewrite not_elem_of_cons in Hnin. destruct Hnin as [Hne Hnin].
      rewrite (IH2 Hnin). by rewrite lookup_insert_ne.
Qed.

Lemma getAccessibleNamespaces_Ok acc ts :
  getAccessibleNamespaces = Ok (acc, ts) →
  business_Get = None ∧ GetNamespaces.2 = None
  ∧ ∀ ns, (accessible GetNamespaces.1 ns → acc !! ns = Some true)
          ∧ (¬ accessible GetNamespaces.1 ns → acc !! ns = None).
Proof.
  unfold options.getAccessibleNamespaces.
  destruct business_Get as [msg|]; [done|].
  destruct GetNamespaces as [namespaces [msg|]]; [done|]. simpl.
  intros [= Heq]. split; [done|]. split; [done|]. intros ns.
  pose proof (namespace_maps_lookup namespaces ∅ ∅ ns) as H.
  simpl in H. rewrite Heq in H. simpl in H. by rewrite lookup_empty in H.
Qed.

Lemma getAccessibleNamespaces_panics :
  is_panic getAccessibleNamespaces = true
  ↔ business_Get ≠ None ∨ GetNamespaces.2 ≠ None.
Proof.
  unfold options.getAccessibleNamespaces.
  destruct business_Get as [msg|]; [by split; [left|]|].
  destruct GetNamespaces as [namespaces [msg|]]; simpl.
  - by split; [right|].
  - split; [done|]. by intros [|].
Qed.

(** The entries that the loop over all accessible namespaces stores. *)
Lemma fetch_all_lookup ts d q i order (m : gmap string graph.NamespaceInfo) ns :
  (ns ∈ order ∧ ns ≠ options.NamespaceIstioSystem →
   ∃ j, fetch_all ts d q i order m !! ns = Some (namespaceInfo ts d q j ns))
  ∧ (¬ (ns ∈ order ∧ ns ≠ options.NamespaceIstioSystem) →
     fetch_all ts d q i order m !! ns = m !! ns).
Proof.
  revert i m. induction order as [|n order IH]; intros i m; simpl.
  - split; [by intros [?%elem_of_nil _]|done].
  - set (m' := if negb (String.eqb n options.NamespaceIstioSystem)
               then <[n := namespaceInfo ts d q i n]> m else m).
    destruct (IH (S i) m') as [IH1 IH2]. split.
    + intros [Hin Hne].
      destruct (decide (ns ∈ order)) as [H|H]; [by apply IH1|].
      rewrite IH2 by (by intros [? _]).
      apply elem_of_cons in Hin as [->|Hin]; [|done].
      exists i. unfold m'.
      rewrite (proj2 (String.eqb_neq _ _)) by done. simpl.
      by rewrite lookup_insert_eq.
    + intros Hnot. rewrite IH2.
      2: { intros [Hin Hne]. apply Hnot. split; [by right|done]. }
      unfold m'. destruct (String.eqb_spec n options.NamespaceIstioSystem);
        simpl; [done|].
      rewrite lookup_insert_ne; [done|].
      intros ->. apply Hnot. split; [by left|done].
Qed.

(** The loop over the listed namespaces. *)
Lemma fetch_list_Ok (acc : gmap string bool) ts d q i l
    (m m' : gmap string graph.NamespaceInfo) :
  fetch_list acc ts d q i l m = Ok m' →
  (∀ ns, ns ∈ l → is_Some (acc !! ns))
  ∧ ∀ ns, (ns ∈ l → ∃ j, m' !! ns = Some (namespaceInfo ts d q j ns))
          ∧ (ns ∉ l → m' !! ns = m !! ns).
Proof.
  revert i m. induction l as [|n l IH]; intros i m; simpl.
  - intros [= <-]. split; [by intros ? ?%elem_of_nil|].
    intros ns. split; [by intros ?%elem_of_nil|done].
  - destruct (acc !! n) as [b|] eqn:Hn; simpl; [|done].
    intros Hl. destruct (IH _ _ Hl) as [IH1 IH2]. split.
    + intros ns [->|Hin]%elem_of_cons; [by eexists|by apply IH1].
    + intros ns. destruct (IH2 ns) as [IH3 IH4]. split.
      * intros Hin. destruct (decide (ns ∈ l)) as [H|H]; [by apply IH3|].
        rewrite (IH4 H). apply elem_of_cons in Hin as [->|Hin]; [|done].
        exists i. by rewrite lookup_insert_eq.
      * intros [Hne Hnin]%not_elem_of_cons.
        rewrite (IH4 Hnin). by rewrite lookup_insert_ne.
Qed.

Lemma fetch_list_panics (acc : gmap string bool) ts d q i l
    (m : gmap string graph.NamespaceInfo) :
  is_panic (fetch_list acc ts d q i l m) = true
  ↔ ∃ ns, ns ∈ l ∧ acc !! ns = None.
Proof.
  revert i m. induction l as [|n l IH]; intros i m; simpl.
  - split; [done|]. by intros (ns & ?%elem_of_nil & _).
  - destruct (acc !! n) as [b|] eqn:Hn; simpl.
    + rewrite IH. split.
      * intros (ns & Hin & Hns). exists ns. split; [by right|done].
      * intros (ns & [->|Hin]%elem_of_cons & Hns);
          [by rewrite Hn in Hns|by exists ns].
    + split; [|done]. intros _. exists n. split; [by left|done].
Qed.

Lemma elem_of_keys {V : Type} (m : gmap string V) (k : string) :
  k ∈ (map_to_list m).*1 ↔ is_Some (m !! k).
Proof.
  rewrite list_elem_of_fmap. split.
  - intros ([k' v] & -> & Hkv%elem_of_map_to_list). by exists v.
  - intros [v Hv]. exists (k, v). split; [done|]. by apply elem_of_map_to_list.
Qed.

Lemma accessible_is_Some (acc : gmap string bool) ts ns :
  getAccessibleNamespaces = Ok (acc, ts) →
  is_Some (acc !! ns) ↔ accessible GetNamespaces.1 ns.
Proof.
  intros (_ & _ & H)%getAccessibleNamespaces_Ok. destruct (H ns) as [H1 H2].
  split.
  - intros [b Hb].
    destruct (decide (ns ∈ models.Name <$> GetNamespaces.1)) as [|Hn];
      [done|]. rewrite (H2 Hn) in Hb. done.
  - intros Ha. rewrite (H1 Ha). by eexists.
Qed.

(** X11. Which namespaces the options of a request cover. A request for
    [all] covers every namespace the business layer lists except
    [istio-system]; otherwise a [namespaces] parameter that is not empty
    covers the namespaces between its commas; otherwise the path covers its
    one namespace, or none when it has none. *)
Theorem NewOptions_namespaces order vars params o :
  NewOptions order vars params = Ok o →
  cytoscape.iteration_order (options.AccessibleNamespaces o) order →
  ∀ ns, is_Some (options.Namespaces o !! ns)
        ↔ requested GetNamespaces.1 vars params ns.
Proof.
  unfold options.NewOptions, requested, fetch_all_requested.
  destruct getAccessibleNamespaces as [[acc ts]|] eqn:Hacc; [|done]. simpl.
  set (d := match ParseDuration _ with Some _ => _ | None => _ end).
  set (q := default (time.Time_Unix now) _).
  destruct (String.eqb (options.Get params "namespaces") options.NamespaceAll
            || String.eqb (options.Get params "namespaces") ""
               && String.eqb (options.Var vars "namespace") options.NamespaceAll).
  - simpl. intros [= <-]. simpl. intros Hord ns.
    destruct (fetch_all_lookup ts d q 0 order ∅ ns) as [H1 H2].
    rewrite <- (accessible_is_Some acc ts ns Hacc), <- (elem_of_keys acc ns).
    unfold cytoscape.iteration_order in Hord. rewrite <- Hord.
    split.
    + intros [info Hinfo].
      destruct (decide (ns ∈ order ∧ ns ≠ options.NamespaceIstioSystem))
        as [|Hn]; [done|].
      by rewrite (H2 Hn), lookup_empty in Hinfo.
    + intros H. destruct (H1 H) as [j ->]. by eexists.
  - destruct (String.eqb_spec (options.Get params "namespaces") ""); simpl.
    + destruct (String.eqb_spec (options.Var vars "namespace") ""); simpl.
      * intros [= <-]. simpl. intros _ ns. rewrite lookup_empty. split.
        -- by intros [? ?].
        -- intros [-> Hne]. done.
      * destruct (acc !! options.Var vars "namespace") as [b|] eqn:Hb;
          simpl; [|done].
        intros [= <-]. simpl. intros _ ns. split.
        -- intros [info Hinfo].
           destruct (decide (ns = options.Var vars "namespace")) as [->|Hne];
             [done|]. by rewrite lookup_insert_ne, lookup_empty in Hinfo.
        -- intros [-> _]. rewrite lookup_insert_eq. by eexists.
    + destruct (fetch_list acc ts d q 0 _ ∅) as [nsmap|] eqn:Hl; simpl; [|done].
      intros [= <-]. simpl. intros _ ns.
      destruct (fetch_list_Ok _ _ _ _ _ _ _ _ Hl) as [_ H].
      destruct (H ns) as [H1 H2]. split.
      * intros [info Hinfo].
        destruct (decide
          (ns ∈ options.Split (options.Get params "namespaces") ","))
          as [|Hn]; [done|].
        by rewrite (H2 Hn), lookup_empty in Hinfo.
      * intros Hin. destruct (H1 Hin) as [j ->]. by eexists.
Qed.

Lemma resolveNamespaceDuration_le (t nsCreationTime : time.Time)
    (requestedRange : time.Duration) (queryTime : Z) :
  (options.resolveNamespaceDuration t nsCreationTime requestedRange queryTime
   ≤ requestedRange)%Z.
Proof.
  unfold options.resolveNamespaceDuration.
  destruct (negb (time.IsZero nsCreationTime)); [|lia].
  match goal with
  | |- context [(?a <? ?b)%Z] => destruct (Z.ltb_spec a b)
  end; lia.
Qed.

(** X12. Every namespace that the options cover is one the business layer
    lists; its entry carries its own name, and a duration that is at most
    the duration of the request. *)
Theorem NewOptions_namespace_entries order vars params o ns info :
  NewOptions order vars params = Ok o →
  cytoscape.iteration_order (options.AccessibleNamespaces o) order →
  options.Namespaces o !! ns = Some info →
  accessible GetNamespaces.1 ns
  ∧ options.AccessibleNamespaces o !! ns = Some true
  ∧ graph.Name info = ns
  ∧ (graph.Duration info ≤ options.Duration o)%Z.
Proof.
  intros HNew Hord Hinfo.
  assert (Hreq : is_Some (options.Namespaces o !! ns)) by by eexists.
  revert HNew Hord Hinfo Hreq.
  unfold options.NewOptions.
  destruct getAccessibleNamespaces as [[acc ts]|] eqn:Hacc; [|done]. simpl.
  set (d := match ParseDuration _ with Some _ => _ | None => _ end).
  set (q := default (time.Time_Unix now) _).
  assert (Hentry : ∀ j, graph.Name (namespaceInfo ts d q j ns) = ns
                        ∧ (graph.Duration (namespaceInfo ts d q j ns) ≤ d)%Z).
  { intros j. split; [done|]. apply resolveNamespaceDuration_le. }
  assert (Hsome : is_Some (acc !! ns) →
                  accessible GetNamespaces.1 ns ∧ acc !! ns = Some true).
  { intros Ha%(accessible_is_Some _ _ _ Hacc). split; [done|].
    apply getAccessibleNamespaces_Ok in Hacc as (_ & _ & H). by apply H. }
  destruct (String.eqb (options.Get params "namespaces") options.NamespaceAll
            || String.eqb (options.Get params "namespaces") ""
               && String.eqb (options.Var vars "namespace") options.NamespaceAll).
  - simpl. intros [= <-]. simpl. intros Hord Hinfo _.
    destruct (fetch_all_lookup ts d q 0 order ∅ ns) as [H1 H2].
    destruct (decide (ns ∈ order ∧ ns ≠ options.NamespaceIstioSystem))
      as [Hin|Hn]; [|by rewrite (H2 Hn), lookup_empty in Hinfo].
    destruct (H1 Hin) as [j Hj]. rewrite Hj in Hinfo. injection Hinfo as <-.
    destruct (Hentry j) as [? ?]. destruct Hsome as [? ?]; [|done].
    apply elem_of_keys. unfold cytoscape.iteration_order in Hord.
    rewrite <- Hord. by destruct Hin.
  - destruct (String.eqb_spec (options.Get params "namespaces") ""); simpl.
    + destruct (String.eqb_spec (options.Var vars "namespace") ""); simpl.
      * intros [= <-]. simpl. by rewrite lookup_empty.
      * destruct (acc !! options.Var vars "namespace") as [b|] eqn:Hb;
          simpl; [|done].
        intros [= <-]. simpl. intros _ Hinfo _.
        destruct (decide (ns = options.Var vars "namespace")) as [->|Hne];
          [|by rewrite lookup_insert_ne, lookup_empty in Hinfo].
        rewrite lookup_insert_eq in Hinfo. injection Hinfo as <-.
        destruct (Hentry 0) as [? ?]. destruct Hsome as [? ?]; [by eexists|done].
    + destruct (fetch_list acc ts d q 0 _ ∅) as [nsmap|] eqn:Hl; simpl; [|done].
      intros [= <-]. simpl. intros _ Hinfo _.
      destruct (fetch_list_Ok _ _ _ _ _ _ _ _ Hl) as [Hall H].
      destruct (H ns) as [H1 H2].
      destruct (decide
        (ns ∈ options.Split (options.Get params "namespaces") ","))
        as [Hin|Hn]; [|by rewrite (H2 Hn), lookup_empty in Hinfo].
      destruct (H1 Hin) as [j Hj]. rewrite Hj in Hinfo. injection Hinfo as <-.
      destruct (Hentry j) as [? ?]. destruct Hsome as [? ?]; [by apply Hall|done].
Qed.

(** X13. [NewOptions] panics exactly when the business layer fails, or the
    listing of the namespaces fails, or the request, not asking for all
    namespaces, names a namespace that is not listed: one between the commas
    of the [namespaces] parameter or, without that parameter, the one of
    the path. *)
Theorem NewOptions_panics_iff order vars params :
  is_panic (NewOptions order vars params) = true
  ↔ business_Get ≠ None ∨ GetNamespaces.2 ≠ None
    ∨ names_inaccessible GetNamespaces.1 vars params.
Proof.
  unfold options.NewOptions, names_inaccessible, fetch_all_requested.
  destruct getAccessibleNamespaces as [[acc ts]|] eqn:Hacc; simpl.
  2: { split; [|done]. intros _.
       destruct (proj1 getAccessibleNamespaces_panics) as [H|H];
         [by rewrite Hacc|by left|by right; left]. }
  set (d := match ParseDuration _ with Some _ => _ | None => _ end).
  set (q := default (time.Time_Unix now) _).
  pose proof (getAccessibleNamespaces_Ok _ _ Hacc) as (Hb & Hg & _).
  assert (Hnone : ∀ ns, acc !! ns = None ↔ ¬ accessible GetNamespaces.1 ns).
  { intros ns. rewrite <- (accessible_is_Some _ _ ns Hacc).
    by rewrite eq_None_not_Some. }
  destruct (String.eqb (options.Get params "namespaces") options.NamespaceAll
            || String.eqb (options.Get params "namespaces") ""
               && String.eqb (options.Var vars "namespace") options.NamespaceAll).
  { simpl. split; [done|]. by intros [|[|[? _]]]. }
  destruct (String.eqb_spec (options.Get params "namespaces") ""); simpl.
  - destruct (String.eqb_spec (options.Var vars "namespace") ""); simpl.
    + split; [done|]. intros [|[|[_ (ns & _ & -> & ?)]]]; done.
    + destruct (acc !! options.Var vars "namespace") as [b|] eqn:Hv; simpl.
      * split; [done|]. intros [|[|[_ (ns & Hns & -> & _)]]]; [done..|].
        apply Hnone in Hns. by rewrite Hv in Hns.
      * split; [|done]. intros _. do 2 right. split; [done|].
        exists (options.Var vars "namespace"). by rewrite <- Hnone.
  - destruct (fetch_list acc ts d q 0 _ ∅) as [nsmap|] eqn:Hl; simpl.
    + split; [done|]. intros [|[|[_ (ns & Hns & Hin)]]]; [done..|].
      assert (is_panic (fetch_list acc ts d q 0
                (options.Split (options.Get params "namespaces") ",") ∅) = true)
        as Hp; [|by rewrite Hl in Hp].
      apply fetch_list_panics. exists ns. by rewrite Hnone.
    + split; [|done]. intros _. do 2 right. split; [done|].
      assert (is_panic (fetch_list acc ts d q 0
                (options.Split (options.Get params "namespaces") ",") ∅) = true)
        as Hp by by rewrite Hl.
      apply fetch_list_panics in Hp as (ns & Hin & Hns).
      exists ns. by rewrite <- Hnone.
Qed.

(** X14. A [namespaces] parameter that is not empty overrides the namespace
    of the path: the options, or the panic, are the same whatever the path
    names. *)
Theorem NewOptions_namespaces_override order vars params namespace :
  options.Get params "namespaces" ≠ "" →
  NewOptions order (<["namespace" := namespace]> vars) params
  = NewOptions order vars params.
Proof.
  intros Hq. unfold options.NewOptions, options.Var.
  rewrite !lookup_insert_ne by done.
  by rewrite (proj2 (String.eqb_neq (options.Get params "namespaces") "")).
Qed.

(** X15. The options of a request are consistent: the timestamp of the
    vendor is the query time; graph type, grouping and vendor are never
    empty; a service graph injects service nodes whatever the request says;
    and every appender of the pipeline carries the graph type, the
    namespaces, the query time and the two flags of the options. *)
Theorem NewOptions_consistent order vars params o :
  NewOptions order vars params = Ok o →
  options.Timestamp (options.vendorOptions o) = options.QueryTime o
  ∧ options.GraphType (options.vendorOptions o) ≠ ""
  ∧ options.GroupBy (options.vendorOptions o) ≠ ""
  ∧ options.Vendor o ≠ ""
  ∧ (options.GraphType (options.vendorOptions o) = graph.GraphTypeService →
     options.InjectServiceNodes o = true)
  ∧ Forall (configured_from o) (options.Appenders o).
Proof.
  unfold options.NewOptions.
  destruct getAccessibleNamespaces as [[acc ts]|] eqn:Hacc; [|done]. simpl.
  match goal with
  | |- (?x ≫= _) = _ → _ => destruct x as [nsmap|]; [|done]
  end.
  simpl. intros [= <-]. simpl.
  assert (Hdef : ∀ s dflt : string,
             dflt ≠ "" → (if String.eqb "" s then dflt else s) ≠ "").
  { intros s dflt Hd. by destruct (String.eqb_spec "" s). }
  repeat split; try (by apply Hdef).
  - intros ->. reflexivity.
  - match goal with
    | |- Forall _ (options.parseAppenders _ _ _ _ _ _ _ _ _ _ ?o') =>
        destruct (parseAppenders_sublist DeadNodeAppenderName
                    ResponseTimeAppenderName SecurityPolicyAppenderName
                    UnusedNodeAppenderName IstioAppenderName
                    SidecarsCheckAppenderName DefaultQuantile ToLower
                    ParseFloat params o') as [quantile Hsub]
    end.
    apply sublist_submseteq in Hsub.
    apply Forall_forall. intros a Ha.
    apply (elem_of_submseteq _ _ _ Ha) in Hsub.
    repeat (apply elem_of_cons in Hsub as [->|Hsub]; [done|]).
    by apply elem_of_nil in Hsub.
Qed.

End NewOptions.

Section request.

Lemma example_NewOptions_all :
  example_NewOptions ["bookinfo"; "istio-system"] {["namespace" := "all"]} ∅
  = Ok example_options.
Proof. vm_compute. reflexivity. Qed.

Lemma example_iteration_order :
  cytoscape.iteration_order (options.AccessibleNamespaces example_options)
    ["bookinfo"; "istio-system"].
Proof.
  unfold cytoscape.iteration_order. vm_compute.
  first [reflexivity | apply perm_swap].
Qed.

Lemma NewOptions_namespaces_witness :
  is_Some (options.Namespaces example_options !! "bookinfo")
  ↔ requested example_namespaces {["namespace" := "all"]} ∅ "bookinfo".
Proof.
  exact (NewOptions_namespaces None (example_namespaces, None) example_now
           (λ _, example_now) example_ParseDuration example_ParseBool
           (λ _, None) "deadNode" "responseTime" "securityPolicy" "unusedNode"
           "istio" "sidecarsCheck" 1%float plain (λ _, None)
           ["bookinfo"; "istio-system"] {["namespace" := "all"]} ∅
           example_options example_NewOptions_all example_iteration_order
           "bookinfo").
Defined.

Lemma NewOptions_namespace_entries_witness :
  let info := graph.mkNamespaceInfo "bookinfo" (300 * time.Second)%Z in
  accessible example_namespaces "bookinfo"
  ∧ options.AccessibleNamespaces example_options !! "bookinfo" = Some true
  ∧ graph.Name info = "bookinfo"
  ∧ (graph.Duration info ≤ options.Duration example_options)%Z.
Proof.
  exact (NewOptions_namespace_entries None (example_namespaces, None)
           example_now (λ _, example_now) example_ParseDuration
           example_ParseBool (λ _, None) "deadNode" "responseTime"
           "securityPolicy" "unusedNode" "istio" "sidecarsCheck" 1%float plain
           (λ _, None) ["bookinfo"; "istio-system"] {["namespace" := "all"]} ∅
           example_options "bookinfo"
           (graph.mkNamespaceInfo "bookinfo" (300 * time.Second)%Z)
           example_NewOptions_all example_iteration_order eq_refl).
Defined.

Lemma NewOptions_namespaces_override_witness :
  example_NewOptions ["bookinfo"; "istio-system"]
    (<["namespace" := "default"]> ∅) {["namespaces" := ["bookinfo"]]}
  = example_NewOptions ["bookinfo"; "istio-system"] ∅
      {["namespaces" := ["bookinfo"]]}.
Proof.
  apply (NewOptions_namespaces_override None (example_namespaces, None)
           example_now (λ _, example_now) example_ParseDuration
           example_ParseBool (λ _, None) "deadNode" "responseTime"
           "securityPolicy" "unusedNode" "istio" "sidecarsCheck" 1%float plain
           (λ _, None)).
  vm_compute. discriminate.
Defined.

Lemma NewOptions_consistent_witness :
  options.Timestamp (options.vendorOptions example_options)
  = options.QueryTime example_options
  ∧ options.GraphType (options.vendorOptions example_options) ≠ ""
  ∧ options.GroupBy (options.vendorOptions example_options) ≠ ""
  ∧ options.Vendor example_options ≠ ""
  ∧ (options.GraphType (options.vendorOptions example_options)
     = graph.GraphTypeService →
     options.InjectServiceNodes example_options = true)
  ∧ Forall (configured_from example_options)
      (options.Appenders example_options).
Proof.
  exact (NewOptions_consistent None (example_namespaces, None) example_now
           (λ _, example_now) example_ParseDuration example_ParseBool
           (λ _, None) "deadNode" "responseTime" "securityPolicy" "unusedNode"
           "istio" "sidecarsCheck" 1%float plain (λ _, None)
           ["bookinfo"; "istio-system"] {["namespace" := "all"]} ∅
           example_options example_NewOptions_all).
Defined.

End request.

(** ** The serialized nodes and edges *)

Section serialization.

Variable md5hex : string → string.

Lemma assign_if_present_frame {A X Y : Type} (P : X → Y) md k
    (cast : graph.value → result A) (set : A → X → X) (x x' : X) :
  (∀ v x, P (set v x) = P x) →
  cytoscape.assign_if_present md k cast set x = Ok x' → P x' = P x.
Proof.
  intros Hset [->|[v ->]]%assign_if_present_ok; [done|apply Hset].
Qed.

Ltac float_cases :=
  repeat match goal with
         | |- context [if (?a <? ?b)%float then _ else _] =>
             destruct (a <? b)%float
         end.

Ltac rate k :=
  destruct (cytoscape.getRate _ k) as [?|]; [simpl|done].

Ltac node_rates :=
  unfold cytoscape.addNodeTelemetry;
  rate "rate";
  match goal with
  | |- context [if (0 <? ?r)%float then _ else _] => destruct (0 <? r)%float
  end;
  [rate "rate3xx"; rate "rate4xx"; rate "rate5xx"|];
  rate "rateOut"; rate "tcpSentRate"; rate "tcpSentRateOut";
  float_cases; simpl; intros [= <-].

Lemma addNodeTelemetry_identity s nd nd' :
  cytoscape.addNodeTelemetry s nd = Ok nd' → identity nd' = identity nd.
Proof. node_rates; reflexivity. Qed.

Lemma addNodeTelemetry_rates s nd nd' :
  http_rates nd = ("", "", "", "") →
  cytoscape.addNodeTelemetry s nd = Ok nd' →
  cytoscape.NodeData.Rate nd' = "" → http_rates nd' = ("", "", "", "").
Proof.
  intros [= H0 H3 H4 H5]. node_rates; unfold http_rates; simpl;
    rewrite ?H0, ?H3, ?H4, ?H5; try done;
    by intros ?%Sprintf_2f_nonempty.
Qed.

Lemma bind_assign_frame {A X Y Z : Type} (P : X → Y) md k
    (cast : graph.value → result A) (set : A → X → X) (x : X)
    (f : X → result Z) (z : Z) :
  (∀ v x, P (set v x) = P x) →
  cytoscape.assign_if_present md k cast set x ≫= f = Ok z →
  ∃ x1, P x1 = P x ∧ f x1 = Ok z.
Proof.
  intros Hset.
  destruct (cytoscape.assign_if_present md k cast set x) as [x1|] eqn:H;
    [simpl|done].
  intros Hf. exists x1. split; [|done]. by apply (assign_if_present_frame P) in H.
Qed.

Lemma buildConfig_node_fields id n nd :
  cytoscape.buildConfig_node md5hex id n = Ok nd →
  identity nd
  = (cytoscape.nodeHash md5hex id, "", graph.NodeType n, graph.Namespace n,
     graph.Workload n, graph.App n, graph.Version n, graph.Service n, "")
  ∧ (cytoscape.NodeData.Rate nd = "" → http_rates nd = ("", "", "", "")).
Proof.
  unfold cytoscape.buildConfig_node.
  destruct (cytoscape.addNodeTelemetry n _) as [nd0|] eqn:H0; [simpl|done].
  pose proof (addNodeTelemetry_identity _ _ _ H0) as Hid.
  pose proof (λ H, addNodeTelemetry_rates _ _ _ H H0) as Hrate.
  specialize (Hrate eq_refl).
  set (P := λ nd : NodeData, (identity nd, http_rates nd)). intros H.
  assert (HP : P nd = P nd0).
  { repeat (apply (bind_assign_frame P) in H as (? & ? & H); [|done]).
    apply (assign_if_present_frame P) in H; [|done]. congruence. }
  pose proof (f_equal fst HP) as HPid. pose proof (f_equal snd HP) as HPrate.
  simpl in HPid, HPrate. split; [by rewrite HPid|].
  rewrite HPrate. intros Hr. apply Hrate.
  unfold http_rates in HPrate. congruence.
Qed.

Ltac assign k :=
  match goal with
  | |- context [?md !! k] => destruct (md !! k) as [[]|]
  end; simpl; try done.

Ltac edge_rates :=
  unfold cytoscape.addEdgeTelemetry, cytoscape.assign_if_present;
  rate "rate";
  match goal with
  | |- context [if (0 <? ?r)%float then _ else _] => destruct (0 <? r)%float
  end;
  [rate "rate3xx"; rate "rate4xx"; rate "rate5xx"; assign "responseTime";
   (destruct (graph.load_node _ _) as [?|]; [simpl|done]); rate "rateOut"
  |(destruct (graph.load_node _ _) as [?|]; [simpl|done]); assign "isUnused"];
  assign "isMTLS"; rate "tcpSentRate"; float_cases; simpl; intros [= <-].

Lemma addEdgeTelemetry_ends st ed e o ed' :
  cytoscape.addEdgeTelemetry st ed e o = Ok ed' → ends ed' = ends ed.
Proof. edge_rates; reflexivity. Qed.

Lemma addEdgeTelemetry_rates st ed e o ed' :
  cytoscape.EdgeData.Rate ed = "" →
  http_telemetry ed = ("", "", "", "", "", "") →
  cytoscape.EdgeData.IsUnused ed = false →
  cytoscape.addEdgeTelemetry st ed e o = Ok ed' →
  (cytoscape.EdgeData.Rate ed' = "" →
   http_telemetry ed' = ("", "", "", "", "", ""))
  ∧ (cytoscape.EdgeData.IsUnused ed' = true →
     cytoscape.EdgeData.Rate ed' = "").
Proof.
  intros H0 [= H3 H4 H5 He Hr Ht] Hu.
  edge_rates; unfold http_telemetry; simpl;
    rewrite ?H0, ?H3, ?H4, ?H5, ?He, ?Hr, ?Ht, ?Hu;
    (split; [try done; by intros ?%Sprintf_2f_nonempty|done]).
Qed.

Lemma buildConfig_edge_fields st o n pe ed :
  cytoscape.buildConfig_edge md5hex st o n pe = Ok ed →
  cytoscape.EdgeData.Source ed = cytoscape.nodeHash md5hex (graph.ID n)
  ∧ (∃ e dest,
       graph.load_edge st pe = Ok e
       ∧ graph.load_node st (graph.Dest e) = Ok dest
       ∧ cytoscape.EdgeData.Target ed
         = cytoscape.nodeHash md5hex (graph.ID dest))
  ∧ (cytoscape.EdgeData.Rate ed = "" →
     http_telemetry ed = ("", "", "", "", "", ""))
  ∧ (cytoscape.EdgeData.IsUnused ed = true →
     cytoscape.EdgeData.Rate ed = "").
Proof.
  unfold cytoscape.buildConfig_edge.
  destruct (graph.load_edge st pe) as [e|] eqn:He; [simpl|done].
  destruct (graph.load_node st (graph.Dest e)) as [dest|] eqn:Hd; [simpl|done].
  match goal with
  | |- (?p ≫= _) = _ → _ => destruct p as [protocol|]; [simpl|done]
  end.
  intros H.
  pose proof (addEdgeTelemetry_ends _ _ _ _ _ H) as [= _ Hs Ht].
  destruct ((λ H0 H1 H2, addEdgeTelemetry_rates _ _ _ _ _ H0 H1 H2 H)
              eq_refl eq_refl eq_refl) as [Hr Hu].
  split; [done|]. split; [by exists e, dest|]. by split.
Qed.

(** X16. A serialized node carries the hash of its key in the traffic map
    and the type, namespace, workload, app, version and service of the
    graph node; it has no parent and is no group. An HTTP rate by response
    code is present only on a node that has an HTTP rate. *)
Theorem buildConfig_node_identity id n nd :
  cytoscape.buildConfig_node md5hex id n = Ok nd →
  identity nd
  = (cytoscape.nodeHash md5hex id, "", graph.NodeType n, graph.Namespace n,
     graph.Workload n, graph.App n, graph.Version n, graph.Service n, "")
  ∧ (cytoscape.NodeData.Rate nd = "" → http_rates nd = ("", "", "", "")).
Proof. apply buildConfig_node_fields. Qed.

(** X17. A serialized edge runs from the hash of the identifier of the
    node that lists it to the hash of the identifier of its destination.
    Without an HTTP rate it carries no other HTTP telemetry (no rate by
    response code, no percentages, no response time), and it is flagged
    unused only without an HTTP rate. *)
Theorem buildConfig_edge_telemetry st o n pe ed :
  cytoscape.buildConfig_edge md5hex st o n pe = Ok ed →
  cytoscape.EdgeData.Source ed = cytoscape.nodeHash md5hex (graph.ID n)
  ∧ (∃ e dest,
       graph.load_edge st pe = Ok e
       ∧ graph.load_node st (graph.Dest e) = Ok dest
       ∧ cytoscape.EdgeData.Target ed
         = cytoscape.nodeHash md5hex (graph.ID dest))
  ∧ (cytoscape.EdgeData.Rate ed = "" →
     http_telemetry ed = ("", "", "", "", "", ""))
  ∧ (cytoscape.EdgeData.IsUnused ed = true →
     cytoscape.EdgeData.Rate ed = "").
Proof. apply buildConfig_edge_fields. Qed.

Lemma mapM_result_Forall2 {X Y : Type} (f : X → result Y) (l : list X)
    (outs : list Y) :
  cytoscape.mapM_result f l = Ok outs → Forall2 (λ x y, f x = Ok y) l outs.
Proof.
  revert outs. induction l as [|x l IH]; intros outs; simpl.
  - intros [= <-]. constructor.
  - destruct (f x) as [y|] eqn:Hx; [simpl|done].
    destruct (cytoscape.mapM_result f l) as [ys|]; [simpl|done].
    intros [= <-]. constructor; [done|by apply IH].
Qed.

Lemma Forall2_elem_of_l {X Y : Type} (R : X → Y → Prop) l k x :
  Forall2 R l k → x ∈ l → ∃ y, y ∈ k ∧ R x y.
Proof.
  intros H [i Hi]%list_elem_of_lookup.
  destruct (Forall2_lookup_l _ _ _ _ _ H Hi) as (y & Hy & HR).
  exists y. split; [by eapply list_elem_of_lookup_2|done].
Qed.

Lemma Forall2_elem_of_r {X Y : Type} (R : X → Y → Prop) l k y :
  Forall2 R l k → y ∈ k → ∃ x, x ∈ l ∧ R x y.
Proof.
  intros H [i Hi]%list_elem_of_lookup.
  destruct (Forall2_lookup_r _ _ _ _ _ H Hi) as (x & Hx & HR).
  exists x. split; [by eapply list_elem_of_lookup_2|done].
Qed.

(** What [buildConfig] collects: for each entry its node, and the edges
    that the node lists. *)
Lemma buildConfig_outs st entries o nodes edges :
  cytoscape.buildConfig md5hex st entries [] [] o = Ok (nodes, edges) →
  ∃ outs,
    Forall2 (λ entry out, cytoscape.buildConfig_entry md5hex st o entry = Ok out)
      entries outs
    ∧ nodes = outs.*1 ∧ edges = outs ≫= snd.
Proof.
  rewrite buildConfig_spec.
  destruct (cytoscape.mapM_result _ entries) as [outs|] eqn:Hm; [simpl|done].
  intros [= <- <-]. exists outs. split; [by apply mapM_result_Forall2|done].
Qed.

Lemma buildConfig_entry_Ok st o entry nd eds :
  cytoscape.buildConfig_entry md5hex st o entry = Ok (nd, eds) →
  ∃ n, graph.load_node st entry.2 = Ok n
       ∧ cytoscape.buildConfig_node md5hex entry.1 n = Ok nd
       ∧ Forall2 (λ pe ed, cytoscape.buildConfig_edge md5hex st o n pe = Ok ed)
           (graph.Edges n) eds.
Proof.
  unfold cytoscape.buildConfig_entry.
  destruct (graph.load_node st entry.2) as [n|] eqn:Hl; [simpl|done].
  destruct (cytoscape.buildConfig_node md5hex entry.1 n) as [nd'|] eqn:Hnd;
    [simpl|done].
  destruct (cytoscape.mapM_result _ (graph.Edges n)) as [eds'|] eqn:Hm;
    [simpl|done].
  intros [= <- <-]. exists n. split; [done|]. split; [done|].
  by apply mapM_result_Forall2.
Qed.

(** The nodes that [buildConfig] collects keep their identifiers through
    the grouping. *)
Lemma add_compounds_Id o order nodes nd :
  nd ∈ nodes →
  ∃ nd', nd' ∈ cytoscape.add_compounds md5hex o order nodes
         ∧ cytoscape.NodeData.Id nd' = cytoscape.NodeData.Id nd.
Proof.
  intros Hnd. unfold cytoscape.add_compounds. destruct (_ && _); [|by exists nd].
  rewrite groupByVersion_spec. exists (reparent md5hex order nodes nd).
  split.
  - apply elem_of_app. left. by apply list_elem_of_fmap_2.
  - by destruct (reparent_cases md5hex order nodes nd) as [->| ->].
Qed.

(** X18. The edges of a document refer to nodes of the document: when the
    traffic map is keyed by the identifiers of its nodes and holds the
    destination of every edge, the source and the target of every edge that
    [NewConfig] returns are identifiers of nodes that it returns. *)
Theorem NewConfig_edges_refer_to_nodes st (trafficMap : graph.TrafficMap) o r ed :
  keyed_by_ID st trafficMap →
  closed st trafficMap →
  cytoscape.NewConfig_rel md5hex st trafficMap o r →
  ed ∈ edge_array r →
  (∃ nd, nd ∈ node_array r
         ∧ cytoscape.NodeData.Id nd = cytoscape.EdgeData.Source ed)
  ∧ (∃ nd, nd ∈ node_array r
           ∧ cytoscape.NodeData.Id nd = cytoscape.EdgeData.Target ed).
Proof.
  intros Hkey Hclosed
    (entries & order & nodes & edges & Hperm & Hbuild & _ & [Hn _] & [He _] & _)
    Hed.
  fold (node_array r) in Hn. fold (edge_array r) in He.
  rewrite He in Hed.
  destruct (buildConfig_outs _ _ _ _ _ Hbuild) as (outs & Houts & -> & ->).
  apply list_elem_of_bind in Hed as ([nd eds] & Hed & Hout). simpl in Hed.
  destruct (Forall2_elem_of_r _ _ _ _ Houts Hout) as ([id p] & Hentry & Hb).
  destruct (buildConfig_entry_Ok _ _ _ _ _ Hb) as (n & Hload & Hnd & Heds).
  simpl in Hload, Hnd.
  destruct (Forall2_elem_of_r _ _ _ _ Heds Hed) as (pe & Hpe & Hedge).
  destruct (buildConfig_edge_fields _ _ _ _ _ Hedge)
    as (Hs & (e & dest & Hle & Hld & Ht) & _).
  assert (Hmap : ∀ id p, (id, p) ∈ entries ↔ trafficMap !! id = Some p).
  { intros id' p'. rewrite Hperm.
    exact (elem_of_map_to_list (trafficMap : gmap string graph.ptr) id' p'). }
  assert (Hfound : ∀ id p nd eds,
             (id, p) ∈ entries →
             cytoscape.buildConfig_entry md5hex st o (id, p) = Ok (nd, eds) →
             ∃ nd', nd' ∈ node_array r
                    ∧ cytoscape.NodeData.Id nd' = cytoscape.nodeHash md5hex id).
  { intros id' p' nd' eds' Hin' Hb'.
    destruct (buildConfig_entry_Ok _ _ _ _ _ Hb') as (n' & _ & Hnd' & _).
    apply buildConfig_node_fields in Hnd' as [[= Hid _] _].
    destruct (Forall2_elem_of_l _ _ _ _ Houts Hin') as (out & Hout' & Hb'').
    rewrite Hb' in Hb''. injection Hb'' as <-.
    destruct (add_compounds_Id o order (outs.*1) nd') as (nd'' & Hin'' & Hid'').
    { by apply (list_elem_of_fmap_2 fst) in Hout'. }
    exists nd''. rewrite Hn. split; [done|]. by rewrite Hid''. }
  split.
  - destruct (Hfound id p nd eds Hentry Hb) as (nd' & Hin' & Hid').
    exists nd'. split; [done|]. rewrite Hid', Hs.
    by rewrite (Hkey id p n (proj1 (Hmap id p) Hentry) Hload).
  - destruct (Hclosed id p n pe e dest (proj1 (Hmap id p) Hentry) Hload Hpe
                Hle Hld) as [p' Hp'].
    apply Hmap in Hp'.
    destruct (Forall2_elem_of_l _ _ _ _ Houts Hp') as ([nd' eds'] & _ & Hb').
    destruct (Hfound _ _ nd' eds' Hp' Hb') as (nd'' & Hin'' & Hid'').
    exists nd''. split; [done|]. by rewrite Hid'', Ht.
Qed.

End serialization.

(** ** When the serializer returns *)

Section returns.

Variable md5hex : string → string.

Lemma getRate_typed md k :
  typed is_float md k → ∃ f, cytoscape.getRate md k = Ok f.
Proof.
  unfold typed, cytoscape.getRate. intros H.
  destruct (md !! k) as [v|]; [|by eexists].
  specialize (H v eq_refl). destruct v; try done. by eexists.
Qed.

Lemma assign_if_present_typed {A X : Type} (T : graph.value → bool) md k
    (cast : graph.value → result A) (set : A → X → X) (x : X) :
  (∀ v, T v = true → ∃ a, cast v = Ok a) →
  typed T md k →
  ∃ x', cytoscape.assign_if_present md k cast set x = Ok x'.
Proof.
  unfold typed, cytoscape.assign_if_present. intros Hcast H.
  destruct (md !! k) as [v|]; [|by eexists].
  destruct (Hcast v (H v eq_refl)) as [a ->]. by eexists.
Qed.

Lemma as_float64_typed v : is_float v = true → ∃ a, cytoscape.as_float64 v = Ok a.
Proof. destruct v; try done. by eexists. Qed.
Lemma as_bool_typed v : is_bool v = true → ∃ a, cytoscape.as_bool v = Ok a.
Proof. destruct v; try done. by eexists. Qed.
Lemma as_string_typed v : is_string v = true → ∃ a, cytoscape.as_string v = Ok a.
Proof. destruct v; try done. by eexists. Qed.
Lemma as_bool_map_typed v :
  is_bool_map v = true → ∃ a, cytoscape.as_bool_map v = Ok a.
Proof. destruct v; try done. by eexists. Qed.

Lemma Forall_key {P : string → Prop} (l : list string) (k : string) :
  Forall P l → bool_decide (k ∈ l) = true → P k.
Proof.
  intros H Hk%bool_decide_eq_true. rewrite Forall_forall in H. by apply H.
Qed.

Ltac float_cases :=
  repeat match goal with
         | |- context [if (?a <? ?b)%float then _ else _] =>
             destruct (a <? b)%float
         end.

Lemma addNodeTelemetry_typed s nd :
  node_metadata_typed (graph.Metadata s) →
  ∃ nd', cytoscape.addNodeTelemetry s nd = Ok nd'.
Proof.
  intros (Hf & _). unfold cytoscape.addNodeTelemetry.
  repeat match goal with
         | |- context [cytoscape.getRate ?md ?k] =>
             let H := fresh in
             destruct (getRate_typed md k (Forall_key _ k Hf eq_refl))
               as [? H];
             rewrite H; clear H
         end.
  simpl. float_cases; by eexists.
Qed.

Lemma buildConfig_node_typed id n :
  node_metadata_typed (graph.Metadata n) →
  ∃ nd, cytoscape.buildConfig_node md5hex id n = Ok nd.
Proof.
  intros Hmd. unfold cytoscape.buildConfig_node.
  destruct (addNodeTelemetry_typed n
              (cytoscape.newNodeData (cytoscape.nodeHash md5hex id)
                 (graph.NodeType n) (graph.Namespace n) (graph.Workload n)
                 (graph.App n) (graph.Version n) (graph.Service n)) Hmd)
    as [nd0 ->].
  simpl. destruct Hmd as (_ & Hb & Hs & Hm). revert nd0.
  repeat match goal with
         | |- ∀ nd0, ∃ nd, cytoscape.assign_if_present ?md ?k cytoscape.as_bool ?s nd0 ≫= _ = _ =>
             let nd1 := fresh "nd" in
             let H := fresh in
             intros nd0;
             destruct (assign_if_present_typed is_bool md k cytoscape.as_bool
                         s nd0 as_bool_typed (Forall_key _ k Hb eq_refl))
               as [nd1 H];
             rewrite H; clear H; simpl; revert nd1; clear nd0
         | |- ∀ nd0, ∃ nd, cytoscape.assign_if_present ?md ?k cytoscape.as_string ?s nd0 ≫= _ = _ =>
             let nd1 := fresh "nd" in
             let H := fresh in
             intros nd0;
             destruct (assign_if_present_typed is_string md k
                         cytoscape.as_string s nd0 as_string_typed Hs)
               as [nd1 H];
             rewrite H; clear H; simpl; revert nd1; clear nd0
         | |- ∀ nd0, ∃ nd, cytoscape.assign_if_present ?md ?k cytoscape.as_bool_map ?s nd0 ≫= _ = _ =>
             let nd1 := fresh "nd" in
             let H := fresh in
             intros nd0;
             destruct (assign_if_present_typed is_bool_map md k
                         cytoscape.as_bool_map s nd0 as_bool_map_typed Hm)
               as [nd1 H];
             rewrite H; clear H; simpl; revert nd1; clear nd0
         end.
  intros nd0.
  apply (assign_if_present_typed is_bool _ _ _ _ _ as_bool_typed).
  by apply (Forall_key _ _ Hb).
Qed.

Lemma addEdgeTelemetry_typed st ed e o s :
  edge_metadata_typed (graph.EdgeMetadata e) →
  graph.load_node st (graph.Source e) = Ok s →
  node_metadata_typed (graph.Metadata s) →
  ∃ ed', cytoscape.addEdgeTelemetry st ed e o = Ok ed'.
Proof.
  intros (Hf & Hb & _) Hs (Hsf & Hsb & _). unfold cytoscape.addEdgeTelemetry.
  destruct (getRate_typed (graph.EdgeMetadata e) "rate"
              (Forall_key _ "rate" Hf eq_refl)) as [rate ->].
  repeat match goal with
         | |- context [cytoscape.getRate (graph.EdgeMetadata e) ?k] =>
             let H := fresh in
             destruct (getRate_typed (graph.EdgeMetadata e) k
                         (Forall_key _ k Hf eq_refl)) as [? H];
             rewrite H; clear H
         end.
  rewrite Hs. simpl.
  destruct (getRate_typed (graph.Metadata s) "rateOut"
              (Forall_key _ "rateOut" Hsf eq_refl)) as [rateOut ->].
  destruct (0 <? rate)%float.
  - match goal with
    | |- context [cytoscape.assign_if_present ?md "responseTime" ?c ?s ?x] =>
        destruct (assign_if_present_typed is_float md "responseTime" c s x
                    as_float64_typed (Forall_key _ "responseTime" Hf eq_refl))
          as [? ->]
    end.
    simpl.
    match goal with
    | |- context [cytoscape.assign_if_present ?md "isMTLS" ?c ?s ?x] =>
        destruct (assign_if_present_typed is_bool md "isMTLS" c s x
                    as_bool_typed Hb) as [? ->]
    end.
    simpl. float_cases; by eexists.
  - match goal with
    | |- context [cytoscape.assign_if_present ?md "isUnused" ?c ?s ?x] =>
        destruct (assign_if_present_typed is_bool md "isUnused" c s x
                    as_bool_typed (Forall_key _ "isUnused" Hsb eq_refl))
          as [? ->]
    end.
    simpl.
    match goal with
    | |- context [cytoscape.assign_if_present ?md "isMTLS" ?c ?s ?x] =>
        destruct (assign_if_present_typed is_bool md "isMTLS" c s x
                    as_bool_typed Hb) as [? ->]
    end.
    simpl. float_cases; by eexists.
Qed.

Lemma load_node_elem_of st p n :
  graph.load_node st p = Ok n → n ∈ graph.nodes st.
Proof.
  destruct p as [a|]; simpl; [|done].
  destruct (graph.nodes st !! a) as [n'|] eqn:Ha; [|done].
  intros [= <-]. by eapply list_elem_of_lookup_2.
Qed.

Lemma load_edge_elem_of st p e :
  graph.load_edge st p = Ok e → e ∈ graph.edges st.
Proof.
  destruct p as [a|]; simpl; [|done].
  destruct (graph.edges st !! a) as [e'|] eqn:Ha; [|done].
  intros [= <-]. by eapply list_elem_of_lookup_2.
Qed.

Lemma mapM_result_total {X Y : Type} (f : X → result Y) (l : list X) :
  (∀ x, x ∈ l → ∃ y, f x = Ok y) → ∃ ys, cytoscape.mapM_result f l = Ok ys.
Proof.
  induction l as [|x l IH]; intros H; simpl; [by eexists|].
  destruct (H x) as [y ->]; [by left|]. simpl.
  destruct IH as [ys ->]; [|by eexists].
  intros x' Hx'. apply H. by right.
Qed.

(** X19. [NewConfig] returns a document for every traffic map that is well
    formed: no pointer of the map, of a node or of an edge dangles, and the
    metadata that the serializer reads have the types it asserts (rates
    are floats, flags are booleans, [isMisconfigured] and [protocol] are
    strings, [destServices] is a set of names). It does so in whatever
    order the maps are ranged over. *)
Theorem NewConfig_total st (trafficMap : graph.TrafficMap) entries order o :
  well_formed st trafficMap →
  entries ≡ₚ map_to_list trafficMap →
  ∃ r, cytoscape.NewConfig md5hex st entries order o = Ok r.
Proof.
  intros (Hmap & Hnodes & Hedges) Hperm.
  assert (Hentry : ∀ entry, entry ∈ entries →
            ∃ out, cytoscape.buildConfig_entry md5hex st o entry = Ok out).
  { intros [id p]. rewrite Hperm. intros Hin.
    apply (elem_of_map_to_list (trafficMap : gmap string graph.ptr)) in Hin.
    destruct (Hmap id p Hin) as [n Hn].
    unfold cytoscape.buildConfig_entry. simpl. rewrite Hn. simpl.
    destruct (Hnodes n (load_node_elem_of _ _ _ Hn)) as [Hmd Hes].
    destruct (buildConfig_node_typed id n Hmd) as [nd ->]. simpl.
    destruct (mapM_result_total (cytoscape.buildConfig_edge md5hex st o n)
                (graph.Edges n)) as [eds ->]; [|by eexists].
    intros pe Hpe. destruct (Hes pe Hpe) as [e He].
    unfold cytoscape.buildConfig_edge. rewrite He. simpl.
    destruct (Hedges e (load_edge_elem_of _ _ _ He))
      as (Hemd & [s Hs] & [d Hd]).
    rewrite Hd. simpl.
    assert (∃ protocol,
              match graph.EdgeMetadata e !! "protocol" with
              | Some graph.VNil | None => Ok ""
              | Some v => cytoscape.as_string v
              end = Ok protocol) as [protocol ->].
    { destruct Hemd as (_ & _ & Hp). unfold typed in Hp.
      destruct (graph.EdgeMetadata e !! "protocol") as [v|]; [|by eexists].
      specialize (Hp v eq_refl). destruct v; try done; by eexists. }
    simpl. eapply addEdgeTelemetry_typed; [done..|].
    by apply Hnodes, (load_node_elem_of _ _ _ Hs). }
  unfold cytoscape.NewConfig, cytoscape.NewConfig_unsorted.
  rewrite buildConfig_spec.
  destruct (mapM_result_total _ _ Hentry) as [outs ->]. simpl. by eexists.
Qed.

End returns.

(** ** The document *)

Section documents.

Variable md5hex : string → string.

Lemma StronglySorted_lookup_lt {A : Type} (R : A → A → Prop) (l : list A)
    (i j : nat) (a b : A) :
  StronglySorted R l → l !! i = Some a → l !! j = Some b → i < j → R a b.
Proof.
  intros Hs. revert i j.
  induction Hs as [|x l Hs IH Hall]; intros [|i] [|j]; simpl; try done; try lia.
  - intros [= <-] Hb _. rewrite Forall_forall in Hall. apply Hall.
    by eapply list_elem_of_lookup_2.
  - intros Ha Hb Hij. apply (IH i j); [done..|lia].
Qed.

(** The nodes that [buildConfig] collects have no parent and are no
    groups. *)
Lemma buildConfig_nodes_plain st entries o nodes edges nd :
  cytoscape.buildConfig md5hex st entries [] [] o = Ok (nodes, edges) →
  nd ∈ nodes →
  cytoscape.NodeData.Parent nd = "" ∧ cytoscape.NodeData.IsGroup nd = "".
Proof.
  intros (outs & Houts & -> & _)%buildConfig_outs
    ([nd' eds] & -> & Hout)%list_elem_of_fmap.
  destruct (Forall2_elem_of_r _ _ _ _ Houts Hout) as (entry & _ & Hb).
  destruct (buildConfig_entry_Ok _ _ _ _ _ _ Hb) as (n & _ & Hnd & _).
  by apply buildConfig_node_fields in Hnd as [[= _ ? _ _ _ _ _ _ ?] _].
Qed.

(** X20. Parents come before their children: under the condition on the
    compound keys, every node of a document that has a parent is preceded,
    in the node array, by a group node whose identifier is that parent. *)
Theorem NewConfig_parent_precedes_child st (trafficMap : graph.TrafficMap) o r
    (j : nat) (m : NodeData) :
  cytoscape.NewConfig_rel md5hex st trafficMap o r →
  key_injective (node_array r) →
  node_array r !! j = Some m →
  cytoscape.NodeData.Parent m ≠ "" →
  ∃ i c, i < j ∧ node_array r !! i = Some c
         ∧ cytoscape.NodeData.Id c = cytoscape.NodeData.Parent m
         ∧ cytoscape.NodeData.IsGroup c = options.GroupByVersion.
Proof.
  intros (entries & order & nodes & edges & _ & Hbuild & _ & [Hn Hsorted] & _)
    Hkey Hj Hparent.
  fold (node_array r) in Hn, Hsorted.
  pose proof (λ nd, buildConfig_nodes_plain _ _ _ _ _ nd Hbuild) as Hplain.
  assert (Hm : m ∈ node_array r) by by eapply list_elem_of_lookup_2.
  pose proof Hm as Hm'. rewrite Hn in Hm'. revert Hn Hm'.
  unfold cytoscape.add_compounds.
  destruct (_ && _); [|by intros _ [? _]%Hplain].
  rewrite groupByVersion_spec. unfold grouped_nodes.
  intros Hn [(n & -> & Hin)%list_elem_of_fmap|Hc]%elem_of_app.
  2: { apply list_elem_of_omap in Hc as (k & _ & Hc).
       by apply compound_of_Some in Hc as (_ & _ & _ & _ & _ & ?). }
  destruct (Hplain n Hin) as [Hp Hg]. revert Hj Hm Hparent. unfold reparent.
  destruct (String.eqb_spec (cytoscape.NodeData.NodeType n) graph.NodeTypeApp)
    as [Happ|]; [|done].
  destruct (bool_decide_reflect (cytoscape.box_key n ∈ order)) as [Hk|];
    [|done].
  destruct (Nat.ltb_spec 1 (length (group nodes (cytoscape.box_key n))))
    as [Hsz|]; [|done].
  simpl. set (k := cytoscape.box_key n) in *. intros Hj Hm _.
  destruct (proj2 (compound_of_is_Some md5hex nodes k) Hsz) as [c Hc].
  pose proof (compound_of_Some _ _ _ _ Hc) as (_ & Hck & Hcid & Hct & Hcg & _).
  assert (Hcin : c ∈ node_array r).
  { rewrite Hn. apply elem_of_app. right.
    apply list_elem_of_omap. by exists k. }
  destruct (proj1 (list_elem_of_lookup _ _) Hcin) as [i Hi].
  exists i, c. split; [|done].
  destruct (Hkey c _ Hcin Hm Hct Happ Hck) as [Hns _]. simpl in Hns.
  assert (Hless : cytoscape.node_less c
                    (set_Parent (cytoscape.nodeHash md5hex k) n) = true).
  { rewrite node_less_lex. simpl. rewrite Hns, Hcg, Hg.
    unfold lex_step. by rewrite String.eqb_refl. }
  destruct (lt_eq_lt_dec i j) as [[Hlt| ->]|Hgt]; [done| |].
  - rewrite Hi in Hj. injection Hj as ->. simpl in Hcg. by rewrite Hg in Hcg.
  - pose proof (StronglySorted_lookup_lt _ _ _ _ _ _ Hsorted Hj Hi Hgt) as Hs.
    simpl in Hs. by rewrite Hless in Hs.
Qed.

(** X21. A group node is flagged for a missing sidecar, as inaccessible or
    as outside exactly when one of the nodes of its group is; it takes its
    identifier from the key of the group, and it has no version, workload
    or service. *)
Theorem compound_flags order nodes c :
  c ∈ drop (length nodes) (cytoscape.groupByVersion md5hex order nodes) →
  let members := group nodes (cytoscape.box_key c) in
  1 < length members
  ∧ cytoscape.NodeData.Id c = cytoscape.nodeHash md5hex (cytoscape.box_key c)
  ∧ HasMissingSC c = existsb HasMissingSC members
  ∧ IsInaccessible c = existsb IsInaccessible members
  ∧ IsOutside c = existsb IsOutside members
  ∧ cytoscape.NodeData.Version c = ""
  ∧ cytoscape.NodeData.Workload c = ""
  ∧ cytoscape.NodeData.Service c = "".
Proof.
  rewrite groupByVersion_spec. unfold grouped_nodes.
  rewrite drop_app_length' by (by rewrite length_fmap).
  intros (k & _ & Hc)%list_elem_of_omap.
  pose proof (compound_of_Some _ _ _ _ Hc) as (Hsz & Hck & Hid & _).
  simpl. rewrite Hck. split; [done|]. split; [done|].
  clear Hck Hid. revert Hc Hsz. unfold compound_of.
  destruct (group nodes k) as [|m0 [|m1 G]]; [done..|].
  by intros [= <-].
Qed.

(** X22. Two documents for the same traffic map and options have the same
    nodes and the same edges, whatever the orders in which the maps were
    ranged over and whatever the sorts did with ties: the node arrays are
    permutations of each other, and so are the edge arrays. *)
Theorem NewConfig_same_content st (trafficMap : graph.TrafficMap) o
    (r1 r2 : cytoscape.Config) :
  cytoscape.NewConfig_rel md5hex st trafficMap o r1 →
  cytoscape.NewConfig_rel md5hex st trafficMap o r2 →
  (grouping_enabled o = true → key_injective (node_array r1)) →
  node_array r1 ≡ₚ node_array r2
  ∧ edge_array r1 ≡ₚ edge_array r2
  ∧ cytoscape.Timestamp r1 = cytoscape.Timestamp r2
  ∧ cytoscape.GraphType r1 = cytoscape.GraphType r2.
Proof.
  intros (entries1 & order1 & nodes1 & edges1 & Hp1 & Hb1 & Ho1 & [Hn1 _]
          & [He1 _] & Ht1 & Hg1)
    (entries2 & order2 & nodes2 & edges2 & Hp2 & Hb2 & Ho2 & [Hn2 _]
     & [He2 _] & Ht2 & Hg2) Hkey.
  fold (node_array r1) in Hn1. fold (node_array r2) in Hn2.
  fold (edge_array r1) in He1. fold (edge_array r2) in He2.
  assert (entries1 ≡ₚ entries2) as Hentries by by rewrite Hp1, Hp2.
  destruct (buildConfig_Permutation md5hex _ _ _ _ _ _ _ _ Hentries Hb1 Hb2)
    as [Hnodes Hedges].
  split; [|split; [by rewrite He1, He2|by rewrite Ht1, Ht2, Hg1, Hg2]].
  rewrite Hn1, Hn2. revert Hn1 Hkey. unfold cytoscape.add_compounds.
  fold (grouping_enabled o). destruct (grouping_enabled o); [|done].
  rewrite !groupByVersion_spec. intros Hn1 Hkey.
  apply grouped_nodes_Permutation; [done| |done..].
  apply (key_injective_grouped md5hex order1).
  apply (key_injective_Permutation (node_array r1)); [done|by apply Hkey].
Qed.

End documents.

(** ** The orders of the sorts *)

Section orders.

Lemma lex_step_tie (x y : string) (r1 r2 : bool) :
  lex_step x y r1 = false → lex_step y x r2 = false →
  x = y ∧ r1 = false ∧ r2 = false.
Proof.
  unfold lex_step.
  destruct (String.eqb_spec x y) as [->|Hne]; simpl.
  - rewrite String.eqb_refl. simpl. by intros -> ->.
  - rewrite (proj2 (String.eqb_neq y x)) by done. simpl.
    intros H1 H2. by destruct Hne; apply ltb_trichotomy.
Qed.

(** X23. The two orders that [NewConfig] sorts by are strict weak orders,
    as [sort.Slice] requires: each is asymmetric and transitive, and two
    records tie exactly when they agree on the keys of the order, the six
    fields namespace, isGroup, app, version, service and workload of a node
    and the source and the target of an edge. *)
Theorem sort_orders_strict_weak :
  (∀ a b, cytoscape.node_less a b = true → cytoscape.node_less b a = false)
  ∧ (∀ a b c, cytoscape.node_less a b = true → cytoscape.node_less b c = true →
       cytoscape.node_less a c = true)
  ∧ (∀ a b, cytoscape.node_less a b = false ∧ cytoscape.node_less b a = false
            ↔ node_keys a = node_keys b)
  ∧ (∀ a b, cytoscape.edge_less a b = true → cytoscape.edge_less b a = false)
  ∧ (∀ a b c, cytoscape.edge_less a b = true → cytoscape.edge_less b c = true →
       cytoscape.edge_less a c = true)
  ∧ (∀ a b, cytoscape.edge_less a b = false ∧ cytoscape.edge_less b a = false
            ↔ edge_keys a = edge_keys b).
Proof.
  split; [exact node_less_asym|]. split; [exact node_less_trans|].
  split; [|split; [exact edge_less_asym|split; [exact edge_less_trans|]]].
  - intros a b. rewrite !node_less_lex. unfold node_keys. split.
    + intros [H1 H2].
      destruct (lex_step_tie _ _ _ _ H1 H2) as (E1 & H3 & H4).
      destruct (lex_step_tie _ _ _ _ H3 H4) as (E2 & H5 & H6).
      destruct (lex_step_tie _ _ _ _ H5 H6) as (E3 & H7 & H8).
      destruct (lex_step_tie _ _ _ _ H7 H8) as (E4 & H9 & H10).
      destruct (lex_step_tie _ _ _ _ H9 H10) as (E5 & H11 & H12).
      pose proof (ltb_trichotomy _ _ H11 H12) as E6.
      unfold node_keys. congruence.
    + unfold node_keys. intros [= -> -> -> -> -> ->]. unfold lex_step.
      rewrite !String.eqb_refl. cbn [negb]. by rewrite ltb_irrefl.
  - intros a b. rewrite !edge_less_lex. unfold edge_keys. split.
    + intros [H1 H2].
      destruct (lex_step_tie _ _ _ _ H1 H2) as (E1 & H3 & H4).
      by rewrite E1, (ltb_trichotomy _ _ H3 H4).
    + intros [= -> ->]. unfold lex_step.
      rewrite !String.eqb_refl. cbn [negb]. by rewrite ltb_irrefl.
Qed.

End orders.

(** ** The documents of the examples *)

Section example_documents.

Ltac run := vm_compute; reflexivity.

Ltac in_list H :=
  repeat (apply elem_of_cons in H as [->|H]); [..|by apply elem_of_nil in H].

Ltac lookup_cases H :=
  repeat (apply lookup_insert_Some in H as [[<- <-]|[_ H]]);
  [..|by rewrite lookup_empty in H].

Lemma buildConfig_node_identity_witness :
  ∃ nd, cytoscape.buildConfig_node plain "wl_ns_a" workload_a = Ok nd
        ∧ identity nd = ("wl_ns_a", "", "workload", "ns", "a", "", "", "", "")
        ∧ http_rates nd = ("", "", "", "").
Proof.
  eexists. split; [run|].
  destruct (buildConfig_node_identity plain "wl_ns_a" workload_a _ eq_refl)
    as [Hid Hrates].
  split; [exact Hid|exact (Hrates eq_refl)].
Defined.

Lemma buildConfig_edge_telemetry_witness :
  ∃ ed, cytoscape.buildConfig_edge plain workload_store workload_options
          workload_a (Some 0) = Ok ed
        ∧ cytoscape.EdgeData.Source ed = "wl_ns_a"
        ∧ (cytoscape.EdgeData.IsUnused ed = true →
           cytoscape.EdgeData.Rate ed = "").
Proof.
  eexists. split; [run|].
  destruct (buildConfig_edge_telemetry plain workload_store workload_options
              workload_a (Some 0) _ eq_refl) as (Hs & _ & _ & Hu).
  split; [exact Hs|exact Hu].
Defined.

Lemma bookinfo_map_entries : map_to_list bookinfo_map ≡ₚ bookinfo_entries.
Proof.
  unfold bookinfo_map, bookinfo_entries.
  by rewrite !map_to_list_insert, map_to_list_empty.
Qed.

Lemma bookinfo_NewConfig :
  cytoscape.NewConfig_rel plain bookinfo_store bookinfo_map versioned_options
    bookinfo_document.
Proof.
  apply (NewConfig_sound plain bookinfo_store bookinfo_map bookinfo_entries
           ["box_bookinfo_reviews"; "box_bookinfo_productpage"]
           versioned_options bookinfo_document
           (match cytoscape.buildConfig plain bookinfo_store bookinfo_entries
                    [] [] versioned_options with
            | Ok out => out.1 | Panic _ => [] end)
           (match cytoscape.buildConfig plain bookinfo_store bookinfo_entries
                    [] [] versioned_options with
            | Ok out => out.2 | Panic _ => [] end)).
  - by rewrite bookinfo_map_entries.
  - run.
  - unfold cytoscape.iteration_order. vm_compute.
    first [reflexivity | apply perm_swap].
  - run.
Qed.

Ltac typed_key :=
  intros v Hv; vm_compute in Hv;
  first [discriminate | injection Hv as <-; reflexivity].

Ltac typed_md :=
  unfold node_metadata_typed, edge_metadata_typed;
  repeat split; repeat constructor; typed_key.

Lemma bookinfo_well_formed : well_formed bookinfo_store bookinfo_map.
Proof.
  split; [|split].
  - intros id p Hm. unfold bookinfo_map in Hm. lookup_cases Hm; by eexists.
  - intros n Hn. simpl in Hn. in_list Hn;
      (split; [typed_md|intros pe Hpe; simpl in Hpe; in_list Hpe; by eexists]).
  - intros e He. simpl in He. in_list He;
      (split; [typed_md|split; by eexists]).
Qed.

Lemma NewConfig_total_witness :
  ∃ r, cytoscape.NewConfig plain bookinfo_store bookinfo_entries
         ["box_bookinfo_reviews"; "box_bookinfo_productpage"]
         versioned_options = Ok r.
Proof.
  apply (NewConfig_total plain bookinfo_store bookinfo_map);
    [exact bookinfo_well_formed|].
  by rewrite bookinfo_map_entries.
Defined.

Lemma bookinfo_keyed : keyed_by_ID bookinfo_store bookinfo_map.
Proof.
  intros id p n Hm. unfold bookinfo_map in Hm. lookup_cases Hm;
    by intros [= <-].
Qed.

Lemma bookinfo_closed : closed bookinfo_store bookinfo_map.
Proof.
  intros id p n pe e dest Hm. unfold bookinfo_map in Hm.
  lookup_cases Hm; intros [= <-] Hpe; simpl in Hpe; in_list Hpe;
    intros [= <-] [= <-]; by eexists.
Qed.

Lemma NewConfig_edges_refer_to_nodes_witness :
  ∃ ed, edge_array bookinfo_document !! 0 = Some ed
        ∧ (∃ nd, nd ∈ node_array bookinfo_document
                 ∧ cytoscape.NodeData.Id nd = cytoscape.EdgeData.Source ed)
        ∧ (∃ nd, nd ∈ node_array bookinfo_document
                 ∧ cytoscape.NodeData.Id nd = cytoscape.EdgeData.Target ed).
Proof.
  eexists. split; [run|].
  apply (NewConfig_edges_refer_to_nodes plain bookinfo_store bookinfo_map
           versioned_options bookinfo_document _ bookinfo_keyed
           bookinfo_closed bookinfo_NewConfig).
  apply (list_elem_of_lookup_2 _ 0). run.
Defined.

Lemma bookinfo_key_injective : key_injective (node_array bookinfo_document).
Proof.
  intros a b Ha Hb. vm_compute in Ha, Hb. in_list Ha; in_list Hb;
    intros _ _ Hk; first [ by split | vm_compute in Hk; discriminate ].
Qed.

Lemma NewConfig_parent_precedes_child_witness :
  ∃ j m i c,
    node_array bookinfo_document !! j = Some m
    ∧ cytoscape.NodeData.Parent m = "box_bookinfo_reviews"
    ∧ i < j ∧ node_array bookinfo_document !! i = Some c
    ∧ cytoscape.NodeData.Id c = cytoscape.NodeData.Parent m
    ∧ cytoscape.NodeData.IsGroup c = options.GroupByVersion.
Proof.
  exists 2, (set_Parent "box_bookinfo_reviews"
               (cytoscape.newNodeData "vapp_bookinfo_reviews-v1" "app"
                  "bookinfo" "reviews-v1" "reviews" "v1" "")).
  assert (Hj : node_array bookinfo_document !! 2
               = Some (set_Parent "box_bookinfo_reviews"
                         (cytoscape.newNodeData "vapp_bookinfo_reviews-v1"
                            "app" "bookinfo" "reviews-v1" "reviews" "v1" "")))
    by run.
  destruct (NewConfig_parent_precedes_child plain bookinfo_store bookinfo_map
              versioned_options bookinfo_document 2 _ bookinfo_NewConfig
              bookinfo_key_injective Hj) as (i & c & H); [done|].
  exists i, c. split; [exact Hj|]. split; [reflexivity|exact H].
Defined.

Lemma tie_map_entries : map_to_list tie_map ≡ₚ tie_entries.
Proof.
  unfold tie_map, tie_entries.
  by rewrite map_to_list_insert, map_to_list_insert, map_to_list_empty.
Qed.

Lemma tie_NewConfig :
  cytoscape.NewConfig_rel plain tie_store tie_map workload_options
    (tie_document tie_entries).
Proof.
  apply (NewConfig_sound plain tie_store tie_map tie_entries
           ["box_bookinfo_reviews"] workload_options _
           (match cytoscape.buildConfig plain tie_store tie_entries [] []
                    workload_options with
            | Ok out => out.1 | Panic _ => [] end)
           (match cytoscape.buildConfig plain tie_store tie_entries [] []
                    workload_options with
            | Ok out => out.2 | Panic _ => [] end));
    [by rewrite tie_map_entries|run| |run].
  unfold cytoscape.iteration_order. vm_compute. reflexivity.
Qed.

Lemma tie_NewConfig_reverse :
  cytoscape.NewConfig_rel plain tie_store tie_map workload_options
    (tie_document (reverse tie_entries)).
Proof.
  apply (NewConfig_sound plain tie_store tie_map (reverse tie_entries)
           ["box_bookinfo_reviews"] workload_options _
           (match cytoscape.buildConfig plain tie_store
                    (reverse tie_entries) [] [] workload_options with
            | Ok out => out.1 | Panic _ => [] end)
           (match cytoscape.buildConfig plain tie_store
                    (reverse tie_entries) [] [] workload_options with
            | Ok out => out.2 | Panic _ => [] end));
    [rewrite tie_map_entries; apply perm_swap|run| |run].
  unfold cytoscape.iteration_order. vm_compute. reflexivity.
Qed.

Lemma NewConfig_same_content_witness :
  cytoscape.NodeData.NodeType <$> node_array (tie_document tie_entries)
  = ["app"; "workload"]
  ∧ cytoscape.NodeData.NodeType
    <$> node_array (tie_document (reverse tie_entries))
    = ["workload"; "app"]
  ∧ node_array (tie_document tie_entries)
    ≡ₚ node_array (tie_document (reverse tie_entries)).
Proof.
  split; [run|]. split; [run|].
  apply (NewConfig_same_content plain tie_store tie_map workload_options
           (tie_document tie_entries) (tie_document (reverse tie_entries))).
  - exact tie_NewConfig.
  - exact tie_NewConfig_reverse.
  - intros H. vm_compute in H. discriminate.
Defined.

Lemma compound_flags_witness :
  let nodes := [nd_reviews_v1; nd_reviews_v2] in
  let c := cytoscape.newCompound "box_bookinfo_reviews" nd_reviews_v1 in
  1 < length (group nodes (cytoscape.box_key c))
  ∧ cytoscape.NodeData.Id c = cytoscape.nodeHash plain (cytoscape.box_key c)
  ∧ HasMissingSC c = existsb HasMissingSC (group nodes (cytoscape.box_key c))
  ∧ IsInaccessible c
    = existsb IsInaccessible (group nodes (cytoscape.box_key c))
  ∧ IsOutside c = existsb IsOutside (group nodes (cytoscape.box_key c))
  ∧ cytoscape.NodeData.Version c = ""
  ∧ cytoscape.NodeData.Workload c = ""
  ∧ cytoscape.NodeData.Service c = "".
Proof.
  intros nodes c.
  apply (compound_flags plain ["box_bookinfo_reviews"] nodes c).
  vm_compute. apply list_elem_of_singleton. reflexivity.
Defined.

End example_documents.
